(** * UFO normalizer: a shallow embedding of [ufonormalizer.py]

    The development follows the layout of the Python module: the pieces
    of the Python runtime the module relies on (strings, numbers,
    exceptions), the XML writer, the GLIF element normalizers, the
    user-name-to-file-name conversion, the modification-time store, the
    two-pass renaming of glyph files, the format-2 outlines, the refresh
    test, the property-list writer and the unicode element.
    Definitions come first, the lemmas and theorems about them follow.

    Conventions of the embedding.
    - A Python [str] is a [string]; characters are the code points below
      256.
    - A Python [float] is the exact rational it denotes, or an infinity,
      or a NaN ([pyfloat]).  [float(text)] yields the rational written
      by the literal; rounding to binary64 is outside the model.
    - A Python exception is a [Raise] in the [result] monad.
    - A [dict] used for XML attributes is an association list with
      distinct keys (the writer sorts it before printing); a [dict] used
      as a store (directory listing, modification times) is a [gmap]. *)

From Stdlib Require Import ZArith QArith String Ascii List Lia.
From Stdlib Require Import DecimalString DecimalN DecimalFacts.
From Stdlib Require HexadecimalN.
From stdpp Require Import gmap strings list sorting.

Close Scope Q_scope.
Open Scope string_scope.
Open Scope list_scope.

(** ** Exceptions

    [LoopFuel] is no Python exception: it marks a bounded loop of the
    model that ran out of unrollings, which the lemmas [handleClash1_fuel]
    and [handleClash2_fuel] show never happens. *)

Inductive exn : Type :=
| AttributeError | ValueError | IndexError | TypeError | OverflowError
| NameError | OSError | AssertionError | UFONormalizerError
| LoopFuel.

Inductive result (A : Type) : Type :=
| Ok (a : A)
| Raise (e : exn).

Arguments Ok {A} a.
Arguments Raise {A} e.

#[global] Instance result_ret : MRet result := fun A a => Ok a.

#[global] Instance result_bind : MBind result := fun A B k m =>
  match m with
  | Ok a => k a
  | Raise e => Raise e
  end.

(** ** Python strings *)

Definition is_digit (c : ascii) : bool :=
  let n := N_of_ascii c in ((48 <=? n) && (n <=? 57))%N.

(** [str.isspace] on the code points below 256. *)
Definition is_space (c : ascii) : bool :=
  let n := N_of_ascii c in
  (((9 <=? n) && (n <=? 13)) || ((28 <=? n) && (n <=? 32))
   || (n =? 133) || (n =? 160))%N.

(** The line boundaries of [str.splitlines] below 256. *)
Definition is_linebreak (c : ascii) : bool :=
  let n := N_of_ascii c in
  (((10 <=? n) && (n <=? 13)) || ((28 <=? n) && (n <=? 30)) || (n =? 133))%N.

(** [c.lower()]: the ASCII capitals and the Latin-1 capitals. *)
Definition chr_lower (c : ascii) : ascii :=
  let n := N_of_ascii c in
  if (((65 <=? n) && (n <=? 90))
      || ((192 <=? n) && (n <=? 222) && negb (n =? 215)))%N
  then ascii_of_N (n + 32) else c.

Fixpoint str_map (f : ascii -> ascii) (s : string) : string :=
  match s with
  | EmptyString => EmptyString
  | String c s' => String (f c) (str_map f s')
  end.

Definition str_lower (s : string) : string := str_map chr_lower s.

Fixpoint str_all (P : ascii -> bool) (s : string) : bool :=
  match s with
  | EmptyString => true
  | String c s' => P c && str_all P s'
  end.

Fixpoint str_flat_map (f : ascii -> string) (s : string) : string :=
  match s with
  | EmptyString => EmptyString
  | String c s' => f c +:+ str_flat_map f s'
  end.

(** [s.replace(c, r)] for a one-character pattern. *)
Definition str_replace (c : ascii) (r : string) (s : string) : string :=
  str_flat_map (fun a => if Ascii.eqb a c then r else String a EmptyString) s.

Fixpoint str_count (c : ascii) (s : string) : nat :=
  match s with
  | EmptyString => 0
  | String a s' => (if Ascii.eqb a c then 1 else 0) + str_count c s'
  end.

Fixpoint str_take (n : nat) (s : string) : string :=
  match n, s with
  | S n', String c s' => String c (str_take n' s')
  | _, _ => EmptyString
  end.

(** [s[:n]]: a negative [n] counts from the end. *)
Definition slice_to (s : string) (n : Z) : string :=
  if (0 <=? n)%Z then str_take (Z.to_nat n) s
  else str_take (String.length s - Z.to_nat (- n)) s.

(** [s.split(sep)] for a one-character separator: never empty. *)
Fixpoint str_split (sep : ascii) (s : string) : list string :=
  match s with
  | EmptyString => [EmptyString]
  | String c s' =>
      if Ascii.eqb c sep then EmptyString :: str_split sep s'
      else match str_split sep s' with
           | p :: ps => String c p :: ps
           | [] => [String c EmptyString]
           end
  end.

Fixpoint str_join (sep : string) (l : list string) : string :=
  match l with
  | [] => EmptyString
  | [p] => p
  | p :: ps => p +:+ sep +:+ str_join sep ps
  end.

(** [s.partition(c)]: the text before the first [c], and the text after
    it when there is one. *)
Fixpoint str_partition (P : ascii -> bool) (s : string) : string * option string :=
  match s with
  | EmptyString => (EmptyString, None)
  | String c s' =>
      if P c then (EmptyString, Some s')
      else let '(a, b) := str_partition P s' in (String c a, b)
  end.

(** [s.rstrip(chars)] and [s.lstrip(chars)] for a class of characters. *)
Fixpoint str_rstrip (P : ascii -> bool) (s : string) : string :=
  match s with
  | EmptyString => EmptyString
  | String c s' =>
      match str_rstrip P s' with
      | EmptyString => if P c then EmptyString else String c EmptyString
      | r => String c r
      end
  end.

Fixpoint str_lstrip (P : ascii -> bool) (s : string) : string :=
  match s with
  | EmptyString => EmptyString
  | String c s' => if P c then str_lstrip P s' else s
  end.

Definition str_strip (s : string) : string :=
  str_rstrip is_space (str_lstrip is_space s).

Fixpoint str_last (s : string) : option ascii :=
  match s with
  | EmptyString => None
  | String c EmptyString => Some c
  | String _ s' => str_last s'
  end.

(** [s.splitlines()]. *)
Fixpoint str_splitlines (s : string) : list string :=
  match s with
  | EmptyString => []
  | String c s' =>
      if is_linebreak c then
        EmptyString ::
          match s' with
          | String c' s'' =>
              if Ascii.eqb c "013" && Ascii.eqb c' "010"
              then str_splitlines s'' else str_splitlines s'
          | EmptyString => []
          end
      else match str_splitlines s' with
           | l :: ls => String c l :: ls
           | [] => [String c EmptyString]
           end
  end.

Fixpoint str_repeat (c : ascii) (n : nat) : string :=
  match n with
  | O => EmptyString
  | S n' => String c (str_repeat c n')
  end.

(** [s.zfill(w)] on an unsigned numeral. *)
Definition zfill (w : nat) (s : string) : string :=
  str_repeat "0" (w - String.length s) +:+ s.

(** [x in l] for a list of strings. *)
Definition str_in (x : string) (l : list string) : bool :=
  existsb (String.eqb x) l.

(** ** Python integers as text *)

Definition str_of_N (n : N) : string := NilEmpty.string_of_uint (N.to_uint n).

(** [str(z)]. *)
Definition str_of_Z (z : Z) : string :=
  if (z <? 0)%Z then String "-" (str_of_N (Z.abs_N z)) else str_of_N (Z.to_N z).

Definition digit_of_char (c : ascii) : N := (N_of_ascii c - 48)%N.

Definition char_of_digit (d : N) : ascii := ascii_of_N (48 + d).

(** The number written by a run of digits that follows the digits of
    [acc]. *)
Fixpoint digits_fold (s : string) (acc : N) : N :=
  match s with
  | EmptyString => acc
  | String c s' => digits_fold s' (acc * 10 + digit_of_char c)%N
  end.

(** A non-empty run of decimal digits, as a number. *)
Definition digits_to_N (s : string) : option N :=
  match s with
  | EmptyString => None
  | _ => if str_all is_digit s then Some (digits_fold s 0%N) else None
  end.

(** The [n] low decimal digits of [x], most significant first. *)
Fixpoint fixed_digits (n : nat) (x : N) : string :=
  match n with
  | O => EmptyString
  | S n' => fixed_digits n' (x / 10)%N +:+ String (char_of_digit (x mod 10)%N) EmptyString
  end.

(** ** Python floats

    A finite float is the rational it denotes; the sign of a zero is
    not kept (it is not observable in what the normalizer writes). *)

Inductive pyfloat : Type :=
| FFin (q : Q)
| FInf (neg : bool)
| FNaN.

Definition pow10 (n : nat) : Z := (10 ^ Z.of_nat n)%Z.

(** The value [(-1)^neg * digits * 10^e], in lowest terms. *)
Definition decimal_value (neg : bool) (digits : N) (e : Z) : Q :=
  let m := (if neg then - Z.of_N digits else Z.of_N digits)%Z in
  if (0 <=? e)%Z then Qmake (m * 10 ^ e) 1
  else Qred (Qmake m (Z.to_pos (10 ^ (- e)))).

Definition split_sign (s : string) : bool * string :=
  match s with
  | String "-" r => (true, r)
  | String "+" r => (false, r)
  | _ => (false, s)
  end.

(** The exponent part of a literal: an optional sign and digits. *)
Definition exponent_of_string (s : string) : option Z :=
  let '(neg, d) := split_sign s in
  match digits_to_N d with
  | Some n => Some (if neg then - Z.of_N n else Z.of_N n)%Z
  | None => None
  end.

(** The digits of a mantissa: the integer digits, an optional point and
    the fraction digits, with a digit on one side at least.  The result
    is the digit string as a number and the count of fraction digits. *)
Definition mantissa_of_string (s : string) : option (N * nat) :=
  let '(ip, fp) := str_partition (Ascii.eqb ".") s in
  let fp := default EmptyString fp in
  if str_all is_digit ip && str_all is_digit fp then
    match digits_to_N (ip +:+ fp) with
    | Some n => Some (n, String.length fp)
    | None => None
    end
  else None.

(** [float(s)] on a string: [None] stands for [ValueError]. *)
Definition float_of_string (s : string) : option pyfloat :=
  let '(neg, u) := split_sign (str_strip s) in
  let lu := str_lower u in
  if String.eqb lu "inf" || String.eqb lu "infinity" then Some (FInf neg)
  else if String.eqb lu "nan" then Some FNaN
  else
    let '(mant, ex) := str_partition (fun c => Ascii.eqb (chr_lower c) "e") u in
    match mantissa_of_string mant,
          (match ex with Some e => exponent_of_string e | None => Some 0%Z end) with
    | Some (n, k), Some e => Some (FFin (decimal_value neg n (e - Z.of_nat k)))
    | _, _ => None
    end.

(** [float(z)] on an integer. *)
Definition float_of_Z (z : Z) : pyfloat := FFin (Qmake z 1).

(** [int(x)]: truncation toward zero. *)
Definition int_of_float (x : pyfloat) : result Z :=
  match x with
  | FFin q => Ok (Z.quot (Qnum q) (Zpos (Qden q)))
  | FInf _ => Raise OverflowError
  | FNaN => Raise ValueError
  end.

(** Truth value of a float: everything but zero. *)
Definition float_truthy (x : pyfloat) : bool :=
  match x with
  | FFin q => negb (Qnum q =? 0)%Z
  | _ => true
  end.

(** [x < 0] and [x > 1]. *)
Definition float_lt0 (x : pyfloat) : bool :=
  match x with
  | FFin q => (Qnum q <? 0)%Z
  | FInf neg => neg
  | FNaN => false
  end.

Definition float_gt1 (x : pyfloat) : bool :=
  match x with
  | FFin q => (Zpos (Qden q) <? Qnum q)%Z
  | FInf neg => negb neg
  | FNaN => false
  end.

(** [x == z] for an integer [z]. *)
Definition float_eq_Z (x : pyfloat) (z : Z) : bool :=
  match x with
  | FFin q => (Qnum q =? z * Zpos (Qden q))%Z
  | _ => false
  end.

(** [q * 10^n] rounded to the nearest integer, ties to even, as sign
    and magnitude. *)
Definition round_scaled (n : nat) (q : Q) : N :=
  let a := (Z.abs (Qnum q) * pow10 n)%Z in
  let b := Zpos (Qden q) in
  let k := (a / b)%Z in
  let r := (a mod b)%Z in
  Z.to_N (if (2 * r <? b)%Z then k
          else if (b <? 2 * r)%Z then k + 1
          else if Z.even k then k else k + 1)%Z.

(** ["%.nf" % x]. *)
Definition format_fixed (n : nat) (x : pyfloat) : string :=
  match x with
  | FNaN => "nan"
  | FInf neg => if neg then "-inf" else "inf"
  | FFin q =>
      let r := round_scaled n q in
      let p := Z.to_N (pow10 n) in
      let body :=
        match n with
        | O => str_of_N r
        | _ => str_of_N (r / p) +:+ "." +:+ fixed_digits n (r mod p)
        end in
      if (Qnum q <? 0)%Z then String "-" body else body
  end.

(** ** Values held in attribute and guideline dictionaries *)

Inductive value : Type :=
| VNone
| VStr (s : string)
| VFloat (x : pyfloat)
| VInt (z : Z).

(** Truth value, as tested by [if v:] and [not v]. *)
Definition truthy (v : value) : bool :=
  match v with
  | VNone => false
  | VStr s => negb (String.eqb s EmptyString)
  | VFloat x => float_truthy x
  | VInt z => negb (z =? 0)%Z
  end.

Definition is_None (v : value) : bool :=
  match v with VNone => true | _ => false end.

(** [float(v)]: a [ValueError] for an unparsable string, a [TypeError]
    for [None]. *)
Definition float_of_value (v : value) : result pyfloat :=
  match v with
  | VStr s => match float_of_string s with
              | Some x => Ok x
              | None => Raise ValueError
              end
  | VFloat x => Ok x
  | VInt z => Ok (float_of_Z z)
  | VNone => Raise TypeError
  end.

(** A dictionary with string keys, in insertion order. *)
Definition dict (V : Type) : Type := list (string * V).

Fixpoint dict_get {V : Type} (k : string) (d : dict V) : option V :=
  match d with
  | [] => None
  | (k', v) :: d' => if String.eqb k k' then Some v else dict_get k d'
  end.

(** [d[k] = v]. *)
Fixpoint dict_set {V : Type} (k : string) (v : V) (d : dict V) : dict V :=
  match d with
  | [] => [(k, v)]
  | (k', v') :: d' =>
      if String.eqb k k' then (k, v) :: d' else (k', v') :: dict_set k v d'
  end.

(** [d.update(e)]. *)
Definition dict_update {V : Type} (d e : dict V) : dict V :=
  fold_left (fun acc kv => dict_set (fst kv) (snd kv) acc) e d.

(** [d.get(k)] on a dictionary of values: [None] when the key is missing. *)
Definition dict_get_value (k : string) (d : dict value) : value :=
  default VNone (dict_get k d).

(** ** Parsed XML elements ([xml.etree] elements) *)

#[warnings="-register-all"]
Inductive element : Type :=
| Element (tag : string) (attrib : dict string) (text : option string)
          (children : list element).

Definition tag (e : element) : string :=
  match e with Element t _ _ _ => t end.

Definition attrib (e : element) : dict string :=
  match e with Element _ a _ _ => a end.

Definition text (e : element) : option string :=
  match e with Element _ _ t _ => t end.

Definition children (e : element) : list element :=
  match e with Element _ _ _ c => c end.

(** [element.attrib.get(k)] as a value: a string or [None]. *)
Definition attrib_value (k : string) (e : element) : value :=
  match dict_get k (attrib e) with
  | Some s => VStr s
  | None => VNone
  end.

(** ** XML writer *)

(** The double quote character, and a text between double quotes. *)
Definition dquote : ascii := "034".

Definition quoted (s : string) : string :=
  String dquote (s +:+ String dquote EmptyString).

Definition xmlIndent : string := String "009" EmptyString.
Definition xmlLineBreak : string := String "010" EmptyString.

Definition xmlAttributeOrder : dict N :=
  [("name", 0); ("base", 1); ("format", 2); ("fileName", 3); ("x", 4);
   ("y", 5); ("angle", 6); ("xScale", 7); ("xyScale", 8); ("yxScale", 9);
   ("yScale", 10); ("xOffset", 11); ("yOffset", 12); ("type", 13);
   ("smooth", 14); ("color", 15); ("identifier", 16)]%N.

Definition xmlEscapeText (text : string) : string :=
  let text := str_replace "&" "&amp;" text in
  let text := str_replace "<" "&lt;" text in
  let text := str_replace ">" "&gt;" text in
  text.

Definition xmlEscapeAttribute (text : string) : string :=
  let text := xmlEscapeText text in
  let text := str_replace dquote "&quot;" text in
  text.

Definition xmlConvertInt (value : Z) : string := str_of_Z value.

Definition xmlConvertFloat (value : pyfloat) : result string :=
  let value := format_fixed 10 value in
  let value := str_rstrip (Ascii.eqb "0") value in
  match str_last value with
  | None => Raise IndexError
  | Some c =>
      if Ascii.eqb c "." then
        match float_of_string value with
        | None => Raise ValueError
        | Some x => z ← int_of_float x; Ok (xmlConvertInt z)
        end
      else Ok value
  end.

Definition xmlConvertValue (v : value) : result string :=
  match v with
  | VFloat x => xmlConvertFloat x
  | VInt z => Ok (xmlConvertInt z)
  | VStr s => Ok (xmlEscapeText s)
  | VNone => Raise AttributeError
  end.

(** The order of [sorted] on the triples (priority, name, value): the
    names are distinct, so the values are never compared. *)
Definition attr_leb (a b : N * string * value) : bool :=
  let '(i, n, _) := a in
  let '(j, m, _) := b in
  ((i <? j) || ((i =? j) && String.leb n m))%N.

Definition attr_le (a b : N * string * value) : Prop := attr_leb a b = true.

#[global] Instance attr_le_dec : RelDecision attr_le.
Proof. intros a b. unfold attr_le. apply _. Defined.

Record XMLWriter : Type := mkWriter {
  _lines : list string;
  _indentLevel : nat;
  _stack : list string
}.

(** [XMLWriter(declaration=None)]. *)
Definition newWriter : XMLWriter := mkWriter [] 0 [].

Definition getText (w : XMLWriter) : result string :=
  match _stack w with
  | [] => Ok (str_join xmlLineBreak (_lines w))
  | _ => Raise AssertionError
  end.

Definition raw (line : string) (w : XMLWriter) : XMLWriter :=
  let i := str_join EmptyString (replicate (_indentLevel w) xmlIndent) in
  mkWriter (_lines w ++ [i +:+ line]) (_indentLevel w) (_stack w).

Definition attributesToString (attrs : dict value) : result string :=
  let sorter :=
    map (fun '(attr, v) => (default 100%N (dict_get attr xmlAttributeOrder), attr, v))
        attrs in
  formatted ←
    mapM (fun '(_, attr, v) =>
            let attr := xmlEscapeAttribute attr in
            v ← xmlConvertValue v;
            Ok (attr +:+ "=" +:+ quoted v))
         (merge_sort attr_le sorter);
  Ok (str_join " " formatted).

Definition simpleElement (tag : string) (attrs : dict value)
    (value : option string) (w : XMLWriter) : result XMLWriter :=
  line ←
    match attrs with
    | [] => Ok ("<" +:+ tag)
    | _ => a ← attributesToString attrs; Ok ("<" +:+ tag +:+ " " +:+ a)
    end;
  let line :=
    match value with
    | Some v => line +:+ ">" +:+ v +:+ "</" +:+ tag +:+ ">"
    | None => line +:+ "/>"
    end in
  Ok (raw line w).

Definition beginElement (tag : string) (attrs : dict value)
    (w : XMLWriter) : result XMLWriter :=
  line ←
    match attrs with
    | [] => Ok ("<" +:+ tag +:+ ">")
    | _ => a ← attributesToString attrs; Ok ("<" +:+ tag +:+ " " +:+ a +:+ ">")
    end;
  let w := raw line w in
  Ok (mkWriter (_lines w) (S (_indentLevel w)) (_stack w ++ [tag])).

Definition endElement (tag : string) (w : XMLWriter) : result XMLWriter :=
  match last (_stack w) with
  | None => Raise AssertionError
  | Some t =>
      if String.eqb t tag then
        let w := mkWriter (_lines w) (pred (_indentLevel w))
                          (removelast (_stack w)) in
        Ok (raw ("</" +:+ tag +:+ ">") w)
      else Raise AssertionError
  end.

Definition _plistString (data : string) (w : XMLWriter) : result XMLWriter :=
  simpleElement "string" [] (Some data) w.

(** ** GLIF element normalizers *)

(** [None] is Python's [None]; the [result] carries what
    [xmlConvertFloat] may raise. *)
Definition _normalizeColorString (value : string) : result (option string) :=
  if negb (Nat.eqb (str_count "," value) 3) then Ok None
  else
    match mapM float_of_string (str_split "," value) with
    | Some ([r; g; b; a] as rgba) =>
        if existsb (fun x => float_lt0 x || float_gt1 x) rgba then Ok None
        else color ← mapM xmlConvertFloat rgba; Ok (Some (str_join "," color))
    | _ => Ok None
    end.

(** The color held by a dictionary value: only a string has [count]. *)
Definition normalizeColorValue (color : value) : result (option string) :=
  match color with
  | VStr s => _normalizeColorString s
  | _ => Raise AttributeError
  end.

Definition _glifDefaultTransformation : dict Z :=
  [("xScale", 1); ("xyScale", 0); ("yxScale", 0); ("yScale", 1);
   ("xOffset", 0); ("yOffset", 0)]%Z.

Definition _normalizeGlifTransformation (element : element) : dict value :=
  fold_left
    (fun attrs '(attr, dflt) =>
       match dict_get attr (attrib element) with
       | None => attrs
       | Some s =>
           match float_of_string s with
           | None => attrs
           | Some v =>
               if negb (float_eq_Z v dflt) then dict_set attr (VFloat v) attrs
               else attrs
           end
       end)
    _glifDefaultTransformation [].

Definition _normalizeGlifAdvance (element : element) (writer : XMLWriter)
    : result XMLWriter :=
  let w := default "0" (dict_get "width" (attrib element)) in
  let h := default "0" (dict_get "height" (attrib element)) in
  match float_of_string w, float_of_string h with
  | Some w, Some h =>
      let attrs := [] in
      let attrs := if float_truthy w then dict_set "width" (VFloat w) attrs else attrs in
      let attrs := if float_truthy h then dict_set "height" (VFloat h) attrs else attrs in
      match attrs with
      | [] => Ok writer
      | _ => simpleElement "advance" attrs None writer
      end
  | _, _ => Ok writer
  end.

Definition _normalizeGlifImage (element : element) (writer : XMLWriter)
    : result XMLWriter :=
  let fileName := attrib_value "fileName" element in
  if negb (truthy fileName) then Ok writer
  else
    let attrs := [("fileName", fileName)] in
    let transformation := _normalizeGlifTransformation element in
    let attrs := dict_update attrs transformation in
    attrs ←
      match dict_get "color" (attrib element) with
      | Some color =>
          c ← _normalizeColorString color;
          Ok (dict_set "color" (match c with Some c => VStr c | None => VNone end) attrs)
      | None => Ok attrs
      end;
    simpleElement "image" attrs None writer.

Definition _normalizeGlifAnchor (element : element) (writer : XMLWriter)
    : result XMLWriter :=
  let x := attrib_value "x" element in
  let y := attrib_value "y" element in
  if negb (truthy x) || negb (truthy y) then Ok writer
  else
    match float_of_value x, float_of_value y with
    | Ok x, Ok y =>
        let attrs := [("x", VFloat x); ("y", VFloat y)] in
        let attrs :=
          match dict_get "name" (attrib element) with
          | Some name => dict_set "name" (VStr name) attrs
          | None => attrs
          end in
        attrs ←
          match dict_get "color" (attrib element) with
          | Some color =>
              c ← _normalizeColorString color;
              Ok (dict_set "color" (match c with Some c => VStr c | None => VNone end) attrs)
          | None => Ok attrs
          end;
        let attrs :=
          match dict_get "identifier" (attrib element) with
          | Some identifier => dict_set "identifier" (VStr identifier) attrs
          | None => attrs
          end in
        simpleElement "anchor" attrs None writer
    | _, _ => Ok writer
    end.

(** [if v: v = float(v)], with [None] for the caught [ValueError]. *)
Definition floatIfSet (v : value) : option value :=
  if truthy v then
    match float_of_value v with
    | Ok x => Some (VFloat x)
    | Raise _ => None
    end
  else Some v.

Definition setIfNotNone (k : string) (v : value) (d : dict value) : dict value :=
  if is_None v then d else dict_set k v d.

Definition _normalizeDictGuideline (guideline : dict value)
    : result (option (dict value)) :=
  let x := dict_get_value "x" guideline in
  let y := dict_get_value "y" guideline in
  let angle := dict_get_value "angle" guideline in
  let name := dict_get_value "name" guideline in
  let color := dict_get_value "color" guideline in
  let identifier := dict_get_value "identifier" guideline in
  if negb (truthy x) && negb (truthy y) then Ok None
  else if (negb (truthy x) || negb (truthy y)) && truthy angle then Ok None
  else if (truthy x && truthy y) && negb (truthy angle) then Ok None
  else
    match floatIfSet x, floatIfSet y, floatIfSet angle with
    | Some x, Some y, Some angle =>
        let normalized := [] in
        let normalized := setIfNotNone "x" x normalized in
        let normalized := setIfNotNone "y" y normalized in
        let normalized := setIfNotNone "angle" angle normalized in
        let normalized := setIfNotNone "name" name normalized in
        normalized ←
          (if is_None color then Ok normalized
           else
             c ← normalizeColorValue color;
             Ok (match c with
                 | Some c => dict_set "color" (VStr c) normalized
                 | None => normalized
                 end));
        let normalized := setIfNotNone "identifier" identifier normalized in
        Ok (Some normalized)
    | _, _, _ => Ok None
    end.

Definition _normalizeGlifGuideline (element : element) (writer : XMLWriter)
    : result XMLWriter :=
  let attrs := ["x"; "y"; "angle"; "color"; "name"; "identifier"] in
  let converted := map (fun attr => (attr, attrib_value attr element)) attrs in
  normalized ← _normalizeDictGuideline converted;
  match normalized with
  | Some normalized => simpleElement "guideline" normalized None writer
  | None => Ok writer
  end.

(** The [guidelines] entry of fontinfo.plist, when it is not empty. *)
Definition _normalizeFontInfoGuidelines (guidelines : list (dict value))
    : result (list (dict value)) :=
  normalized ← mapM _normalizeDictGuideline guidelines;
  Ok (omap id normalized).

Definition _normalizeLayerInfoColor (obj : dict value) : result (dict value) :=
  match dict_get "color" obj with
  | Some color =>
      let obj := filter (fun kv => negb (String.eqb (fst kv) "color")) obj in
      c ← normalizeColorValue color;
      Ok (match c with
          | Some c => dict_set "color" (VStr c) obj
          | None => obj
          end)
  | None => Ok obj
  end.

(** *** Outlines, format 1 *)

(** [None] is Python's [None], [Some []] the empty dictionary. *)
Definition _normalizeGlifPointAttributesFormat1 (element : element)
    : option (dict value) :=
  let x := attrib_value "x" element in
  let y := attrib_value "y" element in
  if negb (truthy x) || negb (truthy y) then Some []
  else
    match float_of_value x, float_of_value y with
    | Ok x, Ok y =>
        let attrs := [("x", VFloat x); ("y", VFloat y)] in
        let typ := default "offcurve" (dict_get "type" (attrib element)) in
        if negb (str_in typ ["move"; "line"; "curve"; "qcurve"; "offcurve"])
        then Some []
        else
          let attrs :=
            if negb (String.eqb typ "offcurve") then
              let attrs := dict_set "type" (VStr typ) attrs in
              match dict_get "smooth" (attrib element) with
              | Some smooth =>
                  if String.eqb smooth "yes" then dict_set "smooth" (VStr "yes") attrs
                  else attrs
              | None => attrs
              end
            else attrs in
          let attrs :=
            match dict_get "name" (attrib element) with
            | Some name => dict_set "name" (VStr name) attrs
            | None => attrs
            end in
          Some attrs
    | _, _ => None
    end.

(** What the contour and component normalizers hand to the outline
    normalizer: the dictionaries tagged ["contour"], ["anchor"] and
    ["component"] by their [type] key. *)
Inductive outlineItem : Type :=
| ItemContour (points : list (dict value))
| ItemAnchor (anchor : dict value)
| ItemComponent (component : dict value).

(** The loop over the children of a contour: [None] when a point has no
    usable attributes and the contour is given up. *)
Fixpoint contourPointsFormat1 (subElements : list element)
    : option (list (dict value)) :=
  match subElements with
  | [] => Some []
  | subElement :: rest =>
      if negb (String.eqb (tag subElement) "point") then contourPointsFormat1 rest
      else
        match _normalizeGlifPointAttributesFormat1 subElement with
        | Some (kv :: attrs) =>
            option_map (cons (kv :: attrs)) (contourPointsFormat1 rest)
        | _ => None
        end
  end.

Definition _normalizeGlifContourFormat1 (element : element) : option outlineItem :=
  match contourPointsFormat1 (children element) with
  | None | Some [] => None
  | Some [point] =>
      match dict_get "type" point with
      | Some (VStr typ) =>
          if String.eqb typ "move"
          then Some (ItemAnchor (dict_set "type" (VStr "anchor") point))
          else Some (ItemContour [point])
      | _ => Some (ItemContour [point])
      end
  | Some points => Some (ItemContour points)
  end.

Definition _normalizeGlifComponentAttributesFormat1 (element : element)
    : dict value :=
  let base := attrib_value "base" element in
  if negb (truthy base) then []
  else dict_update [("base", base)] (_normalizeGlifTransformation element).

Definition _normalizeGlifComponentFormat1 (element : element) : option outlineItem :=
  match _normalizeGlifComponentAttributesFormat1 element with
  | [] => None
  | component => Some (ItemComponent component)
  end.

(** The first loop of the outline normalizer: the entries kept, in two
    lists. *)
Definition collectOutlineFormat1 (subElements : list element)
    : list outlineItem * list outlineItem :=
  fold_left
    (fun '(outline, anchors) subElement =>
       if String.eqb (tag subElement) "contour" then
         match _normalizeGlifContourFormat1 subElement with
         | None => (outline, anchors)
         | Some (ItemAnchor a) => (outline, anchors ++ [ItemAnchor a])
         | Some contour => (outline ++ [contour], anchors)
         end
       else if String.eqb (tag subElement) "component" then
         match _normalizeGlifComponentFormat1 subElement with
         | None => (outline, anchors)
         | Some component => (outline ++ [component], anchors)
         end
       else (outline, anchors))
    subElements ([], []).

Definition foldM {A S : Type} (f : A -> S -> result S) (l : list A) (s : S)
    : result S :=
  fold_left (fun acc a => s ← acc; f a s) l (Ok s).

(** The body of the loop that writes the contours and components. *)
Definition writeOutlineItem (obj : outlineItem) (writer : XMLWriter)
    : result XMLWriter :=
  match obj with
  | ItemContour points =>
      writer ← beginElement "contour" [] writer;
      writer ← foldM (fun point w => simpleElement "point" point None w) points writer;
      endElement "contour" writer
  | ItemComponent component => simpleElement "component" component None writer
  | ItemAnchor _ => Ok writer
  end.

(** The body of the loop that writes the implied anchors. *)
Definition writeImpliedAnchor (obj : outlineItem) (writer : XMLWriter)
    : result XMLWriter :=
  match obj with
  | ItemAnchor anchor =>
      writer ← beginElement "contour" [] writer;
      let attrs :=
        [("type", VStr "move"); ("x", dict_get_value "x" anchor);
         ("y", dict_get_value "y" anchor)] in
      let attrs :=
        match dict_get "name" anchor with
        | Some name => dict_set "name" name attrs
        | None => attrs
        end in
      writer ← simpleElement "point" attrs None writer;
      endElement "contour" writer
  | _ => Ok writer
  end.

Definition _normalizeGlifOutlineFormat1 (element : element) (writer : XMLWriter)
    : result XMLWriter :=
  match children element with
  | [] => Ok writer
  | subElements =>
      let '(outline, anchors) := collectOutlineFormat1 subElements in
      match outline, anchors with
      | [], [] => Ok writer
      | _, _ =>
          writer ← beginElement "outline" [] writer;
          writer ← foldM writeOutlineItem outline writer;
          writer ← foldM writeImpliedAnchor anchors writer;
          endElement "outline" writer
      end
  end.

(** ** User name to file name *)

Definition illegalCharacters : list ascii :=
  [dquote; "*"; "+"; "/"; ":"; "<"; ">"; "?"; "["; "\"; "]"; "|"; "000"]%char
  ++ map ascii_of_nat (seq 1 31)
  ++ ["127"%char].

Definition reservedFileNames : list string :=
  ["con"; "prn"; "aux"; "clock$"; "nul"; "a:-z:"; "com1";
   "lpt1"; "lpt2"; "lpt3"; "com2"; "com3"; "com4"].

Definition maxFileNameLength : Z := 255.

Definition is_illegal (c : ascii) : bool :=
  existsb (Ascii.eqb c) illegalCharacters.

(** A [while] loop over a counter, unrolled [2^n] times.  One turn
    tries the counter; when the name is taken it moves to the next
    counter and leaves the loop once the bound is reached. *)
Inductive search : Type :=
| Found (name : string)
| GaveUp
| Running (counter : N).

Fixpoint searchCounter (try : N -> option string) (bound : N) (n : nat)
    (counter : N) : search :=
  match n with
  | O =>
      match try counter with
      | Some name => Found name
      | None =>
          let counter := (counter + 1)%N in
          if (bound <=? counter)%N then GaveUp else Running counter
      end
  | S n' =>
      match searchCounter try bound n' counter with
      | Running counter => searchCounter try bound n' counter
      | r => r
      end
  end.

(** The source raises [NameTranslationError], a name the module never
    defines: Python reports it as a [NameError]. *)
Definition handleClash2 (existing : list string) (prefix suffix : string)
    : result string :=
  let maxLength :=
    (maxFileNameLength - Z.of_nat (String.length prefix)
     - Z.of_nat (String.length suffix))%Z in
  if (maxLength <=? 0)%Z then Raise ValueError
  else
    let maxValue := Z.to_N (10 ^ maxLength - 1) in
    let try counter :=
      let fullName := prefix +:+ str_of_N counter +:+ suffix in
      if negb (str_in (str_lower fullName) existing) then Some fullName else None in
    match searchCounter try maxValue (4 * Z.to_nat maxLength) 1%N with
    | Found finalName => Ok finalName
    | GaveUp => Raise NameError
    | Running _ => Raise LoopFuel
    end.

Definition handleClash1 (userName : string) (existing : list string)
    (prefix suffix : string) : result string :=
  let prefixLength := Z.of_nat (String.length prefix) in
  let suffixLength := Z.of_nat (String.length suffix) in
  let l := (prefixLength + Z.of_nat (String.length userName) + suffixLength + 15)%Z in
  let userName :=
    if (maxFileNameLength <? l)%Z then slice_to userName (maxFileNameLength - l)
    else userName in
  let try counter :=
    let name := userName +:+ zfill 15 (str_of_N counter) in
    let fullName := prefix +:+ name +:+ suffix in
    if negb (str_in (str_lower fullName) existing) then Some fullName else None in
  match searchCounter try 999999999999999%N 50 1%N with
  | Found finalName => Ok finalName
  | GaveUp => handleClash2 existing prefix suffix
  | Running _ => Raise LoopFuel
  end.

(** The character-by-character filter of the user name. *)
Definition filterCharacter (character : ascii) : string :=
  if is_illegal character then "_"
  else if negb (Ascii.eqb character (chr_lower character))
       then String character "_"
       else String character EmptyString.

(** The test of the dot-separated parts against the reserved names. *)
Definition guardReserved (part : string) : string :=
  if str_in (str_lower part) reservedFileNames then String "_" part else part.

Definition userNameToFileName (userName : string) (existing : list string)
    (prefix suffix : string) : result string :=
  let prefixLength := Z.of_nat (String.length prefix) in
  let suffixLength := Z.of_nat (String.length suffix) in
  userName ←
    (match prefix, userName with
     | EmptyString, EmptyString => Raise IndexError
     | EmptyString, String "." rest => Ok (String "_" rest)
     | _, _ => Ok userName
     end);
  let userName := str_flat_map filterCharacter userName in
  let sliceLength := (maxFileNameLength - prefixLength - suffixLength)%Z in
  let userName := slice_to userName sliceLength in
  let parts := map guardReserved (str_split "." userName) in
  let userName := str_join "." parts in
  let fullName := prefix +:+ userName +:+ suffix in
  if str_in (str_lower fullName) existing
  then handleClash1 userName existing prefix suffix
  else Ok fullName.

(** ** Modification times *)

Definition __version__ : string := "0a1".

(** The order of [sorted] on the items of a dictionary: by key, the keys
    being distinct. *)
Definition item_le {V : Type} (a b : string * V) : Prop := String.le (fst a) (fst b).

#[global] Instance item_le_dec {V : Type} : RelDecision (@item_le V).
Proof. intros a b. unfold item_le. apply _. Defined.

(** The line written for one file: the time at one fractional digit, a
    space and the file name. *)
Definition modTimeLine (item : string * pyfloat) : string :=
  format_fixed 1 (snd item) +:+ " " +:+ fst item.

(** The text stored in the lib under [modTimeLibKey]. *)
Definition storeModTimes (modTimes : gmap string pyfloat) : string :=
  let lines :=
    ("version: " +:+ __version__)
    :: map modTimeLine (merge_sort item_le (map_to_list modTimes)) in
  str_join xmlLineBreak lines.

(** [line.split(" ", 1)] unpacked into two names. *)
Definition splitModTimeLine (line : string) : result (string * string) :=
  match str_partition (Ascii.eqb " ") line with
  | (modTime, Some fileName) => Ok (modTime, fileName)
  | (_, None) => Raise ValueError
  end.

(** The body of the loop over the lines after the version line. *)
Definition readModTimeLine (line : string) (modTimes : gmap string pyfloat)
    : result (gmap string pyfloat) :=
  '(modTime, fileName) ← splitModTimeLine line;
  match float_of_string modTime with
  | Some modTime => Ok (<[fileName := modTime]> modTimes)
  | None => Raise ValueError
  end.

(** [text] is [lib.get(modTimeLibKey)]. *)
Definition readModTimes (text : option string) : result (gmap string pyfloat) :=
  match text with
  | None | Some EmptyString => Ok ∅
  | Some text =>
      match str_splitlines text with
      | [] => Raise IndexError
      | first :: lines =>
          let version := str_strip (default EmptyString (last (str_split ":" first))) in
          if negb (String.eqb version __version__) then Ok ∅
          else
            foldM readModTimeLine lines ∅
      end
  end.

(** ** Renaming the glyph files *)

(** A directory: the file names and what the files hold. *)
Abbreviation directory := (gmap string string).

(** [os.rename]: the source must exist, an existing target is replaced. *)
Definition subpathRenameFile (fromName toName : string) (dir : directory)
    : result directory :=
  match dir !! fromName with
  | None => Raise OSError
  | Some data => Ok (<[toName := data]> (delete fromName dir))
  end.

Definition tempFileName (index : nat) : string :=
  "org.unifiedfontobject.normalizer." +:+ str_of_N (N.of_nat index).

(** An entry of the renaming: glyph name, old file name, new file name. *)
Abbreviation entry := (string * string * string)%type.

Definition entryOld (e : entry) : string := snd (fst e).
Definition entryNew (e : entry) : string := snd e.

(** The body of the first renaming loop of [normalizeGlyphNames], for
    an enumerated entry: the state is the directory and
    [fromTempMapping]. *)
Definition renameToTempStep (indexed : nat * entry)
    (state : directory * list (string * string))
    : result (directory * list (string * string)) :=
  let '(index, e) := indexed in
  let '(dir, fromTempMapping) := state in
  if String.eqb (entryNew e) (entryOld e) then Ok (dir, fromTempMapping)
  else
    let tempFileName := tempFileName index in
    dir ← subpathRenameFile (entryOld e) tempFileName dir;
    Ok (dir, fromTempMapping ++ [(tempFileName, entryNew e)]).

(** The first renaming loop. *)
Definition renameToTemp (entries : list (nat * entry)) (dir : directory)
    : result (directory * list (string * string)) :=
  foldM renameToTempStep entries (dir, []).

(** The second renaming loop. *)
Definition renameFromTemp (fromTempMapping : list (string * string))
    (dir : directory) : result directory :=
  foldM (fun item dir => subpathRenameFile (fst item) (snd item) dir)
        fromTempMapping dir.

(** Both loops, on the entries in the order of the sorted glyph names. *)
Definition renameGlyphFiles (entries : list entry)
    (dir : directory) : result directory :=
  '(dir, fromTempMapping) ← renameToTemp (imap (fun i e => (i, e)) entries) dir;
  renameFromTemp fromTempMapping dir.

(** The new file names, computed for the glyph names in sorted order. *)
Definition newGlyphFileNames (glyphNames : list string)
    : result (list (string * string)) :=
  r ← foldM (fun glyphName '(newGlyphMapping, newFileNames) =>
               newFileName ← userNameToFileName glyphName newFileNames EmptyString ".glif";
               Ok (newGlyphMapping ++ [(glyphName, newFileName)],
                   newFileNames ++ [newFileName]))
            glyphNames ([], []);
  Ok (fst r).


(** *** Outlines, format 2 *)

(** [None] is Python's [None]; the [TypeError] is the item assignment
    on the [None] that the format-1 function returns for a coordinate
    that [float] cannot read. *)
Definition _normalizeGlifPointAttributesFormat2 (element : element)
    : result (option (dict value)) :=
  let attrs := _normalizeGlifPointAttributesFormat1 element in
  match dict_get "identifier" (attrib element) with
  | Some identifier =>
      match attrs with
      | Some attrs => Ok (Some (dict_set "identifier" (VStr identifier) attrs))
      | None => Raise TypeError
      end
  | None => Ok attrs
  end.

(** The dictionaries tagged ["contour"] and ["component"] that the
    format-2 normalizers hand to the outline normalizer. *)
Inductive outlineItem2 : Type :=
| Item2Contour (identifier : option string) (points : list (dict value))
| Item2Component (component : dict value).

(** The loop over the children of a contour: [None] when a point has no
    attributes and the contour is given up; the points after it are not
    looked at. *)
Fixpoint contourPointsFormat2 (subElements : list element)
    : result (option (list (dict value))) :=
  match subElements with
  | [] => Ok (Some [])
  | subElement :: rest =>
      if negb (String.eqb (tag subElement) "point") then contourPointsFormat2 rest
      else
        attrs ← _normalizeGlifPointAttributesFormat2 subElement;
        match attrs with
        | Some (kv :: attrs) =>
            points ← contourPointsFormat2 rest;
            Ok (option_map (cons (kv :: attrs)) points)
        | _ => Ok None
        end
  end.

Definition _normalizeGlifContourFormat2 (element : element)
    : result (option outlineItem2) :=
  points ← contourPointsFormat2 (children element);
  match points with
  | None | Some [] => Ok None
  | Some points =>
      Ok (Some (Item2Contour (dict_get "identifier" (attrib element)) points))
  end.

Definition _normalizeGlifComponentAttributesFormat2 (element : element)
    : dict value :=
  let attrs := _normalizeGlifComponentAttributesFormat1 element in
  match dict_get "identifier" (attrib element) with
  | Some identifier => dict_set "identifier" (VStr identifier) attrs
  | None => attrs
  end.

Definition _normalizeGlifComponentFormat2 (element : element) : option outlineItem2 :=
  match _normalizeGlifComponentAttributesFormat2 element with
  | [] => None
  | component => Some (Item2Component component)
  end.

(** The body of the first loop of the format-2 outline normalizer. *)
Definition collectOutlineItem2 (subElement : element) (outline : list outlineItem2)
    : result (list outlineItem2) :=
  if String.eqb (tag subElement) "contour" then
    contour ← _normalizeGlifContourFormat2 subElement;
    Ok (match contour with
        | Some contour => outline ++ [contour]
        | None => outline
        end)
  else if String.eqb (tag subElement) "component" then
    Ok (match _normalizeGlifComponentFormat2 subElement with
        | Some component => outline ++ [component]
        | None => outline
        end)
  else Ok outline.

Definition collectOutlineFormat2 (subElements : list element)
    : result (list outlineItem2) :=
  foldM collectOutlineItem2 subElements [].

(** The body of the loop that writes the entries. *)
Definition writeOutlineItem2 (obj : outlineItem2) (writer : XMLWriter)
    : result XMLWriter :=
  match obj with
  | Item2Contour identifier points =>
      let attrs :=
        match identifier with
        | Some identifier => [("identifier", VStr identifier)]
        | None => []
        end in
      writer ← beginElement "contour" attrs writer;
      writer ← foldM (fun point w => simpleElement "point" point None w) points writer;
      endElement "contour" writer
  | Item2Component component => simpleElement "component" component None writer
  end.

Definition _normalizeGlifOutlineFormat2 (element : element) (writer : XMLWriter)
    : result XMLWriter :=
  outline ← collectOutlineFormat2 (children element);
  match outline with
  | [] => Ok writer
  | _ =>
      writer ← beginElement "outline" [] writer;
      writer ← foldM writeOutlineItem2 outline writer;
      endElement "outline" writer
  end.

(** ** Files that need a refresh *)

(** [x == y] on floats: a NaN equals nothing. *)
Definition float_eqb (x y : pyfloat) : bool :=
  match x, y with
  | FFin p, FFin q => Qeq_bool p q
  | FInf a, FInf b => Bool.eqb a b
  | _, _ => false
  end.

(** [os.path.getmtime] on the files of the UFO: a path is the list of
    its parts, a file that does not exist has no time. *)
Definition subpathGetModTime (times : gmap (list string) pyfloat)
    (subpath : list string) : result pyfloat :=
  match times !! subpath with
  | Some t => Ok t
  | None => Raise OSError
  end.

Definition subpathNeedsRefresh (modTimes : gmap string pyfloat)
    (times : gmap (list string) pyfloat) (subPath : list string) : result bool :=
  match last subPath with
  | None => Raise IndexError
  | Some name =>
      match modTimes !! name with
      | None => Ok true
      | Some previous =>
          latest ← subpathGetModTime times subPath;
          Ok (negb (float_eqb latest previous))
      end
  end.

(** ** Property lists *)

(** The objects of a property list that the model covers: [None],
    lists, dictionaries with string keys, strings, booleans, integers
    and floats.  Dates, data and the objects of other types (which the
    writer refuses) are not in the model. *)
#[warnings="-register-all"]
Inductive plist : Type :=
| PNone
| PArray (items : list plist)
| PDict (items : list (string * plist))
| PString (s : string)
| PBool (b : bool)
| PInt (z : Z)
| PFloat (x : pyfloat).

(** [propertyListObject] with the methods [_plistArray], [_plistDict],
    [_plistBoolean], [_plistInt] and [_plistFloat] it dispatches to.
    The writing of a value is a function of the writer; for a
    dictionary these functions are made for the items as they stand and
    run in the order of [sorted(data.items())]. *)
Fixpoint propertyListObject (data : plist) (w : XMLWriter) {struct data}
    : result XMLWriter :=
  match data with
  | PNone => Ok w
  | PArray items =>
      w ← beginElement "array" [] w;
      w ← foldM (fun write w => write w) (map propertyListObject items) w;
      endElement "array" w
  | PDict items =>
      w ← beginElement "dict" [] w;
      w ← foldM (fun '(key, write) w =>
                   w ← simpleElement "key" [] (Some key) w;
                   write w)
                (merge_sort item_le
                   (map (fun '(key, value) => (key, propertyListObject value)) items)) w;
      endElement "dict" w
  | PString s => _plistString s w
  | PBool b => simpleElement (if b then "true" else "false") [] None w
  | PInt z => simpleElement "integer" [] (Some (xmlConvertInt z)) w
  | PFloat x => s ← xmlConvertFloat x; simpleElement "real" [] (Some s) w
  end.

Definition xmlDeclaration : string :=
  "<?xml version=" +:+ quoted "1.0" +:+ " encoding=" +:+ quoted "UTF-8" +:+ "?>".

Definition plistDocType : string :=
  "<!DOCTYPE plist PUBLIC " +:+ quoted "-//Apple//DTD PLIST 1.0//EN" +:+ " "
  +:+ quoted "http://www.apple.com/DTDs/PropertyList-1.0.dtd" +:+ ">".

(** [XMLWriter(isPropertyList=True)]. *)
Definition newPlistWriter : XMLWriter := mkWriter [xmlDeclaration; plistDocType] 0 [].

(** [normalizePropertyList(data)], without a preprocessor. *)
Definition normalizePropertyList (data : plist) : result string :=
  writer ← beginElement "plist" [("version", VStr "1.0")] newPlistWriter;
  writer ← propertyListObject data writer;
  writer ← endElement "plist" writer;
  getText writer.

(** ** The unicode element *)

(** The value of a hexadecimal digit, in either case. *)
Definition hex_digit_value (c : ascii) : option N :=
  let n := N_of_ascii c in
  if ((48 <=? n) && (n <=? 57))%N then Some (n - 48)%N
  else if ((65 <=? n) && (n <=? 70))%N then Some (n - 55)%N
  else if ((97 <=? n) && (n <=? 102))%N then Some (n - 87)%N
  else None.

(** The digits of an integer literal in base 16: single underscores
    may stand between digits, not at the end and not twice in a row. *)
Fixpoint hex_fold (s : string) (acc : N) (afterUnderscore : bool) : option N :=
  match s with
  | EmptyString => if afterUnderscore then None else Some acc
  | String c s' =>
      if Ascii.eqb c "_" then
        if afterUnderscore then None else hex_fold s' acc true
      else
        match hex_digit_value c with
        | Some d => hex_fold s' (acc * 16 + d)%N false
        | None => None
        end
  end.

(** [int(s, 16)] on a string (Python 3): white space around the
    literal, a sign, the prefix [0x] or [0X] with one underscore after
    it, then the digits; [None] stands for [ValueError]. *)
Definition int_of_string_16 (s : string) : option Z :=
  let '(neg, u) := split_sign (str_strip s) in
  let u :=
    match u with
    | String "0" (String x r) =>
        if Ascii.eqb x "x" || Ascii.eqb x "X" then
          match r with
          | String "_" r' => r'
          | _ => r
          end
        else u
    | _ => u
    end in
  match u with
  | EmptyString => None
  | String c _ =>
      if Ascii.eqb c "_" then None
      else
        match hex_fold u 0%N false with
        | Some n => Some (if neg then - Z.of_N n else Z.of_N n)%Z
        | None => None
        end
  end.

(** The digits of ["%X"]. *)
Fixpoint string_of_hex_uint (d : Hexadecimal.uint) : string :=
  match d with
  | Hexadecimal.Nil => EmptyString
  | Hexadecimal.D0 d => String "0" (string_of_hex_uint d)
  | Hexadecimal.D1 d => String "1" (string_of_hex_uint d)
  | Hexadecimal.D2 d => String "2" (string_of_hex_uint d)
  | Hexadecimal.D3 d => String "3" (string_of_hex_uint d)
  | Hexadecimal.D4 d => String "4" (string_of_hex_uint d)
  | Hexadecimal.D5 d => String "5" (string_of_hex_uint d)
  | Hexadecimal.D6 d => String "6" (string_of_hex_uint d)
  | Hexadecimal.D7 d => String "7" (string_of_hex_uint d)
  | Hexadecimal.D8 d => String "8" (string_of_hex_uint d)
  | Hexadecimal.D9 d => String "9" (string_of_hex_uint d)
  | Hexadecimal.Da d => String "A" (string_of_hex_uint d)
  | Hexadecimal.Db d => String "B" (string_of_hex_uint d)
  | Hexadecimal.Dc d => String "C" (string_of_hex_uint d)
  | Hexadecimal.Dd d => String "D" (string_of_hex_uint d)
  | Hexadecimal.De d => String "E" (string_of_hex_uint d)
  | Hexadecimal.Df d => String "F" (string_of_hex_uint d)
  end.

Definition hex_of_N (n : N) : string := string_of_hex_uint (N.to_hex_uint n).

(** ["%04X" % d]: the sign counts for the width. *)
Definition format_04X (d : Z) : string :=
  if (d <? 0)%Z then String "-" (zfill 3 (hex_of_N (Z.abs_N d)))
  else zfill 4 (hex_of_N (Z.to_N d)).

Definition _normalizeGlifUnicode (element : element) (writer : XMLWriter)
    : result XMLWriter :=
  match dict_get "hex" (attrib element) with
  | None | Some EmptyString => Ok writer
  | Some v =>
      match int_of_string_16 v with
      | Some d => simpleElement "unicode" [("hex", VStr (format_04X d))] None writer
      | None => Ok writer
      end
  end.

(** * Specification-side definitions

    Definitions that follow the words of the specification, to be
    compared with the definitions taken from the source. *)

(** The numeric format: the value at exactly 10 fractional digits, the
    trailing zeros stripped, and a plain signed integer when nothing is
    left after the point. *)
Definition specNumberFormat (q : Q) : string :=
  let r := round_scaled 10 q in
  let whole := (r / 10 ^ 10)%N in
  let fraction := fixed_digits 10 (r mod 10 ^ 10)%N in
  let kept := str_rstrip (Ascii.eqb "0") fraction in
  let negative := (Qnum q <? 0)%Z in
  match kept with
  | EmptyString => str_of_Z (if negative then - Z.of_N whole else Z.of_N whole)
  | _ => (if negative then "-" else EmptyString) +:+ str_of_N whole +:+ "." +:+ kept
  end.

(** The text of a float in the canonical output. *)
Definition numberText (x : pyfloat) : string :=
  match x with
  | FFin q => specNumberFormat q
  | FInf neg => if neg then "-inf" else "inf"
  | FNaN => "nan"
  end.

(** The float written by a literal of the source. *)
Definition literal (s : string) : pyfloat :=
  default FNaN (float_of_string s).

(** An implied anchor among the entries of a format-1 outline. *)
Definition isAnchor (obj : outlineItem) : bool :=
  match obj with ItemAnchor _ => true | _ => false end.

Definition isTrueEntry (obj : outlineItem) : bool := negb (isAnchor obj).

(** What one child of the outline element contributes, if anything. *)
Definition outlineChildFormat1 (subElement : element) : option outlineItem :=
  if String.eqb (tag subElement) "contour" then _normalizeGlifContourFormat1 subElement
  else if String.eqb (tag subElement) "component"
       then _normalizeGlifComponentFormat1 subElement
       else None.


(** A number equal to zero: the integer 0 or the float 0.0. *)
Definition isZeroNumber (v : value) : bool :=
  match v with
  | VInt z => (z =? 0)%Z
  | VFloat (FFin q) => (Qnum q =? 0)%Z
  | _ => false
  end.

(** The dictionary that [_normalizeGlifGuideline] builds from the
    attributes of a guideline element. *)
Definition guidelineAttributes (element : element) : dict value :=
  map (fun attr => (attr, attrib_value attr element))
      ["x"; "y"; "angle"; "color"; "name"; "identifier"].

(** The escape of one character in element text. *)
Definition escapeTextCharacter (c : ascii) : string :=
  if Ascii.eqb c "&" then "&amp;"
  else if Ascii.eqb c "<" then "&lt;"
  else if Ascii.eqb c ">" then "&gt;"
  else String c EmptyString.

(** A color as the specification words it: four comma-separated fields,
    each a float that is neither below 0 nor above 1, written again in
    the numeric format. *)
Definition specColor (value : string) : option string :=
  match mapM float_of_string (str_split "," value) with
  | Some ([r; g; b; a] as rgba) =>
      if forallb (fun x => negb (float_lt0 x) && negb (float_gt1 x)) rgba
      then Some (str_join "," (map numberText rgba))
      else None
  | _ => None
  end.

(** A time rounded to one fractional decimal digit, ties to even. *)
Definition roundTime (t : pyfloat) : pyfloat :=
  match t with
  | FFin q => FFin (decimal_value (Qnum q <? 0)%Z (round_scaled 1 q) (-1))
  | _ => t
  end.

(** A file name that holds no line boundary. *)
Definition singleLine (fileName : string) : Prop :=
  str_all (fun c => negb (is_linebreak c)) fileName = true.

(** The characters of a formatted time. *)
Definition time_char (c : ascii) : bool :=
  is_digit c || existsb (Ascii.eqb c) ["-"; "."; "n"; "a"; "i"; "f"]%char.

(** An entry whose file is renamed: its new name differs from the old. *)
Definition isMoved (e : entry) : bool :=
  negb (String.eqb (entryNew e) (entryOld e)).

(** [fromTempMapping] after the first loop over enumerated entries. *)
Definition movedTemps (entries : list (nat * entry)) : list (string * string) :=
  omap (fun ie => if isMoved (snd ie)
                  then Some (tempFileName (fst ie), entryNew (snd ie)) else None)
       entries.

(** A character outside the illegal set. *)
Definition legal (c : ascii) : bool := negb (is_illegal c).

(** A dot-separated part that is no reserved name, whatever its case. *)
Definition notReserved (part : string) : bool :=
  negb (str_in (str_lower part) reservedFileNames).

(** The user name after the first three steps of the conversion: the
    leading period replaced, the characters filtered, the result clipped
    to the room that prefix and suffix leave. *)
Definition clippedUserName (userName prefix suffix : string) : string :=
  let userName :=
    match prefix, userName with
    | EmptyString, String "." rest => String "_" rest
    | _, _ => userName
    end in
  slice_to (str_flat_map filterCharacter userName)
    (maxFileNameLength - Z.of_nat (String.length prefix)
     - Z.of_nat (String.length suffix)).

(** The parts of a split with a text put before the first of them. *)
Definition headApp (a : string) (parts : list string) : list string :=
  match parts with
  | h :: t => (a +:+ h) :: t
  | [] => []
  end.

(** The clipped user name with its reserved parts guarded by an
    underscore: the body of the name on the path without a clash. *)
Definition guardedName (clipped : string) : string :=
  str_join "." (map guardReserved (str_split "." clipped)).

(** A character that is no angle bracket, and one that is neither an
    angle bracket nor a double quote. *)
Definition noAngle (c : ascii) : bool :=
  negb (Ascii.eqb c "<") && negb (Ascii.eqb c ">").

Definition noAngleNoQuote (c : ascii) : bool :=
  noAngle c && negb (Ascii.eqb c dquote).

(** The indentation that [raw] puts before a line. *)
Definition indentation (w : XMLWriter) : string :=
  str_join EmptyString (replicate (_indentLevel w) xmlIndent).

(** A dictionary of attributes that holds no [None]. *)
Definition noNone (d : dict value) : Prop :=
  Forall (fun kv => is_None (snd kv) = false) d.

(** The writer [w'] is the writer [w] after some complete lines: the
    same stack, the same indentation level, lines added at the end. *)
Definition balanced (w w' : XMLWriter) : Prop :=
  _stack w' = _stack w
  /\ _indentLevel w' = _indentLevel w
  /\ exists new, _lines w' = _lines w ++ new.

(** A point dictionary with its two coordinates. *)
Definition hasCoordinates (d : dict value) : Prop :=
  exists x y, dict_get "x" d = Some (VFloat x) /\ dict_get "y" d = Some (VFloat y).

(** What the outline normalizer relies on when it writes an entry. *)
Definition itemOk (obj : outlineItem) : Prop :=
  match obj with
  | ItemContour points => Forall noNone points
  | ItemAnchor anchor => noNone anchor /\ hasCoordinates anchor
  | ItemComponent component => noNone component
  end.

(** What the format-2 outline normalizer relies on when it writes an
    entry. *)
Definition item2Ok (obj : outlineItem2) : Prop :=
  match obj with
  | Item2Contour _ points => Forall noNone points
  | Item2Component component => noNone component
  end.

(** The body of the loop of [normalizeGlyphNames] that computes the new
    file names. *)
Definition newGlyphFileNameStep (glyphName : string)
    (state : list (string * string) * list string)
    : result (list (string * string) * list string) :=
  let '(newGlyphMapping, newFileNames) := state in
  newFileName ← userNameToFileName glyphName newFileNames EmptyString ".glif";
  Ok (newGlyphMapping ++ [(glyphName, newFileName)], newFileNames ++ [newFileName]).

(** A file name without capitals. *)
Definition lowerCase (fileName : string) : Prop := str_lower fileName = fileName.

(** A digit of ["%X"]. *)
Definition is_upper_hex (c : ascii) : bool :=
  let n := N_of_ascii c in
  (((48 <=? n) && (n <=? 57)) || ((65 <=? n) && (n <=? 70)))%N.

(** The user name as [handleClash1] clips it to leave room for the 15
    digits of the counter. *)
Definition clashUserName (userName prefix suffix : string) : string :=
  let l := (Z.of_nat (String.length prefix) + Z.of_nat (String.length userName)
            + Z.of_nat (String.length suffix) + 15)%Z in
  if (maxFileNameLength <? l)%Z then slice_to userName (maxFileNameLength - l)
  else userName.

(** The names that the two counter loops try. *)
Definition clashName1 (userName prefix suffix : string) (counter : N) : string :=
  prefix +:+ (clashUserName userName prefix suffix +:+ zfill 15 (str_of_N counter))
  +:+ suffix.

Definition clashName2 (prefix suffix : string) (counter : N) : string :=
  prefix +:+ str_of_N counter +:+ suffix.

(** A name that is among the existing ones, in lower case. *)
Definition taken (existing : list string) (name : string) : Prop :=
  str_in (str_lower name) existing = true.

(** * Properties *)

(** ** Strings *)

Ltac ascii_cases c :=
  destruct c as [[] [] [] [] [] [] [] []]; try reflexivity; try discriminate.

Lemma str_app_cons c a b : String c a +:+ b = String c (a +:+ b).
Proof. reflexivity. Qed.

Lemma str_app_nil_l a : EmptyString +:+ a = a.
Proof. reflexivity. Qed.

Lemma str_app_nil_r a : a +:+ EmptyString = a.
Proof. induction a as [|c a IH]; [reflexivity|]. rewrite str_app_cons, IH. reflexivity. Qed.

Lemma str_app_assoc a b c : (a +:+ b) +:+ c = a +:+ (b +:+ c).
Proof.
  induction a as [|x a IH]; [reflexivity|].
  rewrite !str_app_cons, IH. reflexivity.
Qed.

Lemma str_length_app a b :
  String.length (a +:+ b) = String.length a + String.length b.
Proof.
  induction a as [|x a IH]; [reflexivity|].
  rewrite str_app_cons. simpl. rewrite IH. reflexivity.
Qed.

Lemma str_all_app P a b : str_all P (a +:+ b) = str_all P a && str_all P b.
Proof.
  induction a as [|x a IH]; [reflexivity|].
  rewrite str_app_cons. simpl. rewrite IH, andb_assoc. reflexivity.
Qed.

Lemma str_all_impl (P Q : ascii -> bool) s :
  (forall c, P c = true -> Q c = true) ->
  str_all P s = true -> str_all Q s = true.
Proof.
  intros HPQ. induction s as [|c s IH]; [reflexivity|]. simpl.
  rewrite !andb_true_iff. intros [Hc Hs]. split; auto.
Qed.

Lemma str_rstrip_empty_iff P s :
  str_rstrip P s = EmptyString <-> str_all P s = true.
Proof.
  induction s as [|c s IH]; simpl; [tauto|].
  destruct (str_rstrip P s) eqn:E.
  - destruct (P c); simpl.
    + split; [intros _; apply IH; reflexivity | reflexivity].
    + split; discriminate.
  - split; [discriminate|]. rewrite andb_true_iff. intros [_ H].
    apply IH in H. discriminate.
Qed.

Lemma str_rstrip_app_keep P a b :
  str_rstrip P b <> EmptyString ->
  str_rstrip P (a +:+ b) = a +:+ str_rstrip P b.
Proof.
  intros Hb. induction a as [|c a IH]; [reflexivity|].
  rewrite !str_app_cons. simpl. rewrite IH.
  destruct (a +:+ str_rstrip P b) eqn:E; [|reflexivity].
  destruct a; [|discriminate]. rewrite str_app_nil_l in E. contradiction.
Qed.

Lemma str_rstrip_app_drop P a b :
  str_all P b = true -> str_rstrip P (a +:+ b) = str_rstrip P a.
Proof.
  intros Hb. induction a as [|c a IH].
  - rewrite str_app_nil_l. simpl. apply str_rstrip_empty_iff, Hb.
  - rewrite str_app_cons. simpl. rewrite IH. reflexivity.
Qed.

Lemma str_rstrip_id P s c :
  str_last s = Some c -> P c = false -> str_rstrip P s = s.
Proof.
  induction s as [|x s IH]; [discriminate|]. simpl.
  destruct s as [|y s].
  - intros [= ->] ->. reflexivity.
  - intros Hl Hc. rewrite (IH Hl Hc). reflexivity.
Qed.

Lemma str_last_cons c s : exists x, str_last (String c s) = Some x.
Proof.
  revert c. induction s as [|y s IH]; intros c; [exists c; reflexivity|].
  destruct (IH y) as [x Hx]. exists x. exact Hx.
Qed.

Lemma str_last_app a b : b <> EmptyString -> str_last (a +:+ b) = str_last b.
Proof.
  intros Hb. induction a as [|c a IH]; [reflexivity|].
  rewrite str_app_cons. simpl.
  destruct (a +:+ b) eqn:E; [|exact IH].
  destruct a; [|discriminate]. rewrite str_app_nil_l in E. contradiction.
Qed.

Lemma str_last_all Q s c :
  str_all Q s = true -> str_last s = Some c -> Q c = true.
Proof.
  induction s as [|x s IH]; [discriminate|]. simpl.
  rewrite andb_true_iff. intros [Hx Hs].
  destruct s; [intros [= <-]; exact Hx | auto].
Qed.

Lemma str_rstrip_last P s c :
  str_last (str_rstrip P s) = Some c -> P c = false.
Proof.
  induction s as [|x s IH]; [discriminate|]. simpl.
  destruct (str_rstrip P s) eqn:E.
  - destruct (P x) eqn:Ex; [discriminate|]. simpl. intros [= <-]. exact Ex.
  - simpl. exact IH.
Qed.

Lemma str_rstrip_all Q P s :
  str_all Q s = true -> str_all Q (str_rstrip P s) = true.
Proof.
  induction s as [|x s IH]; [reflexivity|]. simpl.
  rewrite andb_true_iff. intros [Hx Hs]. specialize (IH Hs).
  destruct (str_rstrip P s).
  - destruct (P x); simpl; [reflexivity | rewrite Hx; reflexivity].
  - simpl in *. rewrite Hx. exact IH.
Qed.

Lemma str_partition_none P s :
  str_all (fun c => negb (P c)) s = true -> str_partition P s = (s, None).
Proof.
  induction s as [|c s IH]; [reflexivity|]. simpl.
  rewrite andb_true_iff, negb_true_iff. intros [-> Hs]. rewrite (IH Hs). reflexivity.
Qed.

Lemma str_partition_at P a c b :
  str_all (fun c => negb (P c)) a = true -> P c = true ->
  str_partition P (a +:+ String c b) = (a, Some b).
Proof.
  intros Ha Hc. induction a as [|x a IH].
  - rewrite str_app_nil_l. simpl. rewrite Hc. reflexivity.
  - simpl in Ha. rewrite andb_true_iff, negb_true_iff in Ha. destruct Ha as [Hx Ha].
    rewrite str_app_cons. simpl. rewrite Hx, (IH Ha). reflexivity.
Qed.

(** ** Decimal numerals *)

Lemma digits_fold_app a b acc :
  digits_fold (a +:+ b) acc = digits_fold b (digits_fold a acc).
Proof.
  revert acc. induction a as [|c a IH]; intros acc; [reflexivity|].
  rewrite str_app_cons. simpl. apply IH.
Qed.

Lemma digits_fold_shift s acc :
  digits_fold s acc
  = (acc * 10 ^ N.of_nat (String.length s) + digits_fold s 0)%N.
Proof.
  revert acc. induction s as [|c s IH]; intros acc.
  - simpl. lia.
  - cbn [digits_fold String.length]. rewrite IH, (IH (0 * 10 + _)%N).
    rewrite Nat2N.inj_succ, N.pow_succ_r'. lia.
Qed.

Lemma digits_fold_uint_acc d acc :
  digits_fold (NilEmpty.string_of_uint d) (Npos acc) = Npos (Pos.of_uint_acc d acc).
Proof.
  revert acc. induction d; intros acc; cbn [NilEmpty.string_of_uint digits_fold Pos.of_uint_acc];
    try reflexivity; rewrite <- IHd; f_equal;
    match goal with
    | |- context [digit_of_char ?c] =>
        let v := eval vm_compute in (digit_of_char c) in
        change (digit_of_char c) with v
    end; lia.
Qed.

Lemma digits_fold_uint d :
  digits_fold (NilEmpty.string_of_uint d) 0 = N.of_uint d.
Proof.
  induction d; cbn [NilEmpty.string_of_uint digits_fold]; try reflexivity;
    try exact IHd; apply (digits_fold_uint_acc d).
Qed.

Lemma digits_fold_str_of_N n : digits_fold (str_of_N n) 0 = n.
Proof. unfold str_of_N. rewrite digits_fold_uint. apply DecimalN.Unsigned.of_to. Qed.

Lemma string_of_uint_digits d : str_all is_digit (NilEmpty.string_of_uint d) = true.
Proof. induction d; simpl; auto. Qed.

Lemma str_of_N_digits n : str_all is_digit (str_of_N n) = true.
Proof. apply string_of_uint_digits. Qed.

Lemma str_of_N_nonempty n : str_of_N n <> EmptyString.
Proof.
  intros E. pose proof (digits_fold_str_of_N n) as H. rewrite E in H. simpl in H.
  subst n. discriminate E.
Qed.

Lemma str_of_N_cons n : exists c s, str_of_N n = String c s /\ is_digit c = true.
Proof.
  pose proof (str_of_N_digits n) as H. pose proof (str_of_N_nonempty n) as Hn.
  destruct (str_of_N n) as [|c s]; [contradiction|].
  simpl in H. apply andb_true_iff in H. exists c, s. tauto.
Qed.

Lemma fixed_digits_digits n x : str_all is_digit (fixed_digits n x) = true.
Proof.
  revert x. induction n as [|n IH]; intros x; [reflexivity|].
  cbn [fixed_digits]. rewrite str_all_app, IH. simpl. rewrite andb_true_r.
  assert (x mod 10 < 10)%N as H by (apply N.mod_lt; discriminate).
  set (d := (x mod 10)%N) in *. clearbody d.
  unfold is_digit, char_of_digit. rewrite N_ascii_embedding by lia.
  apply andb_true_iff. split; apply N.leb_le; lia.
Qed.

Lemma fixed_digits_length n x : String.length (fixed_digits n x) = n.
Proof.
  revert x. induction n as [|n IH]; intros x; [reflexivity|].
  cbn [fixed_digits]. rewrite str_length_app, IH. simpl. lia.
Qed.

(** ** Characters *)

Lemma digit_not_space c : is_digit c = true -> is_space c = false.
Proof. ascii_cases c. Qed.

Lemma digit_not_dot c : is_digit c = true -> Ascii.eqb "." c = false.
Proof. ascii_cases c. Qed.

Lemma digit_not_e c : is_digit c = true -> Ascii.eqb (chr_lower c) "e" = false.
Proof. ascii_cases c. Qed.

Lemma digit_split_sign c r : is_digit c = true -> split_sign (String c r) = (false, String c r).
Proof. ascii_cases c. Qed.

Lemma digit_not_keyword c r :
  is_digit c = true ->
  let lu := str_lower (String c r) in
  String.eqb lu "inf" || String.eqb lu "infinity" = false /\ String.eqb lu "nan" = false.
Proof.
  destruct c as [[] [] [] [] [] [] [] []]; try discriminate; intros _; split; reflexivity.
Qed.

(** ** Reading back what [format_fixed] writes *)

Definition sign_text (neg : bool) : string :=
  if neg then "-" else EmptyString.

Lemma float_of_string_decimal neg ip fd :
  str_all is_digit fd = true ->
  float_of_string (sign_text neg +:+ str_of_N ip +:+ "." +:+ fd)
  = Some (FFin (decimal_value neg (digits_fold fd ip) (- Z.of_nat (String.length fd)))).
Proof.
  intros Hfd.
  destruct (str_of_N_cons ip) as (c0 & rest & Hip & Hc0).
  pose proof (str_of_N_digits ip) as Hdig.
  pose proof (digits_fold_str_of_N ip) as Hval.
  set (u := str_of_N ip +:+ "." +:+ fd).
  assert (Hu : u = String c0 (rest +:+ "." +:+ fd)) by (unfold u; rewrite Hip; reflexivity).
  assert (Hlast : exists c, str_last u = Some c /\ is_space c = false).
  { unfold u. rewrite <- str_app_assoc.
    destruct fd as [|d fd'].
    - rewrite str_app_nil_r. rewrite str_last_app by discriminate. eexists; split; reflexivity.
    - rewrite str_last_app by discriminate.
      destruct (str_last (String d fd')) as [c|] eqn:E.
      + exists c. split; [reflexivity|]. apply digit_not_space.
        exact (str_last_all is_digit _ c Hfd E).
      + destruct (str_last_cons d fd') as [x Hx]. congruence. }
  destruct Hlast as (cl & Hcl & Hsp).
  assert (Hstrip : str_strip (sign_text neg +:+ u) = sign_text neg +:+ u).
  { unfold str_strip.
    assert (str_lstrip is_space (sign_text neg +:+ u) = sign_text neg +:+ u) as ->.
    { destruct neg; [reflexivity|]. rewrite str_app_nil_l, Hu. simpl.
      rewrite (digit_not_space _ Hc0). reflexivity. }
    apply (str_rstrip_id _ _ cl); [|exact Hsp].
    rewrite str_last_app; [exact Hcl | rewrite Hu; discriminate]. }
  unfold float_of_string. fold u. rewrite Hstrip.
  assert (split_sign (sign_text neg +:+ u) = (neg, u)) as ->.
  { destruct neg; [reflexivity|]. rewrite str_app_nil_l, Hu. apply digit_split_sign, Hc0. }
  destruct (digit_not_keyword c0 (rest +:+ "." +:+ fd) Hc0) as [Hk1 Hk2].
  cbv zeta in Hk1, Hk2. rewrite <- Hu in Hk1, Hk2. rewrite Hk1, Hk2.
  assert (Hnoe : str_all (fun c => negb (Ascii.eqb (chr_lower c) "e")) u = true).
  { unfold u. rewrite !str_all_app. rewrite !andb_true_iff. repeat split.
    - eapply str_all_impl; [|exact Hdig]. intros c Hc. rewrite (digit_not_e _ Hc). reflexivity.
    - eapply str_all_impl; [|exact Hfd]. intros c Hc. rewrite (digit_not_e _ Hc). reflexivity. }
  rewrite (str_partition_none _ _ Hnoe). cbv beta iota.
  unfold mantissa_of_string, u.
  change ("." +:+ fd) with (String "." fd).
  rewrite (str_partition_at (Ascii.eqb ".") (str_of_N ip) "." fd);
    [| eapply str_all_impl; [|exact Hdig]; intros c Hc; rewrite (digit_not_dot _ Hc); reflexivity
     | reflexivity].
  change (default EmptyString (Some fd)) with fd. rewrite Hdig, Hfd. cbn [andb].
  assert (digits_to_N (str_of_N ip +:+ fd) = Some (digits_fold fd ip)) as ->.
  { unfold digits_to_N. rewrite str_all_app, Hdig, Hfd. cbn [andb].
    rewrite digits_fold_app, Hval. rewrite Hip, str_app_cons. reflexivity. }
  reflexivity.
Qed.

Lemma format_fixed_shape n q :
  n <> 0 ->
  format_fixed n (FFin q)
  = sign_text (Qnum q <? 0)%Z
    +:+ str_of_N (round_scaled n q / Z.to_N (pow10 n))
    +:+ "." +:+ fixed_digits n (round_scaled n q mod Z.to_N (pow10 n)).
Proof.
  intros Hn. unfold format_fixed. destruct n; [contradiction|].
  destruct (Qnum q <? 0)%Z; reflexivity.
Qed.

(** ** The numeric format (claim C3) *)

Lemma xmlConvertFloat_finite q : xmlConvertFloat (FFin q) = Ok (specNumberFormat q).
Proof.
  unfold xmlConvertFloat, specNumberFormat.
  rewrite format_fixed_shape by discriminate.
  change (Z.to_N (pow10 10)) with (10 ^ 10)%N.
  set (neg := (Qnum q <? 0)%Z).
  set (whole := (round_scaled 10 q / 10 ^ 10)%N).
  set (fraction := fixed_digits 10 (round_scaled 10 q mod 10 ^ 10)%N).
  assert (Hfr : str_all is_digit fraction = true) by apply fixed_digits_digits.
  set (pre := sign_text neg +:+ str_of_N whole +:+ ".").
  assert (Hpre : sign_text neg +:+ str_of_N whole +:+ "." +:+ fraction = pre +:+ fraction).
  { unfold pre. rewrite !str_app_assoc. reflexivity. }
  assert (Hlast : str_last pre = Some "."%char).
  { unfold pre. rewrite <- str_app_assoc. apply str_last_app. discriminate. }
  rewrite Hpre.
  destruct (str_rstrip (Ascii.eqb "0") fraction) as [|c kept] eqn:E.
  - rewrite str_rstrip_app_drop by (apply str_rstrip_empty_iff, E).
    rewrite (str_rstrip_id _ _ _ Hlast) by reflexivity.
    rewrite Hlast. cbn [Ascii.eqb Bool.eqb andb].
    pose proof (float_of_string_decimal neg whole EmptyString eq_refl) as H.
    change (sign_text neg +:+ str_of_N whole +:+ "." +:+ EmptyString) with pre in H.
    rewrite H. unfold decimal_value. cbn [digits_fold String.length Z.of_nat Z.opp Z.leb Z.compare].
    cbn [int_of_float Qnum Qden mbind result_bind]. unfold xmlConvertInt.
    rewrite Z.pow_0_r, Z.mul_1_r, Z.quot_1_r. destruct neg; reflexivity.
  - rewrite str_rstrip_app_keep by (rewrite E; discriminate). rewrite E.
    rewrite str_last_app by discriminate.
    destruct (str_last_cons c kept) as [x Hx]. rewrite Hx.
    assert (is_digit x = true) as Hd.
    { apply (str_last_all is_digit (String c kept)); [|exact Hx].
      rewrite <- E. apply str_rstrip_all, Hfr. }
    rewrite Ascii.eqb_sym, (digit_not_dot _ Hd).
    unfold pre. rewrite !str_app_assoc. destruct neg; reflexivity.
Qed.

Lemma xmlConvertFloat_total x : xmlConvertFloat x = Ok (numberText x).
Proof.
  destruct x as [q|neg|]; [apply xmlConvertFloat_finite | destruct neg; reflexivity | reflexivity].
Qed.

(** C3: for every real number the writer's numeric routine
    [xmlConvertFloat] returns the rendering at exactly 10 fractional
    digits with the trailing zeros stripped, and the plain signed integer
    when nothing is left after the point ([specNumberFormat]); the
    fraction it starts from always has 10 digits. *)
Theorem numeric_format_exact (q : Q) :
  xmlConvertFloat (FFin q) = Ok (specNumberFormat q)
  /\ String.length (fixed_digits 10 (round_scaled 10 q mod 10 ^ 10)%N) = 10.
Proof. split; [apply xmlConvertFloat_finite | apply fixed_digits_length]. Qed.

(** The examples of the specification and of the source's doctests. *)
Example numeric_format_examples :
  xmlConvertFloat (literal "1.00000000001") = Ok "1"
  /\ xmlConvertFloat (literal "1.0000000001") = Ok "1.0000000001"
  /\ xmlConvertFloat (literal "-2.0") = Ok "-2"
  /\ xmlConvertFloat (literal "0.0") = Ok "0"
  /\ xmlConvertFloat (literal "1.00000000009") = Ok "1.0000000001"
  /\ xmlConvertFloat (literal "2.05") = Ok "2.05"
  /\ xmlConvertFloat (literal "1e-11") = Ok "0"
  /\ xmlConvertFloat (literal "1e+10") = Ok "10000000000".
Proof. repeat split; vm_compute; reflexivity. Qed.

(** ** The advance element (claim C8) *)

Lemma attributesToString_one k v :
  attributesToString [(k, v)]
  = s ← xmlConvertValue v; Ok (xmlEscapeAttribute k +:+ "=" +:+ quoted s).
Proof.
  unfold attributesToString. cbn [map]. destruct (xmlConvertValue v) eqn:E.
  - cbn. rewrite E. cbn. reflexivity.
  - cbn. rewrite E. reflexivity.
Qed.

Lemma attributesToString_height_width h w :
  attributesToString [("width", VFloat w); ("height", VFloat h)]
  = Ok ("height=" +:+ quoted (numberText h) +:+ " width=" +:+ quoted (numberText w)).
Proof.
  unfold attributesToString. cbn -[xmlConvertFloat quoted].
  match goal with |- context [decide ?P] => destruct (decide P) as [H|_] end;
    [vm_compute in H; discriminate|].
  cbn -[xmlConvertFloat quoted]. rewrite !xmlConvertFloat_total. reflexivity.
Qed.

(** C8, as the code has it: the advance element is dropped when the
    width or the height does not parse as a float (each defaulting to
    0); otherwise exactly the attributes with a non-zero value are
    written, height before width, and nothing is written when both are
    zero. *)
Theorem advance_needs_both_to_parse (element : element) (writer : XMLWriter) :
  _normalizeGlifAdvance element writer =
    match float_of_string (default "0" (dict_get "width" (attrib element))),
          float_of_string (default "0" (dict_get "height" (attrib element))) with
    | Some w, Some h =>
        if float_truthy w || float_truthy h then
          Ok (raw ("<advance "
                   +:+ (if float_truthy h
                        then "height=" +:+ quoted (numberText h)
                             +:+ (if float_truthy w then " " else EmptyString)
                        else EmptyString)
                   +:+ (if float_truthy w
                        then "width=" +:+ quoted (numberText w) else EmptyString)
                   +:+ "/>") writer)
        else Ok writer
    | _, _ => Ok writer
    end.
Proof.
  unfold _normalizeGlifAdvance.
  destruct (float_of_string (default "0" (dict_get "width" (attrib element)))) as [w|];
    [|reflexivity].
  destruct (float_of_string (default "0" (dict_get "height" (attrib element)))) as [h|];
    [|reflexivity].
  destruct (float_truthy w), (float_truthy h); cbn [orb dict_set String.eqb Ascii.eqb Bool.eqb andb].
  - unfold simpleElement. rewrite attributesToString_height_width.
    cbn [mbind result_bind]. rewrite !str_app_assoc. reflexivity.
  - unfold simpleElement. rewrite attributesToString_one. cbn [xmlConvertValue].
    rewrite xmlConvertFloat_total. reflexivity.
  - unfold simpleElement. rewrite attributesToString_one. cbn [xmlConvertValue].
    rewrite xmlConvertFloat_total. cbn [mbind result_bind xmlEscapeAttribute].
    rewrite !str_app_assoc. reflexivity.
  - reflexivity.
Qed.

(** The claim as worded fails where one of the two parses and the other
    does not: the width 60 parses and is not zero, and nothing is
    written. *)
Lemma advance_one_unparsable :
  float_of_string "60" = Some (FFin (60 # 1))
  /\ float_truthy (FFin (60 # 1)) = true
  /\ float_of_string "_" = None
  /\ _normalizeGlifAdvance
       (Element "advance" [("width", "60"); ("height", "_")] None []) newWriter
     = Ok newWriter.
Proof. repeat split; vm_compute; reflexivity. Qed.

(** ** Implied anchors of a format-1 outline (claim C6) *)

Lemma contour_not_component element obj :
  _normalizeGlifContourFormat1 element = Some obj ->
  match obj with ItemComponent _ => False | _ => True end.
Proof.
  unfold _normalizeGlifContourFormat1.
  destruct (contourPointsFormat1 (children element)) as [[|p [|p' ps]]|]; try discriminate.
  - destruct (dict_get "type" p) as [[| s | |]|]; try (intros [= <-]; exact I).
    destruct (String.eqb s "move"); intros [= <-]; exact I.
  - intros [= <-]. exact I.
Qed.

Lemma component_is_component element obj :
  _normalizeGlifComponentFormat1 element = Some obj -> isAnchor obj = false.
Proof.
  unfold _normalizeGlifComponentFormat1.
  destruct (_normalizeGlifComponentAttributesFormat1 element); [discriminate|].
  intros [= <-]. reflexivity.
Qed.

Lemma collectOutlineFormat1_acc subElements outline anchors :
  fold_left
    (fun '(outline, anchors) subElement =>
       if String.eqb (tag subElement) "contour" then
         match _normalizeGlifContourFormat1 subElement with
         | None => (outline, anchors)
         | Some (ItemAnchor a) => (outline, anchors ++ [ItemAnchor a])
         | Some contour => (outline ++ [contour], anchors)
         end
       else if String.eqb (tag subElement) "component" then
         match _normalizeGlifComponentFormat1 subElement with
         | None => (outline, anchors)
         | Some component => (outline ++ [component], anchors)
         end
       else (outline, anchors))
    subElements (outline, anchors)
  = (outline ++ filter isTrueEntry (omap outlineChildFormat1 subElements),
     anchors ++ filter isAnchor (omap outlineChildFormat1 subElements)).
Proof.
  revert outline anchors.
  induction subElements as [|e l IH]; intros outline anchors.
  - simpl. rewrite !app_nil_r. reflexivity.
  - cbn [fold_left].
    assert (Hcons : omap outlineChildFormat1 (e :: l)
                    = match outlineChildFormat1 e with
                      | Some y => y :: omap outlineChildFormat1 l
                      | None => omap outlineChildFormat1 l
                      end) by reflexivity.
    rewrite !Hcons. clear Hcons.
    assert (Hr : outlineChildFormat1 e
                 = if String.eqb (tag e) "contour" then _normalizeGlifContourFormat1 e
                   else if String.eqb (tag e) "component"
                        then _normalizeGlifComponentFormat1 e else None) by reflexivity.
    destruct (String.eqb (tag e) "contour").
    + destruct (_normalizeGlifContourFormat1 e) as [obj|] eqn:E; rewrite Hr; [|apply IH].
      pose proof (contour_not_component _ _ E) as Hc.
      destruct obj; [| |contradiction]; rewrite IH.
      * rewrite filter_cons_True by exact I. rewrite filter_cons_False by (intros H; exact H).
        rewrite <- app_assoc. reflexivity.
      * rewrite filter_cons_False by (intros H; exact H). rewrite filter_cons_True by exact I.
        rewrite <- app_assoc. reflexivity.
    + destruct (String.eqb (tag e) "component"); [|rewrite Hr; apply IH].
      destruct (_normalizeGlifComponentFormat1 e) as [obj|] eqn:E; rewrite Hr; [|apply IH].
      pose proof (component_is_component _ _ E) as Hc. rewrite IH.
      rewrite filter_cons_True by (unfold isTrueEntry; rewrite Hc; exact I).
      rewrite filter_cons_False by (rewrite Hc; intros H; exact H).
      rewrite <- app_assoc. reflexivity.
Qed.

Lemma collectOutlineFormat1_spec subElements :
  collectOutlineFormat1 subElements
  = (filter isTrueEntry (omap outlineChildFormat1 subElements),
     filter isAnchor (omap outlineChildFormat1 subElements)).
Proof. unfold collectOutlineFormat1. rewrite collectOutlineFormat1_acc. reflexivity. Qed.




(** The example of the specification: a contour, an implied anchor
    named top, a contour. *)
Example implied_anchors_example :
  let contour1 :=
    Element "contour" [] None
      [Element "point" [("x", "1"); ("y", "1"); ("type", "line")] None []] in
  let top :=
    Element "contour" [] None
      [Element "point" [("x", "5"); ("y", "9"); ("type", "move"); ("name", "top")]
         None []] in
  let contour2 :=
    Element "contour" [] None
      [Element "point" [("x", "3"); ("y", "3"); ("type", "line")] None []] in
  (w ← _normalizeGlifOutlineFormat1
         (Element "outline" [] None [contour1; top; contour2]) newWriter;
   Ok (_lines w))
  = Ok ["<outline>";
        String "009" "<contour>";
        String "009" (String "009" ("<point x=" +:+ quoted "1" +:+ " y=" +:+ quoted "1"
                                    +:+ " type=" +:+ quoted "line" +:+ "/>"));
        String "009" "</contour>";
        String "009" "<contour>";
        String "009" (String "009" ("<point x=" +:+ quoted "3" +:+ " y=" +:+ quoted "3"
                                    +:+ " type=" +:+ quoted "line" +:+ "/>"));
        String "009" "</contour>";
        String "009" "<contour>";
        String "009" (String "009" ("<point name=" +:+ quoted "top" +:+ " x=" +:+ quoted "5"
                                    +:+ " y=" +:+ quoted "9"
                                    +:+ " type=" +:+ quoted "move" +:+ "/>"));
        String "009" "</contour>";
        "</outline>"].
Proof. vm_compute. reflexivity. Qed.

(** ** Colors *)

Lemma mapM_xmlConvertFloat l : mapM xmlConvertFloat l = Ok (map numberText l).
Proof.
  induction l as [|x l IH]; [reflexivity|].
  cbn [mapM map]. rewrite xmlConvertFloat_total, IH. reflexivity.
Qed.

Lemma _normalizeColorString_total value :
  exists color, _normalizeColorString value = Ok color.
Proof.
  unfold _normalizeColorString.
  destruct (negb (Nat.eqb (str_count "," value) 3)); [eexists; reflexivity|].
  destruct (mapM float_of_string (str_split "," value))
    as [[|r [|g [|b [|a [|x l]]]]]|]; try (eexists; reflexivity).
  destruct (existsb _ _); [eexists; reflexivity|].
  rewrite mapM_xmlConvertFloat. eexists; reflexivity.
Qed.

(** ** Guidelines with a zero coordinate (claim C9) *)

Lemma float_of_string_empty : float_of_string EmptyString = None.
Proof. reflexivity. Qed.

Lemma truthy_parsed s x : float_of_string s = Some x -> truthy (VStr s) = true.
Proof. destruct s; [discriminate | reflexivity]. Qed.

Lemma isZeroNumber_falsy v : isZeroNumber v = true -> truthy v = false /\ is_None v = false.
Proof.
  destruct v as [|s|[q|neg|]|z]; try discriminate; simpl; intros ->; split; reflexivity.
Qed.

(** C9: a guideline dictionary whose x is the number 0, with a non-zero
    y and angle, is dropped by the dictionary normalizer used for
    fontinfo.plist; the same guideline given as a glyph element, with
    the attribute text 0 for x, passes the presence tests and is kept
    with x = 0. *)
Theorem zero_coordinate_contexts_disagree
    (guideline : dict value) (x y angle : value)
    (element : element) (sy sa : string) (fy fa : pyfloat) (writer : XMLWriter) :
  dict_get "x" guideline = Some x -> isZeroNumber x = true ->
  dict_get "y" guideline = Some y -> truthy y = true ->
  dict_get "angle" guideline = Some angle -> truthy angle = true ->
  dict_get "x" (attrib element) = Some "0" ->
  dict_get "y" (attrib element) = Some sy -> float_of_string sy = Some fy ->
  dict_get "angle" (attrib element) = Some sa -> float_of_string sa = Some fa ->
  _normalizeDictGuideline guideline = Ok None
  /\ _normalizeFontInfoGuidelines [guideline] = Ok []
  /\ exists normalized,
       _normalizeDictGuideline (guidelineAttributes element) = Ok (Some normalized)
       /\ dict_get "x" normalized = Some (VFloat (FFin (0 # 1)))
       /\ dict_get "y" normalized = Some (VFloat fy)
       /\ dict_get "angle" normalized = Some (VFloat fa)
       /\ _normalizeGlifGuideline element writer
          = simpleElement "guideline" normalized None writer.
Proof.
  intros Hx Hzero Hy Hty Ha Hta Hex Hey Hfy Hea Hfa.
  destruct (isZeroNumber_falsy _ Hzero) as [Hfx _].
  assert (Hdrop : _normalizeDictGuideline guideline = Ok None).
  { unfold _normalizeDictGuideline, dict_get_value. rewrite Hx, Hy, Ha.
    cbn [default from_option id]. rewrite Hfx, Hty, Hta. reflexivity. }
  split; [exact Hdrop|]. split.
  { unfold _normalizeFontInfoGuidelines. cbn [mapM]. rewrite Hdrop. reflexivity. }
  pose proof (truthy_parsed _ _ Hfy) as Htsy.
  pose proof (truthy_parsed _ _ Hfa) as Htsa.
  assert (Hkeep : exists normalized,
             _normalizeDictGuideline (guidelineAttributes element) = Ok (Some normalized)
             /\ dict_get "x" normalized = Some (VFloat (FFin (0 # 1)))
             /\ dict_get "y" normalized = Some (VFloat fy)
             /\ dict_get "angle" normalized = Some (VFloat fa)).
  { unfold _normalizeDictGuideline, guidelineAttributes, dict_get_value.
    cbn [map dict_get String.eqb Ascii.eqb Bool.eqb andb default from_option id].
    unfold attrib_value. rewrite Hex, Hey, Hea.
    unfold floatIfSet. rewrite Htsy, Htsa.
    cbn [truthy String.eqb negb andb orb float_of_value].
    rewrite Hfy, Hfa.
    change (float_of_string "0") with (Some (FFin (0 # 1))).
    cbn [setIfNotNone is_None dict_set String.eqb Ascii.eqb Bool.eqb andb].
    destruct (dict_get "name" (attrib element)) as [name|];
      destruct (dict_get "identifier" (attrib element)) as [identifier|];
      destruct (dict_get "color" (attrib element)) as [color|];
      cbn [setIfNotNone is_None dict_set String.eqb Ascii.eqb Bool.eqb andb
           normalizeColorValue];
      try (destruct (_normalizeColorString_total color) as [[c|] ->]);
      cbn [mbind result_bind setIfNotNone is_None dict_set String.eqb Ascii.eqb
           Bool.eqb andb];
      eexists; (split; [reflexivity|]); repeat split; reflexivity. }
  destruct Hkeep as (normalized & Hn & Hnx & Hny & Hna).
  exists normalized. repeat split; try assumption.
  unfold _normalizeGlifGuideline. fold (guidelineAttributes element).
  rewrite Hn. reflexivity.
Qed.

Lemma zero_coordinate_contexts_disagree_witness :
  let guideline := [("x", VInt 0); ("y", VInt 5); ("angle", VInt 90)] in
  let element :=
    Element "guideline" [("x", "0"); ("y", "5"); ("angle", "90")] None [] in
  _normalizeDictGuideline guideline = Ok None
  /\ _normalizeFontInfoGuidelines [guideline] = Ok []
  /\ exists normalized,
       _normalizeDictGuideline (guidelineAttributes element) = Ok (Some normalized)
       /\ dict_get "x" normalized = Some (VFloat (FFin (0 # 1)))
       /\ dict_get "y" normalized = Some (VFloat (FFin (5 # 1)))
       /\ dict_get "angle" normalized = Some (VFloat (FFin (90 # 1)))
       /\ _normalizeGlifGuideline element newWriter
          = simpleElement "guideline" normalized None newWriter.
Proof.
  apply (zero_coordinate_contexts_disagree
           [("x", VInt 0); ("y", VInt 5); ("angle", VInt 90)]
           (VInt 0) (VInt 5) (VInt 90)
           (Element "guideline" [("x", "0"); ("y", "5"); ("angle", "90")] None [])
           "5" "90" (FFin (5 # 1)) (FFin (90 # 1)) newWriter);
    reflexivity.
Defined.

(** ** Colors and the callers of the color normalizer (claim C2) *)

Lemma str_split_length c s : length (str_split c s) = S (str_count c s).
Proof.
  induction s as [|a s IH]; [reflexivity|]. cbn [str_split str_count].
  destruct (Ascii.eqb a c).
  - cbn [length]. rewrite IH. reflexivity.
  - destruct (str_split c s); [discriminate|]. exact IH.
Qed.

(** The color normalizer returns what the specification describes,
    with the range test as the code writes it: a NaN passes it. *)
Lemma _normalizeColorString_spec value :
  _normalizeColorString value = Ok (specColor value).
Proof.
  unfold _normalizeColorString, specColor.
  destruct (Nat.eqb (str_count "," value) 3) eqn:Hc; cbn [negb].
  - destruct (mapM float_of_string (str_split "," value))
      as [[|r [|g [|b [|a [|x l]]]]]|]; try reflexivity.
    rewrite mapM_xmlConvertFloat.
    cbn [existsb forallb].
    destruct (float_lt0 r), (float_gt1 r), (float_lt0 g), (float_gt1 g),
             (float_lt0 b), (float_gt1 b), (float_lt0 a), (float_gt1 a); reflexivity.
  - apply Nat.eqb_neq in Hc.
    destruct (mapM float_of_string (str_split "," value)) as [l|] eqn:E; [|reflexivity].
    apply length_mapM in E. rewrite str_split_length in E.
    destruct l as [|r [|g [|b [|a [|x l]]]]]; try reflexivity.
    simpl in E. lia.
Qed.

(** C2 at the failing input: an anchor and an image whose color is not
    valid store [None] under [color] and the writer raises on it, where
    the guideline and layer-info callers drop the color; a NaN field
    passes the range test of the color normalizer. *)
Theorem invalid_color_raises_in_anchor_and_image :
  _normalizeColorString "invalid" = Ok None
  /\ _normalizeGlifAnchor
       (Element "anchor" [("x", "1"); ("y", "2"); ("color", "invalid")] None [])
       newWriter
     = Raise AttributeError
  /\ _normalizeGlifImage
       (Element "image" [("fileName", "a.png"); ("color", "invalid")] None [])
       newWriter
     = Raise AttributeError
  /\ (w ← _normalizeGlifGuideline
            (Element "guideline" [("y", "2"); ("color", "invalid")] None [])
            newWriter;
      Ok (_lines w))
     = Ok ["<guideline y=" +:+ quoted "2" +:+ "/>"]
  /\ _normalizeLayerInfoColor [("color", VStr "invalid")] = Ok []
  /\ _normalizeColorString "nan,0,0,0" = Ok (Some "nan,0,0,0").
Proof. repeat split; vm_compute; reflexivity. Qed.

(** ** Escaping (claim C5) *)

Lemma str_flat_map_app f a b :
  str_flat_map f (a +:+ b) = str_flat_map f a +:+ str_flat_map f b.
Proof.
  induction a as [|c a IH]; [reflexivity|].
  rewrite str_app_cons. cbn [str_flat_map]. rewrite IH, str_app_assoc. reflexivity.
Qed.

Lemma xmlEscapeText_cons c s :
  xmlEscapeText (String c s) = escapeTextCharacter c +:+ xmlEscapeText s.
Proof.
  unfold xmlEscapeText, str_replace. cbn [str_flat_map].
  rewrite !str_flat_map_app. f_equal.
  destruct c as [[] [] [] [] [] [] [] []]; reflexivity.
Qed.

(** Element text handed to [xmlEscapeText] has exactly the characters
    ampersand, less-than and greater-than escaped. *)
Lemma xmlEscapeText_characters s :
  xmlEscapeText s = str_flat_map escapeTextCharacter s.
Proof.
  induction s as [|c s IH]; [reflexivity|].
  rewrite xmlEscapeText_cons, IH. reflexivity.
Qed.

(** C5 at the failing input: the writer applies [xmlEscapeAttribute],
    which escapes the double quote, to the attribute name, and converts
    the attribute value with [xmlEscapeText] alone, so a double quote in
    a value is written as it is; the text of a property-list string is
    written with no escaping at all. *)
Theorem attribute_value_quote_not_escaped :
  let value := String "a" (String dquote "<b") in
  xmlEscapeAttribute value = "a&quot;&lt;b"
  /\ xmlConvertValue (VStr value) = Ok (String "a" (String dquote "&lt;b"))
  /\ attributesToString [("name", VStr value)]
     = Ok ("name=" +:+ quoted (String "a" (String dquote "&lt;b")))
  /\ (w ← _normalizeGlifAnchor
            (Element "anchor" [("x", "1"); ("y", "2"); ("name", value)] None [])
            newWriter;
      Ok (_lines w))
     = Ok ["<anchor name=" +:+ quoted (String "a" (String dquote "&lt;b"))
           +:+ " x=" +:+ quoted "1" +:+ " y=" +:+ quoted "2" +:+ "/>"]
  /\ (w ← _plistString "a<b&c" newWriter; Ok (_lines w))
     = Ok ["<string>a<b&c</string>"].
Proof. repeat split; vm_compute; reflexivity. Qed.

(** ** Idempotence (claim C1) *)

(** C1 at the failing input: an advance width of 0.00000000001 is not
    zero, so it is written, and it is written as 0; normalizing that
    output again drops the element.  The same holds for a component
    scale of 1.00000000001, written as 1 and dropped the next time. *)
Theorem advance_not_idempotent :
  (w ← _normalizeGlifAdvance
         (Element "advance" [("width", "0.00000000001")] None []) newWriter;
   Ok (_lines w))
  = Ok ["<advance width=" +:+ quoted "0" +:+ "/>"]
  /\ (w ← _normalizeGlifAdvance
            (Element "advance" [("width", "0")] None []) newWriter;
      Ok (_lines w))
     = Ok []
  /\ (w ← _normalizeGlifOutlineFormat1
            (Element "outline" [] None
               [Element "component" [("base", "a"); ("xScale", "1.00000000001")] None []])
            newWriter;
      Ok (_lines w))
     = Ok ["<outline>";
           String "009" ("<component base=" +:+ quoted "a"
                         +:+ " xScale=" +:+ quoted "1" +:+ "/>");
           "</outline>"]
  /\ (w ← _normalizeGlifOutlineFormat1
            (Element "outline" [] None
               [Element "component" [("base", "a"); ("xScale", "1")] None []])
            newWriter;
      Ok (_lines w))
     = Ok ["<outline>";
           String "009" ("<component base=" +:+ quoted "a" +:+ "/>");
           "</outline>"].
Proof. repeat split; vm_compute; reflexivity. Qed.

(** ** The stored modification times (claim C10) *)

Lemma str_splitlines_line a :
  a <> EmptyString ->
  str_all (fun c => negb (is_linebreak c)) a = true ->
  str_splitlines a = [a].
Proof.
  induction a as [|x a IH]; [contradiction|]. intros _ H.
  simpl in H. apply andb_true_iff in H as [Hx Ha]. apply negb_true_iff in Hx.
  cbn [str_splitlines]. rewrite Hx.
  destruct a as [|y a]; [reflexivity|].
  rewrite IH by (discriminate || exact Ha). reflexivity.
Qed.

Lemma str_splitlines_app a rest :
  str_all (fun c => negb (is_linebreak c)) a = true ->
  str_splitlines (a +:+ xmlLineBreak +:+ rest) = a :: str_splitlines rest.
Proof.
  induction a as [|x a IH]; intros H.
  - rewrite str_app_nil_l. unfold xmlLineBreak. rewrite str_app_cons, str_app_nil_l.
    cbn [str_splitlines]. change (is_linebreak "010") with true. cbn iota.
    destruct rest; reflexivity.
  - simpl in H. apply andb_true_iff in H as [Hx Ha]. apply negb_true_iff in Hx.
    rewrite str_app_cons. cbn [str_splitlines]. rewrite Hx, (IH Ha). reflexivity.
Qed.

Lemma str_splitlines_join lines :
  Forall (fun a => a <> EmptyString
                   /\ str_all (fun c => negb (is_linebreak c)) a = true) lines ->
  str_splitlines (str_join xmlLineBreak lines) = lines.
Proof.
  induction 1 as [|a l [Hne Ha] Hl IH]; [reflexivity|].
  destruct l as [|b l].
  - apply str_splitlines_line; assumption.
  - change (str_join xmlLineBreak (a :: b :: l))
      with (a +:+ xmlLineBreak +:+ str_join xmlLineBreak (b :: l)).
    rewrite (str_splitlines_app _ _ Ha), IH. reflexivity.
Qed.

Lemma time_char_plain c :
  time_char c = true -> is_linebreak c = false /\ Ascii.eqb " " c = false.
Proof.
  destruct c as [[] [] [] [] [] [] [] []]; try discriminate; intros _; split; reflexivity.
Qed.

Lemma format_fixed_time_chars t : str_all time_char (format_fixed 1 t) = true.
Proof.
  destruct t as [q|[]|]; try reflexivity.
  rewrite format_fixed_shape by discriminate.
  assert (Hd : forall s, str_all is_digit s = true -> str_all time_char s = true).
  { intros s. apply str_all_impl. intros c Hc. unfold time_char. rewrite Hc. reflexivity. }
  rewrite !str_all_app, (Hd _ (str_of_N_digits _)), (Hd _ (fixed_digits_digits _ _)).
  destruct (Qnum q <? 0)%Z; reflexivity.
Qed.

Lemma format_fixed_nonempty t : format_fixed 1 t <> EmptyString.
Proof.
  destruct t as [q|[]|]; try discriminate.
  rewrite format_fixed_shape by discriminate.
  destruct (str_of_N_cons (round_scaled 1 q / Z.to_N (pow10 1))) as (c & s & -> & _).
  destruct (Qnum q <? 0)%Z; discriminate.
Qed.

(** Reading a formatted time back gives the time rounded to one
    fractional digit. *)
Lemma float_of_string_format_fixed t :
  float_of_string (format_fixed 1 t) = Some (roundTime t).
Proof.
  destruct t as [q|[]|]; try reflexivity.
  rewrite format_fixed_shape by discriminate.
  change (Z.to_N (pow10 1)) with 10%N.
  fold (sign_text (Qnum q <? 0)%Z).
  rewrite float_of_string_decimal by apply fixed_digits_digits.
  rewrite fixed_digits_length. unfold roundTime. do 3 f_equal.
  rewrite digits_fold_shift, fixed_digits_length.
  cbn [fixed_digits]. rewrite str_app_nil_l. cbn [digits_fold].
  assert (round_scaled 1 q mod 10 mod 10 < 10)%N as Hlt by (apply N.mod_lt; discriminate).
  unfold digit_of_char, char_of_digit. rewrite N_ascii_embedding by lia.
  rewrite N.Div0.mod_mod.
  pose proof (N.div_mod (round_scaled 1 q) 10 ltac:(discriminate)) as Hdm.
  change (10 ^ N.of_nat 1)%N with 10%N.
  set (d := (round_scaled 1 q / 10)%N) in *.
  set (m := (round_scaled 1 q mod 10)%N) in *. clearbody d m. lia.
Qed.

Lemma foldM_raise {A S : Type} (f : A -> S -> result S) l e :
  fold_left (fun acc a => s ← acc; f a s) l (Raise e) = Raise e.
Proof. induction l as [|a l IH]; [reflexivity | exact IH]. Qed.

Lemma foldM_cons {A S : Type} (f : A -> S -> result S) a l s :
  foldM f (a :: l) s = s' ← f a s; foldM f l s'.
Proof.
  unfold foldM. cbn [fold_left mbind result_bind].
  destruct (f a s); [reflexivity | apply foldM_raise].
Qed.

Lemma splitModTimeLine_line item :
  splitModTimeLine (modTimeLine item) = Ok (format_fixed 1 (snd item), fst item).
Proof.
  unfold splitModTimeLine, modTimeLine.
  change (" " +:+ fst item) with (String " " (fst item)).
  rewrite str_partition_at; [reflexivity | | reflexivity].
  eapply str_all_impl; [|apply format_fixed_time_chars].
  intros c Hc. destruct (time_char_plain c Hc) as [_ ->]. reflexivity.
Qed.

Lemma readModTimeLine_line (item : string * pyfloat) (acc : gmap string pyfloat) :
  readModTimeLine (modTimeLine item) acc
  = Ok (<[fst item := roundTime (snd item)]> acc).
Proof.
  unfold readModTimeLine. rewrite splitModTimeLine_line.
  cbn [mbind result_bind]. rewrite float_of_string_format_fixed. reflexivity.
Qed.

Lemma readModTimes_lines (items : list (string * pyfloat)) (acc : gmap string pyfloat) :
  foldM readModTimeLine (map modTimeLine items) acc
  = Ok (fold_left (fun m item => <[fst item := roundTime (snd item)]> m) items acc).
Proof.
  revert acc. induction items as [|item items IH]; intros acc; [reflexivity|].
  cbn [map]. rewrite foldM_cons, readModTimeLine_line.
  cbn [mbind result_bind fold_left]. apply IH.
Qed.

Lemma fold_left_insert_times (items : list (string * pyfloat)) (acc : gmap string pyfloat) :
  NoDup (items.*1) ->
  fold_left (fun m item => <[fst item := roundTime (snd item)]> m) items acc
  = (roundTime <$> list_to_map items) ∪ acc.
Proof.
  revert acc. induction items as [|[k t] items IH]; intros acc Hnd.
  - cbn. rewrite fmap_empty, (left_id_L ∅ (∪)). reflexivity.
  - cbn [fmap list_fmap fst] in Hnd. apply NoDup_cons in Hnd as [Hk Hnd].
    cbn [fold_left fst snd list_to_map foldr]. rewrite IH by exact Hnd.
    change (uncurry insert (k, t) (foldr (uncurry insert) ∅ items))
      with (<[k := t]> (list_to_map items : gmap string pyfloat)).
    rewrite fmap_insert, <- insert_union_l.
    rewrite <- insert_union_r; [reflexivity|].
    rewrite lookup_fmap.
    rewrite (not_elem_of_list_to_map_1 (M := gmap string) items k Hk). reflexivity.
Qed.

Lemma storeModTimes_lines_plain (modTimes : gmap string pyfloat) items :
  Forall (fun item => singleLine (fst item)) items ->
  Forall (fun a => a <> EmptyString
                   /\ str_all (fun c => negb (is_linebreak c)) a = true)
         (map modTimeLine items).
Proof.
  intros H. apply Forall_map. eapply Forall_impl; [exact H|].
  intros item Hk. unfold modTimeLine. split.
  - pose proof (format_fixed_nonempty (snd item)) as Hne.
    destruct (format_fixed 1 (snd item)); [contradiction | discriminate].
  - rewrite !str_all_app. rewrite Hk.
    assert (str_all (fun c => negb (is_linebreak c)) (format_fixed 1 (snd item)) = true) as ->.
    { eapply str_all_impl; [|apply format_fixed_time_chars].
      intros c Hc. destruct (time_char_plain c Hc) as [-> _]. reflexivity. }
    reflexivity.
Qed.

Lemma readModTimes_text text :
  text <> EmptyString ->
  readModTimes (Some text)
  = match str_splitlines text with
    | [] => Raise IndexError
    | first :: lines =>
        let version := str_strip (default EmptyString (last (str_split ":" first))) in
        if negb (String.eqb version __version__) then Ok ∅
        else foldM readModTimeLine lines ∅
    end.
Proof. destruct text; [contradiction | reflexivity]. Qed.

Lemma readModTimes_storeModTimes (modTimes : gmap string pyfloat) :
  map_Forall (fun fileName _ => singleLine fileName) modTimes ->
  readModTimes (Some (storeModTimes modTimes)) = Ok (roundTime <$> modTimes).
Proof.
  intros Hkeys. unfold storeModTimes.
  set (sorted := merge_sort item_le (map_to_list modTimes)).
  assert (Hperm : sorted ≡ₚ map_to_list modTimes) by apply merge_sort_Permutation.
  assert (Hnd : NoDup (sorted.*1)).
  { rewrite Hperm. apply NoDup_fst_map_to_list. }
  assert (Hsingle : Forall (fun item => singleLine (fst item)) sorted).
  { rewrite Hperm. apply Forall_forall. intros [k t] Hin.
    apply elem_of_map_to_list in Hin. exact (Hkeys k t Hin). }
  set (version := "version: " +:+ __version__).
  assert (Hlines : Forall (fun a => a <> EmptyString
                     /\ str_all (fun c => negb (is_linebreak c)) a = true)
                     (version :: map modTimeLine sorted)).
  { constructor; [split; [discriminate | reflexivity]|].
    apply (storeModTimes_lines_plain modTimes), Hsingle. }
  rewrite readModTimes_text.
  - rewrite (str_splitlines_join _ Hlines).
    change (negb (String.eqb (str_strip (default EmptyString (last (str_split ":" version))))
                             __version__)) with false.
    cbv iota zeta. rewrite readModTimes_lines, (fold_left_insert_times _ _ Hnd).
    rewrite (right_id_L ∅ (∪)). do 2 f_equal.
    rewrite (list_to_map_proper sorted (map_to_list modTimes) Hnd Hperm).
    apply list_to_map_to_list.
  - destruct (map modTimeLine sorted); discriminate.
Qed.

(** C10, as the code has it: for a mapping whose file names hold no
    line boundary, storing the times and reading them back under the
    same version gives the same file names, each with its time rounded
    to one fractional decimal digit; the round trip is the identity
    exactly when every time equals its rounding. *)
Theorem modTimes_round_trip (modTimes : gmap string pyfloat) :
  map_Forall (fun fileName _ => singleLine fileName) modTimes ->
  readModTimes (Some (storeModTimes modTimes)) = Ok (roundTime <$> modTimes)
  /\ (roundTime <$> modTimes = modTimes
      <-> map_Forall (fun _ modTime => roundTime modTime = modTime) modTimes).
Proof.
  intros Hkeys. split; [apply readModTimes_storeModTimes, Hkeys|]. split.
  - intros Heq k t Hk. pose proof (f_equal (fun m => m !! k) Heq) as H.
    cbv beta in H. rewrite lookup_fmap, Hk in H. cbn in H. congruence.
  - intros Hall. apply map_eq. intros k. rewrite lookup_fmap.
    destruct (modTimes !! k) as [t|] eqn:Hk; [|reflexivity].
    cbn. rewrite (Hall k t Hk). reflexivity.
Qed.

Lemma modTimes_round_trip_witness :
  let modTimes : gmap string pyfloat :=
    {[ "a.glif" := FFin (617 # 50); "b c.glif" := FFin (3 # 2) ]} in
  readModTimes (Some (storeModTimes modTimes)) = Ok (roundTime <$> modTimes)
  /\ (roundTime <$> modTimes = modTimes
      <-> map_Forall (fun _ modTime => roundTime modTime = modTime) modTimes).
Proof.
  apply (modTimes_round_trip {[ "a.glif" := FFin (617 # 50); "b c.glif" := FFin (3 # 2) ]}).
  intros k t Hk. apply lookup_insert_Some in Hk as [[<- _]|[_ Hk]]; [reflexivity|].
  apply lookup_singleton_Some in Hk as [<- _]. reflexivity.
Defined.

(** The claim as worded fails for a file name that holds a line
    boundary: the stored text breaks inside the name and reading it back
    raises. *)
Lemma modTimes_line_break_in_name :
  let fileName := String "a" (String "010" "b") in
  storeModTimes {[ fileName := FFin (1 # 1) ]}
  = "version: 0a1" +:+ xmlLineBreak +:+ "1.0 a" +:+ xmlLineBreak +:+ "b"
  /\ readModTimes (Some (storeModTimes {[ fileName := FFin (1 # 1) ]}))
     = Raise ValueError.
Proof. split; vm_compute; reflexivity. Qed.

(** ** The two-pass renaming (claim C7) *)

Lemma str_of_N_inj m n : str_of_N m = str_of_N n -> m = n.
Proof.
  intros H. rewrite <- (digits_fold_str_of_N m), <- (digits_fold_str_of_N n), H.
  reflexivity.
Qed.

Lemma tempFileName_inj i j : tempFileName i = tempFileName j -> i = j.
Proof.
  unfold tempFileName. intros H. apply String.app_inj in H.
  apply str_of_N_inj in H. lia.
Qed.

Lemma renameToTempStep_eq i e (dir : directory) fromTempMapping :
  renameToTempStep (i, e) (dir, fromTempMapping)
  = if String.eqb (entryNew e) (entryOld e) then Ok (dir, fromTempMapping)
    else dir ← subpathRenameFile (entryOld e) (tempFileName i) dir;
         Ok (dir, fromTempMapping ++ [(tempFileName i, entryNew e)]).
Proof. reflexivity. Qed.

Lemma movedTemps_cons i e entries :
  movedTemps ((i, e) :: entries)
  = if isMoved e then (tempFileName i, entryNew e) :: movedTemps entries
    else movedTemps entries.
Proof. unfold movedTemps. cbn [omap list_omap fst snd]. destruct (isMoved e); reflexivity. Qed.

Lemma renameToTemp_steps (entries : list (nat * entry)) (dir : directory)
    (fromTempMapping : list (string * string)) :
  NoDup (entries.*1) ->
  NoDup (entryOld ∘ snd <$> entries) ->
  (forall ie, ie ∈ entries -> is_Some (dir !! entryOld (snd ie))) ->
  (forall ie, ie ∈ entries -> dir !! tempFileName (fst ie) = None) ->
  exists dir1,
    foldM renameToTempStep entries (dir, fromTempMapping)
    = Ok (dir1, fromTempMapping ++ movedTemps entries)
    /\ (forall ie, ie ∈ entries -> isMoved (snd ie) = true ->
          dir1 !! tempFileName (fst ie) = dir !! entryOld (snd ie))
    /\ (forall ie, ie ∈ entries -> isMoved (snd ie) = true ->
          dir1 !! entryOld (snd ie) = None)
    /\ (forall name,
          (forall ie, ie ∈ entries -> isMoved (snd ie) = true ->
             name <> tempFileName (fst ie) /\ name <> entryOld (snd ie)) ->
          dir1 !! name = dir !! name).
Proof.
  revert dir fromTempMapping.
  induction entries as [|[i e] entries IH]; intros dir ftm Hidx Hold Hex Hfresh.
  - exists dir. split; [cbn; rewrite app_nil_r; reflexivity|].
    split; [intros ie Hin; inversion Hin|].
    split; [intros ie Hin; inversion Hin|]. reflexivity.
  - cbn [fmap list_fmap fst snd compose] in Hidx, Hold.
    apply NoDup_cons in Hidx as [Hi Hidx]. apply NoDup_cons in Hold as [Ho Hold].
    assert (Htail_ex : forall ie, ie ∈ entries -> is_Some (dir !! entryOld (snd ie)))
      by (intros ie Hin; apply Hex; right; exact Hin).
    assert (Htail_fresh : forall ie, ie ∈ entries -> dir !! tempFileName (fst ie) = None)
      by (intros ie Hin; apply Hfresh; right; exact Hin).
    rewrite foldM_cons, renameToTempStep_eq, movedTemps_cons. unfold isMoved at 1.
    destruct (String.eqb (entryNew e) (entryOld e)) eqn:Heq; cbn [negb mbind result_bind].
    + destruct (IH dir ftm Hidx Hold Htail_ex Htail_fresh) as (dir1 & Hrun & Ha & Hb & Hc).
      exists dir1. split; [exact Hrun|].
      assert (Hnot : forall ie, ie ∈ (i, e) :: entries -> isMoved (snd ie) = true ->
                ie ∈ entries).
      { intros ie Hin Hm. apply elem_of_cons in Hin as [->|Hin]; [|exact Hin].
        unfold isMoved in Hm. cbn in Hm. rewrite Heq in Hm. discriminate. }
      split; [intros ie Hin Hm; apply Ha; auto|].
      split; [intros ie Hin Hm; apply Hb; auto|].
      intros name Hname. apply Hc. intros ie Hin Hm. apply Hname; [right; exact Hin|exact Hm].
    + destruct (Hex (i, e) ltac:(left)) as [data Hdata]. cbn [snd] in Hdata.
      pose proof (Hfresh (i, e) ltac:(left)) as Hti. cbn [fst] in Hti.
      unfold subpathRenameFile. rewrite Hdata. cbn [mbind result_bind].
      set (dir' := <[tempFileName i := data]> (delete (entryOld e) dir)).
      assert (Hne_old : forall ie, ie ∈ entries -> entryOld (snd ie) <> entryOld e).
      { intros ie Hin Heq'. apply Ho. rewrite <- Heq'.
        apply list_elem_of_fmap. exists ie. split; [reflexivity|exact Hin]. }
      assert (Hne_idx : forall ie, ie ∈ entries -> tempFileName (fst ie) <> tempFileName i).
      { intros ie Hin Heq'. apply tempFileName_inj in Heq'. apply Hi. rewrite <- Heq'.
        apply list_elem_of_fmap. exists ie. split; [reflexivity|exact Hin]. }
      assert (Hold_temp : forall ie, ie ∈ entries -> entryOld (snd ie) <> tempFileName i).
      { intros ie Hin Heq'. destruct (Htail_ex ie Hin) as [d Hd]. congruence. }
      assert (Hex' : forall ie, ie ∈ entries -> is_Some (dir' !! entryOld (snd ie))).
      { intros ie Hin. unfold dir'.
        rewrite lookup_insert_ne by (intros E; apply (Hold_temp ie Hin); symmetry; exact E).
        rewrite lookup_delete_ne by (intros E; apply (Hne_old ie Hin); symmetry; exact E).
        apply Htail_ex, Hin. }
      assert (Hfresh' : forall ie, ie ∈ entries -> dir' !! tempFileName (fst ie) = None).
      { intros ie Hin. unfold dir'.
        rewrite lookup_insert_ne by (intros E; apply (Hne_idx ie Hin); symmetry; exact E).
        apply lookup_delete_None. right. apply Htail_fresh, Hin. }
      destruct (IH dir' (ftm ++ [(tempFileName i, entryNew e)]) Hidx Hold Hex' Hfresh')
        as (dir1 & Hrun & Ha & Hb & Hc).
      exists dir1. split; [rewrite Hrun, <- app_assoc; reflexivity|].
      assert (Htemp_i : dir1 !! tempFileName i = dir !! entryOld e).
      { rewrite Hc.
        - unfold dir'. rewrite lookup_insert_eq. symmetry. exact Hdata.
        - intros ie Hin _. split.
          + intros E; apply (Hne_idx ie Hin); symmetry; exact E.
          + intros E; apply (Hold_temp ie Hin); symmetry; exact E. }
      assert (Hold_e : dir1 !! entryOld e = None).
      { rewrite Hc.
        - unfold dir'. rewrite lookup_insert_ne by congruence. apply lookup_delete_eq.
        - intros ie Hin _. split.
          + intros E. pose proof (Htail_fresh ie Hin) as Hf. congruence.
          + intros E; apply (Hne_old ie Hin); symmetry; exact E. }
      split; [|split].
      * intros ie Hin Hm. apply elem_of_cons in Hin as [->|Hin]; [exact Htemp_i|].
        rewrite (Ha ie Hin Hm). unfold dir'.
        rewrite lookup_insert_ne by (intros E; apply (Hold_temp ie Hin); symmetry; exact E).
        apply lookup_delete_ne. intros E; apply (Hne_old ie Hin); symmetry; exact E.
      * intros ie Hin Hm. apply elem_of_cons in Hin as [->|Hin]; [exact Hold_e|].
        apply (Hb ie Hin Hm).
      * intros name Hname.
        destruct (Hname (i, e) ltac:(left)) as [Hn1 Hn2];
          [unfold isMoved; cbn; rewrite Heq; reflexivity|]. cbn [fst snd] in Hn1, Hn2.
        rewrite Hc by (intros ie Hin Hm; apply Hname; [right; exact Hin|exact Hm]).
        unfold dir'. rewrite lookup_insert_ne by congruence.
        apply lookup_delete_ne. congruence.
Qed.

Lemma subpathRenameFile_present fromName toName (dir : directory) data :
  dir !! fromName = Some data ->
  subpathRenameFile fromName toName dir = Ok (<[toName := data]> (delete fromName dir)).
Proof. intros H. unfold subpathRenameFile. rewrite H. reflexivity. Qed.

Lemma renameFromTemp_steps (fromTempMapping : list (string * string)) (dir : directory) :
  NoDup (fromTempMapping.*1) ->
  NoDup (fromTempMapping.*2) ->
  (forall t, t ∈ fromTempMapping.*1 -> t ∉ fromTempMapping.*2) ->
  (forall tn, tn ∈ fromTempMapping -> is_Some (dir !! fst tn)) ->
  exists dir2,
    renameFromTemp fromTempMapping dir = Ok dir2
    /\ (forall tn, tn ∈ fromTempMapping -> dir2 !! snd tn = dir !! fst tn)
    /\ (forall tn, tn ∈ fromTempMapping -> dir2 !! fst tn = None)
    /\ (forall name, name ∉ fromTempMapping.*1 -> name ∉ fromTempMapping.*2 ->
          dir2 !! name = dir !! name).
Proof.
  revert dir.
  induction fromTempMapping as [|[t n] ftm IH]; intros dir Ht Hn Hdisj Hex.
  - exists dir. split; [reflexivity|].
    split; [intros tn Hin; inversion Hin|].
    split; [intros tn Hin; inversion Hin|]. reflexivity.
  - cbn [fmap list_fmap fst snd] in Ht, Hn, Hdisj.
    apply NoDup_cons in Ht as [Ht0 Ht]. apply NoDup_cons in Hn as [Hn0 Hn].
    destruct (Hex (t, n) ltac:(left)) as [data Hdata]. cbn [fst] in Hdata.
    assert (Htn : t <> n).
    { intros ->. apply (Hdisj n); left. }
    assert (Hin1 : forall tn, tn ∈ ftm -> fst tn ∈ ftm.*1)
      by (intros tn Hin; apply list_elem_of_fmap; exists tn; auto).
    assert (Hin2 : forall tn, tn ∈ ftm -> snd tn ∈ ftm.*2)
      by (intros tn Hin; apply list_elem_of_fmap; exists tn; auto).
    assert (Hn_temps : n ∉ ftm.*1).
    { intros Hin. apply (Hdisj n); [right; exact Hin | left]. }
    assert (Ht_news : t ∉ ftm.*2).
    { intros Hin. apply (Hdisj t); [left | right; exact Hin]. }
    unfold renameFromTemp. rewrite foldM_cons. cbn [fst snd].
    rewrite (subpathRenameFile_present _ n _ _ Hdata). cbn [mbind result_bind].
    set (dir' := <[n := data]> (delete t dir)).
    assert (Hkeep : forall t', t' ∈ ftm.*1 -> dir' !! t' = dir !! t').
    { intros t' Hin. unfold dir'.
      rewrite lookup_insert_ne by (intros ->; contradiction).
      apply lookup_delete_ne. intros ->. contradiction. }
    destruct (IH dir' Ht Hn) as (dir2 & Hrun & Ha & Hb & Hc).
    { intros t' Hin1' Hin2'. apply (Hdisj t'); right; assumption. }
    { intros tn Hin. rewrite (Hkeep _ (Hin1 tn Hin)). apply Hex. right. exact Hin. }
    exists dir2. split; [exact Hrun|]. split; [|split].
    + intros tn Hin. apply elem_of_cons in Hin as [->|Hin].
      * cbn [fst snd]. rewrite (Hc n Hn_temps Hn0). unfold dir'.
        rewrite lookup_insert_eq. symmetry. exact Hdata.
      * rewrite (Ha tn Hin). apply Hkeep, Hin1, Hin.
    + intros tn Hin. apply elem_of_cons in Hin as [->|Hin]; [|apply (Hb tn Hin)].
      cbn [fst]. rewrite (Hc t Ht0 Ht_news). unfold dir'.
      rewrite lookup_insert_ne by congruence. apply lookup_delete_eq.
    + intros name Hn1 Hn2. apply not_elem_of_cons in Hn1 as [Hn1 Hn1'].
      apply not_elem_of_cons in Hn2 as [Hn2 Hn2'].
      cbn [fst snd] in Hn1, Hn2.
      rewrite (Hc name Hn1' Hn2'). unfold dir'.
      rewrite lookup_insert_ne by congruence. apply lookup_delete_ne. congruence.
Qed.

Lemma elem_of_movedTemps tn entries :
  tn ∈ movedTemps entries
  <-> exists ie, ie ∈ entries /\ isMoved (snd ie) = true
                 /\ tn = (tempFileName (fst ie), entryNew (snd ie)).
Proof.
  unfold movedTemps. rewrite list_elem_of_omap. split.
  - intros (ie & Hin & H). exists ie. destruct (isMoved (snd ie)); [|discriminate].
    injection H as <-. auto.
  - intros (ie & Hin & Hm & ->). exists ie. rewrite Hm. auto.
Qed.

Lemma movedTemps_NoDup_fst entries :
  NoDup (entries.*1) -> NoDup ((movedTemps entries).*1).
Proof.
  induction entries as [|[i e] entries IH]; intros Hnd; [constructor|].
  cbn [fmap list_fmap fst] in Hnd. apply NoDup_cons in Hnd as [Hi Hnd].
  rewrite movedTemps_cons. destruct (isMoved e); [|apply IH, Hnd].
  cbn [fmap list_fmap fst]. apply NoDup_cons. split; [|apply IH, Hnd].
  intros Hin. apply list_elem_of_fmap in Hin as (tn & Htn & Hin).
  apply elem_of_movedTemps in Hin as (ie & Hie & _ & ->). cbn [fst] in Htn.
  apply tempFileName_inj in Htn. apply Hi. rewrite Htn.
  apply list_elem_of_fmap. exists ie. auto.
Qed.

Lemma movedTemps_NoDup_snd entries :
  NoDup (entryNew ∘ snd <$> entries) -> NoDup ((movedTemps entries).*2).
Proof.
  induction entries as [|[i e] entries IH]; intros Hnd; [constructor|].
  cbn [fmap list_fmap snd compose] in Hnd. apply NoDup_cons in Hnd as [Hn Hnd].
  rewrite movedTemps_cons. destruct (isMoved e); [|apply IH, Hnd].
  cbn [fmap list_fmap snd]. apply NoDup_cons. split; [|apply IH, Hnd].
  intros Hin. apply list_elem_of_fmap in Hin as (tn & Htn & Hin).
  apply elem_of_movedTemps in Hin as (ie & Hie & _ & ->). cbn [snd] in Htn.
  apply Hn. rewrite Htn. apply list_elem_of_fmap. exists ie. auto.
Qed.

Lemma enumerate_fst (entries : list entry) :
  (imap (fun i e => (i, e)) entries).*1 = seq 0 (length entries).
Proof.
  rewrite fmap_imap.
  rewrite (imap_ext _ (fun j _ => id j) entries) by reflexivity.
  rewrite imap_seq_0. apply list_fmap_id.
Qed.

Lemma enumerate_snd (entries : list entry) :
  (imap (fun i e => (i, e)) entries).*2 = entries.
Proof.
  rewrite fmap_imap.
  rewrite (imap_ext _ (const id) entries) by reflexivity.
  rewrite imap_const. apply list_fmap_id.
Qed.

Lemma isMoved_false e : isMoved e = false -> entryNew e = entryOld e.
Proof.
  unfold isMoved. intros H. apply negb_false_iff in H. apply String.eqb_eq, H.
Qed.

Lemma same_position {A B : Type} (f : A -> B) (l : list A) i j x y :
  NoDup (f <$> l) -> l !! i = Some x -> l !! j = Some y -> f x = f y ->
  i = j /\ x = y.
Proof.
  intros Hnd Hi Hj Hf.
  assert (i = j) as ->.
  { apply (NoDup_lookup (f <$> l) i j (f x) Hnd).
    - rewrite list_lookup_fmap, Hi. reflexivity.
    - rewrite list_lookup_fmap, Hj, Hf. reflexivity. }
  split; [reflexivity | congruence].
Qed.

(** C7, as the code has it: when the old names are distinct and exist,
    the new names are distinct, and no temporary name
    [org.unifiedfontobject.normalizer.<index>] is in the directory or
    among the new names, the first pass moves every entry whose names
    differ to its temporary name and leaves the others untouched, the
    second pass moves every temporary name to the new name, and in the
    end every entry's content is under its new name, the old names that
    are no new name are gone, and every other file is untouched. *)
Theorem two_pass_rename (entries : list entry) (dir : directory) :
  NoDup (entryOld <$> entries) ->
  NoDup (entryNew <$> entries) ->
  (forall e, e ∈ entries -> is_Some (dir !! entryOld e)) ->
  (forall i, i < length entries ->
     dir !! tempFileName i = None /\ tempFileName i ∉ entryNew <$> entries) ->
  let enumerated := imap (fun i e => (i, e)) entries in
  exists dir1 dir2,
    renameToTemp enumerated dir = Ok (dir1, movedTemps enumerated)
    /\ (forall i e, entries !! i = Some e -> isMoved e = true ->
          dir1 !! tempFileName i = dir !! entryOld e /\ dir1 !! entryOld e = None)
    /\ (forall e, e ∈ entries -> isMoved e = false ->
          dir1 !! entryOld e = dir !! entryOld e)
    /\ renameFromTemp (movedTemps enumerated) dir1 = Ok dir2
    /\ renameGlyphFiles entries dir = Ok dir2
    /\ (forall e, e ∈ entries -> dir2 !! entryNew e = dir !! entryOld e)
    /\ (forall name, name ∉ entryNew <$> entries -> name ∈ entryOld <$> entries ->
          dir2 !! name = None)
    /\ (forall name, name ∉ entryNew <$> entries -> name ∉ entryOld <$> entries ->
          dir2 !! name = dir !! name).
Proof.
  intros Holds Hnews Hex Hfresh enumerated.
  assert (HE : forall ie, ie ∈ enumerated <-> entries !! fst ie = Some (snd ie)).
  { intros [i e]. unfold enumerated. rewrite elem_of_lookup_imap. cbn [fst snd]. split.
    - intros (j & y & [= -> ->] & H). exact H.
    - intros H. exists i, e. auto. }
  assert (Hlen : forall ie, ie ∈ enumerated -> fst ie < length entries).
  { intros ie Hin. apply HE in Hin. eapply lookup_lt_Some, Hin. }
  assert (HinE : forall ie, ie ∈ enumerated -> snd ie ∈ entries).
  { intros ie Hin. apply HE in Hin. eapply list_elem_of_lookup_2, Hin. }
  assert (Hold_temp : forall e i, e ∈ entries -> i < length entries ->
            entryOld e <> tempFileName i).
  { intros e i He Hi Heq. destruct (Hex e He) as [d Hd].
    destruct (Hfresh i Hi) as [Hf _]. congruence. }
  assert (Hnew_temp : forall e i, e ∈ entries -> i < length entries ->
            entryNew e <> tempFileName i).
  { intros e i He Hi Heq. destruct (Hfresh i Hi) as [_ Hf]. apply Hf. rewrite <- Heq.
    apply list_elem_of_fmap. exists e. auto. }
  destruct (renameToTemp_steps enumerated dir []) as (dir1 & Hrun1 & Ha & Hb & Hc).
  { unfold enumerated. rewrite enumerate_fst. apply NoDup_seq. }
  { unfold enumerated. rewrite list_fmap_compose, enumerate_snd. exact Holds. }
  { intros ie Hin. apply Hex, HinE, Hin. }
  { intros ie Hin. apply Hfresh, Hlen, Hin. }
  rewrite app_nil_l in Hrun1.
  assert (Ha' : forall i e, entries !! i = Some e -> isMoved e = true ->
            dir1 !! tempFileName i = dir !! entryOld e).
  { intros i e Hi Hm. apply (Ha (i, e)); [apply HE; exact Hi | exact Hm]. }
  assert (Hb' : forall i e, entries !! i = Some e -> isMoved e = true ->
            dir1 !! entryOld e = None).
  { intros i e Hi Hm. apply (Hb (i, e)); [apply HE; exact Hi | exact Hm]. }
  assert (Hftm : forall tn, tn ∈ movedTemps enumerated ->
            exists i e, entries !! i = Some e /\ isMoved e = true
                        /\ tn = (tempFileName i, entryNew e)).
  { intros tn Hin. apply elem_of_movedTemps in Hin as ([i e] & Hie & Hm & ->).
    apply HE in Hie. exists i, e. auto. }
  assert (Hftm_in : forall i e, entries !! i = Some e -> isMoved e = true ->
            (tempFileName i, entryNew e) ∈ movedTemps enumerated).
  { intros i e Hie Hm. apply elem_of_movedTemps. exists (i, e).
    split; [apply HE; exact Hie | auto]. }
  destruct (renameFromTemp_steps (movedTemps enumerated) dir1)
    as (dir2 & Hrun2 & Ha2 & Hb2 & Hc2).
  { apply movedTemps_NoDup_fst. unfold enumerated. rewrite enumerate_fst. apply NoDup_seq. }
  { apply movedTemps_NoDup_snd. unfold enumerated.
    rewrite list_fmap_compose, enumerate_snd. exact Hnews. }
  { intros t Ht1 Ht2.
    apply list_elem_of_fmap in Ht1 as (tn1 & -> & Hin1).
    apply list_elem_of_fmap in Ht2 as (tn2 & Heq & Hin2).
    apply Hftm in Hin1 as (i & e & Hie & _ & ->).
    apply Hftm in Hin2 as (j & e' & Hje & _ & ->). cbn [fst snd] in Heq.
    apply (Hnew_temp e' i); [eapply list_elem_of_lookup_2, Hje
                            | eapply lookup_lt_Some, Hie | congruence]. }
  { intros tn Hin. apply Hftm in Hin as (i & e & Hie & Hm & ->). cbn [fst].
    rewrite (Ha' i e Hie Hm).
    apply Hex. eapply list_elem_of_lookup_2, Hie. }
  assert (Hunmoved : forall e, e ∈ entries -> isMoved e = false ->
            dir1 !! entryOld e = dir !! entryOld e).
  { intros e He Hm. apply Hc. intros [j e'] Hin Hm'. cbn [fst snd] in Hm' |- *. split.
    - apply Hold_temp; [exact He | apply (Hlen _ Hin)].
    - intros Heq. apply list_elem_of_lookup_1 in He as [i Hi].
      apply HE in Hin. cbn [fst snd] in Hin.
      destruct (same_position entryOld entries i j e e' Holds Hi Hin Heq) as [_ ->].
      congruence. }
  assert (Hfinal : forall e, e ∈ entries -> dir2 !! entryNew e = dir !! entryOld e).
  { intros e He. pose proof He as He'. apply list_elem_of_lookup_1 in He' as [i Hi].
    destruct (isMoved e) eqn:Hm.
    - pose proof (Ha2 _ (Hftm_in i e Hi Hm)) as H2. cbn [fst snd] in H2.
      rewrite H2. apply (Ha' i e Hi Hm).
    - rewrite Hc2.
      + rewrite (isMoved_false _ Hm). apply Hunmoved; assumption.
      + intros Hin. apply list_elem_of_fmap in Hin as (tn & Heq & Hin).
        apply Hftm in Hin as (j & e' & Hj & _ & ->). cbn [fst] in Heq.
        apply (Hnew_temp e j He); [eapply lookup_lt_Some, Hj | exact Heq].
      + intros Hin. apply list_elem_of_fmap in Hin as (tn & Heq & Hin).
        apply Hftm in Hin as (j & e' & Hj & Hm' & ->). cbn [snd] in Heq.
        destruct (same_position entryNew entries i j e e' Hnews Hi Hj Heq) as [_ ->].
        congruence. }
  exists dir1, dir2.
  split; [exact Hrun1|]. split.
  { intros i e Hi Hm. split; [apply (Ha' i e Hi Hm) | apply (Hb' i e Hi Hm)]. }
  split; [exact Hunmoved|]. split; [exact Hrun2|]. split.
  { unfold renameGlyphFiles. fold enumerated. unfold renameToTemp in Hrun1.
    unfold renameToTemp. rewrite Hrun1. exact Hrun2. }
  split; [exact Hfinal|].
  assert (Hnot_news : forall name, name ∉ entryNew <$> entries ->
            name ∉ (movedTemps enumerated).*2).
  { intros name Hn Hin. apply Hn. apply list_elem_of_fmap in Hin as (tn & -> & Hin).
    apply Hftm in Hin as (j & e' & Hj & _ & ->). cbn [snd].
    apply list_elem_of_fmap. exists e'. split; [reflexivity|].
    eapply list_elem_of_lookup_2, Hj. }
  split.
  - intros name Hn Ho. apply list_elem_of_fmap in Ho as (e & -> & He).
    pose proof He as He'. apply list_elem_of_lookup_1 in He' as [i Hi].
    assert (isMoved e = true) as Hm.
    { destruct (isMoved e) eqn:Hm; [reflexivity|]. exfalso. apply Hn.
      rewrite <- (isMoved_false _ Hm). apply list_elem_of_fmap. exists e. auto. }
    rewrite Hc2.
    + apply (Hb' i e Hi Hm).
    + intros Hin. apply list_elem_of_fmap in Hin as (tn & Heq & Hin).
      apply Hftm in Hin as (j & e' & Hj & _ & ->). cbn [fst] in Heq.
      apply (Hold_temp e j He); [eapply lookup_lt_Some, Hj | exact Heq].
    + apply Hnot_news, Hn.
  - intros name Hn Ho.
    destruct (decide (name ∈ (movedTemps enumerated).*1)) as [Hin|Hnin].
    + apply list_elem_of_fmap in Hin as (tn & -> & Hin). rewrite (Hb2 _ Hin).
      apply Hftm in Hin as (j & e' & Hj & _ & ->). cbn [fst snd].
      symmetry. apply Hfresh. eapply lookup_lt_Some, Hj.
    + rewrite (Hc2 name Hnin (Hnot_news name Hn)). apply Hc.
      intros [j e'] Hin Hm'. cbn [fst snd]. apply HE in Hin. cbn [fst snd] in Hin. split.
      * intros ->. apply Hnin. apply list_elem_of_fmap.
        exists (tempFileName j, entryNew e'). split; [reflexivity|].
        apply Hftm_in; assumption.
      * intros ->. apply Ho. apply list_elem_of_fmap. exists e'. split; [reflexivity|].
        eapply list_elem_of_lookup_2, Hin.
Qed.

Ltac not_in_list :=
  let H := fresh in
  intros H; repeat (apply elem_of_cons in H as [H|H]; [discriminate H|]); inversion H.

Ltac nodup_list :=
  repeat (apply NoDup_cons; split; [not_in_list|]); apply NoDup_nil_2.

(** The rename cycle of the specification, with a third entry that
    keeps its name. *)
Lemma two_pass_rename_witness :
  exists dir2,
    renameGlyphFiles [("g1", "x", "y"); ("g2", "y", "x"); ("g3", "z", "z")]
      {[ "x" := "X"; "y" := "Y"; "z" := "Z" ]}
    = Ok dir2
    /\ dir2 !! "y" = Some "X" /\ dir2 !! "x" = Some "Y" /\ dir2 !! "z" = Some "Z".
Proof.
  destruct (two_pass_rename
              [("g1", "x", "y"); ("g2", "y", "x"); ("g3", "z", "z")]
              {[ "x" := "X"; "y" := "Y"; "z" := "Z" ]})
    as (dir1 & dir2 & _ & _ & _ & _ & Hrun & Hfinal & _).
  - vm_compute. nodup_list.
  - vm_compute. nodup_list.
  - intros e He. repeat (apply elem_of_cons in He as [->|He]);
      [eexists; reflexivity .. | inversion He].
  - intros i Hi. destruct i as [|[|[|i]]]; [| | |simpl in Hi; lia];
      (split; [reflexivity | vm_compute; not_in_list]).
  - exists dir2. split; [exact Hrun|].
    split; [apply (Hfinal ("g1", "x", "y")); left|].
    split; [apply (Hfinal ("g2", "y", "x")); right; left|].
    apply (Hfinal ("g3", "z", "z")); right; right; left.
Defined.

(** The claim as worded fails when an old file already bears a
    temporary name: the first pass moves the file a onto it, the
    content B is lost, and the second pass raises. *)
Lemma two_pass_rename_temp_collision :
  let entries := [("g1", "a", "b"); ("g2", "org.unifiedfontobject.normalizer.0", "c")] in
  let dir : directory := {[ "a" := "A"; "org.unifiedfontobject.normalizer.0" := "B" ]} in
  tempFileName 0 = "org.unifiedfontobject.normalizer.0"
  /\ renameToTemp (imap (fun i e => (i, e)) entries) dir
     = Ok ({[ "org.unifiedfontobject.normalizer.1" := "A" ]},
           [("org.unifiedfontobject.normalizer.0", "b");
            ("org.unifiedfontobject.normalizer.1", "c")])
  /\ renameGlyphFiles entries dir = Raise OSError.
Proof. repeat split; vm_compute; reflexivity. Qed.

(** ** User name to file name (claim C4) *)

(** *** The counter loops *)

Lemma searchCounter_running try bound n counter counter' :
  searchCounter try bound n counter = Running counter' ->
  (counter' = counter + 2 ^ N.of_nat n /\ counter' < bound)%N.
Proof.
  revert counter counter'. induction n as [|n IH]; intros c c'.
  - cbn [searchCounter]. destruct (try c); [discriminate|].
    destruct (bound <=? c + 1)%N eqn:E; [discriminate|].
    intros [= <-]. apply N.leb_gt in E. split; [reflexivity | exact E].
  - cbn [searchCounter]. destruct (searchCounter try bound n c) as [| |c1] eqn:E1;
      try discriminate.
    intros E2. apply IH in E1 as [-> _]. apply IH in E2 as [-> Hlt].
    split; [|exact Hlt]. rewrite Nat2N.inj_succ, N.pow_succ_r'. lia.
Qed.

Lemma searchCounter_found try bound n counter name :
  searchCounter try bound n counter = Found name ->
  exists k, try k = Some name /\ (k = counter \/ (counter < k /\ k < bound))%N.
Proof.
  revert counter. induction n as [|n IH]; intros c.
  - cbn [searchCounter]. destruct (try c) as [x|] eqn:E.
    + intros [= <-]. exists c. auto.
    + destruct (bound <=? c + 1)%N; discriminate.
  - cbn [searchCounter]. destruct (searchCounter try bound n c) as [x| |c1] eqn:E1.
    + intros [= <-]. apply IH, E1.
    + discriminate.
    + intros E2. apply searchCounter_running in E1 as [-> Hlt].
      apply IH in E2 as (k & Hk & Hrange). exists k. split; [exact Hk|].
      right. assert (0 < 2 ^ N.of_nat n)%N by (apply N.neq_0_lt_0, N.pow_nonzero; discriminate).
      lia.
Qed.

Lemma handleClash2_fuel existing prefix suffix :
  handleClash2 existing prefix suffix <> Raise LoopFuel.
Proof.
  unfold handleClash2.
  set (maxLength := (maxFileNameLength - Z.of_nat (String.length prefix)
                     - Z.of_nat (String.length suffix))%Z).
  destruct (maxLength <=? 0)%Z eqn:E; [discriminate|]. apply Z.leb_gt in E.
  match goal with |- context [searchCounter ?t ?b ?n ?c] =>
    destruct (searchCounter t b n c) as [x| |c'] eqn:Es end; try discriminate.
  exfalso. apply searchCounter_running in Es as [-> Hlt].
  assert (10 ^ maxLength <= 2 ^ (4 * maxLength))%Z as Hpow.
  { rewrite Z.pow_mul_r by lia. change (2 ^ 4)%Z with 16%Z.
    apply Z.pow_le_mono_l. lia. }
  assert (Z.of_N (2 ^ N.of_nat (4 * Z.to_nat maxLength)) = 2 ^ (4 * maxLength))%Z as Hz.
  { rewrite N2Z.inj_pow. f_equal. lia. }
  assert (0 < 10 ^ maxLength)%Z by (apply Z.pow_pos_nonneg; lia).
  lia.
Qed.

Lemma handleClash1_fuel userName existing prefix suffix :
  handleClash1 userName existing prefix suffix <> Raise LoopFuel.
Proof.
  unfold handleClash1.
  match goal with |- context [searchCounter ?t ?b ?n ?c] =>
    destruct (searchCounter t b n c) as [x| |c'] eqn:Es end.
  - discriminate.
  - apply handleClash2_fuel.
  - exfalso. apply searchCounter_running in Es as [-> Hlt].
    vm_compute in Hlt. discriminate.
Qed.

(** *** Slices, splits and joins *)

Lemma str_all_take P n s : str_all P s = true -> str_all P (str_take n s) = true.
Proof.
  revert n. induction s as [|c s IH]; intros [|n]; try reflexivity.
  simpl. rewrite !andb_true_iff. intros [Hc Hs]. auto.
Qed.

Lemma str_all_slice_to P s n : str_all P s = true -> str_all P (slice_to s n) = true.
Proof. intros H. unfold slice_to. destruct (0 <=? n)%Z; apply str_all_take, H. Qed.

Lemma str_length_take n s : String.length (str_take n s) = Nat.min n (String.length s).
Proof.
  revert n. induction s as [|c s IH]; intros [|n]; try reflexivity.
  simpl. rewrite IH. reflexivity.
Qed.

Lemma str_take_all s : str_take (String.length s) s = s.
Proof. induction s as [|c s IH]; [reflexivity|]. simpl. rewrite IH. reflexivity. Qed.

Lemma slice_to_take s n : exists m, slice_to s n = str_take m s.
Proof. unfold slice_to. destruct (0 <=? n)%Z; eexists; reflexivity. Qed.

Lemma str_split_nonempty c s : str_split c s <> [].
Proof.
  destruct s as [|a s]; [discriminate|]. cbn [str_split].
  destruct (Ascii.eqb a c); [discriminate|]. destruct (str_split c s); discriminate.
Qed.

Lemma str_split_cons_ne c a s :
  Ascii.eqb a c = false -> str_split c (String a s) = headApp (String a EmptyString) (str_split c s).
Proof.
  intros H. cbn [str_split]. rewrite H.
  pose proof (str_split_nonempty c s). destruct (str_split c s); [contradiction | reflexivity].
Qed.

Lemma str_split_plain c s :
  str_all (fun a => negb (Ascii.eqb a c)) s = true -> str_split c s = [s].
Proof.
  induction s as [|a s IH]; [reflexivity|]. simpl. rewrite andb_true_iff, negb_true_iff.
  intros [Ha Hs]. rewrite Ha, (IH Hs). reflexivity.
Qed.

Lemma str_split_parts_plain c s :
  Forall (fun p => str_all (fun a => negb (Ascii.eqb a c)) p = true) (str_split c s).
Proof.
  induction s as [|a s IH]; [repeat constructor|]. cbn [str_split].
  destruct (Ascii.eqb a c) eqn:E; [constructor; [reflexivity | exact IH]|].
  destruct (str_split c s) as [|p ps]; [repeat constructor; simpl; rewrite E; reflexivity|].
  inversion IH as [|? ? Hp Hps]; subst. constructor; [|exact Hps].
  simpl. rewrite E, Hp. reflexivity.
Qed.

Lemma str_split_all P c s :
  str_all P s = true -> Forall (fun p => str_all P p = true) (str_split c s).
Proof.
  induction s as [|a s IH]; [repeat constructor|]. simpl. rewrite andb_true_iff.
  intros [Ha Hs]. specialize (IH Hs).
  destruct (Ascii.eqb a c); [constructor; [reflexivity | exact IH]|].
  destruct (str_split c s) as [|p ps]; [repeat constructor; simpl; rewrite Ha; reflexivity|].
  inversion IH as [|? ? Hp Hps]; subst. constructor; [|exact Hps].
  simpl. rewrite Ha, Hp. reflexivity.
Qed.

Lemma str_join_cons sep p q l :
  str_join sep (p :: q :: l) = p +:+ sep +:+ str_join sep (q :: l).
Proof. reflexivity. Qed.

Lemma str_join_all P sep l :
  str_all P sep = true -> Forall (fun p => str_all P p = true) l ->
  str_all P (str_join sep l) = true.
Proof.
  intros Hsep. induction 1 as [|p l Hp Hl IH]; [reflexivity|].
  destruct l as [|q l]; [exact Hp|].
  rewrite str_join_cons, !str_all_app, Hp, Hsep, IH. reflexivity.
Qed.

Lemma str_split_app_sep c p rest :
  str_all (fun a => negb (Ascii.eqb a c)) p = true ->
  str_split c (p +:+ String c rest) = p :: str_split c rest.
Proof.
  induction p as [|a p IH]; intros H.
  - rewrite str_app_nil_l. cbn [str_split]. rewrite Ascii.eqb_refl. reflexivity.
  - simpl in H. apply andb_true_iff in H as [Ha Hp]. apply negb_true_iff in Ha.
    rewrite str_app_cons. cbn [str_split]. rewrite Ha, (IH Hp). reflexivity.
Qed.

Lemma str_split_join c l :
  l <> [] ->
  Forall (fun p => str_all (fun a => negb (Ascii.eqb a c)) p = true) l ->
  str_split c (str_join (String c EmptyString) l) = l.
Proof.
  intros Hne H. induction H as [|p l Hp Hl IH]; [contradiction|].
  destruct l as [|q l]; [apply str_split_plain, Hp|].
  rewrite str_join_cons.
  change (String c EmptyString +:+ str_join (String c EmptyString) (q :: l))
    with (String c (str_join (String c EmptyString) (q :: l))).
  rewrite (str_split_app_sep _ _ _ Hp), IH by discriminate. reflexivity.
Qed.

Lemma str_join_split c s : str_join (String c EmptyString) (str_split c s) = s.
Proof.
  induction s as [|a s IH]; [reflexivity|]. cbn [str_split].
  destruct (Ascii.eqb_spec a c) as [->|Hne].
  - pose proof (str_split_nonempty c s).
    destruct (str_split c s) as [|p ps] eqn:E; [contradiction|].
    rewrite str_join_cons, IH. reflexivity.
  - destruct (str_split c s) as [|p [|q ps]] eqn:E.
    + exfalso. eapply str_split_nonempty, E.
    + simpl in IH. simpl. rewrite IH. reflexivity.
    + rewrite str_join_cons in IH. rewrite str_join_cons, str_app_cons, IH. reflexivity.
Qed.

(** Cutting a text and appending a dot-free tail keeps every part that
    stays whole and replaces the last one by a text that ends with the
    tail. *)
Lemma parts_take_app (Q : string -> Prop) c tail :
  str_all (fun a => negb (Ascii.eqb a c)) tail = true ->
  (forall p, Q (p +:+ tail)) ->
  forall s m a,
    Forall Q (headApp a (str_split c s)) ->
    Forall Q (headApp a (str_split c (str_take m s +:+ tail))).
Proof.
  intros Htail HQ.
  assert (Hbase : forall a, Forall Q (headApp a (str_split c tail))).
  { intros a. rewrite (str_split_plain _ _ Htail). repeat constructor. apply HQ. }
  induction s as [|x s IH]; intros m a H.
  - destruct m; apply Hbase.
  - destruct m as [|m]; [apply Hbase|].
    cbn [str_take]. rewrite str_app_cons.
    destruct (Ascii.eqb x c) eqn:E.
    + cbn [str_split] in H |- *. rewrite E in H |- *. cbn [headApp] in H |- *.
      inversion H as [|? ? Ha Hs]; subst. constructor; [exact Ha|].
      specialize (IH m EmptyString).
      assert (forall l, headApp EmptyString l = l) as Hid by (intros [|? ?]; reflexivity).
      rewrite !Hid in IH. apply IH, Hs.
    + rewrite (str_split_cons_ne c x s E) in H.
      rewrite (str_split_cons_ne c x _ E).
      assert (forall l, headApp a (headApp (String x EmptyString) l)
                        = headApp (a +:+ String x EmptyString) l) as Hcomp.
      { intros [|h t]; [reflexivity|]. cbn [headApp]. rewrite str_app_assoc. reflexivity. }
      rewrite Hcomp in H. rewrite Hcomp. apply IH, H.
Qed.

(** *** The width of a numeral *)

Lemma to_uint_normal n : Decimal.unorm (N.to_uint n) = N.to_uint n.
Proof.
  rewrite <- (DecimalN.Unsigned.of_to n) at 2. symmetry. apply DecimalN.Unsigned.to_of.
Qed.

Lemma str_of_N_length n width :
  0 < width -> (n < 10 ^ N.of_nat width)%N -> String.length (str_of_N n) <= width.
Proof.
  intros Hw Hn. pose proof (digits_fold_str_of_N n) as Hval.
  pose proof (to_uint_normal n) as Hnorm. unfold str_of_N in *.
  destruct (Decimal.uint_eq_dec (Decimal.nzhead (N.to_uint n)) Decimal.Nil) as [Hz|Hnz].
  - apply unorm_0 in Hz. rewrite Hnorm in Hz. rewrite Hz. simpl. lia.
  - rewrite (unorm_nzhead _ Hnz) in Hnorm.
    assert (Hlow : forall c s, NilEmpty.string_of_uint (N.to_uint n) = String c s ->
              (1 <= digit_of_char c)%N -> String.length (String c s) <= width).
    { intros c s Hs Hc. rewrite Hs in Hval. cbn [digits_fold] in Hval.
      rewrite digits_fold_shift in Hval. cbn [String.length].
      destruct (le_lt_dec width (String.length s)) as [Hge|Hlt]; [exfalso|lia].
      assert (10 ^ N.of_nat width <= 10 ^ N.of_nat (String.length s))%N
        by (apply N.pow_le_mono_r; lia).
      assert (10 ^ N.of_nat (String.length s)
              <= (0 * 10 + digit_of_char c) * 10 ^ N.of_nat (String.length s))%N
        by nia.
      lia. }
    destruct (N.to_uint n) as [|d|d|d|d|d|d|d|d|d|d] eqn:E;
      try (apply (Hlow _ _ eq_refl); vm_compute; discriminate).
    + contradiction.
    + exfalso. exact (nzhead_nonzero _ _ Hnorm).
Qed.

Lemma str_length_zfill w s : String.length s <= w -> String.length (zfill w s) = w.
Proof.
  intros H. unfold zfill. rewrite str_length_app.
  assert (forall c k, String.length (str_repeat c k) = k) as Hrep.
  { intros c k. induction k; simpl; auto. }
  rewrite Hrep. lia.
Qed.

Lemma str_all_repeat P c n : P c = true -> str_all P (str_repeat c n) = true.
Proof. intros H. induction n; simpl; [reflexivity | rewrite H; assumption]. Qed.

Lemma str_all_zfill P w s :
  P "0"%char = true -> str_all P s = true -> str_all P (zfill w s) = true.
Proof.
  intros H0 Hs. unfold zfill. rewrite str_all_app, Hs, (str_all_repeat P _ _ H0). reflexivity.
Qed.

(** *** Legal characters and reserved parts *)

Lemma legal_underscore_app c :
  legal c = true -> str_all legal (String c "_") = true.
Proof. intros H. cbn [str_all]. rewrite H. reflexivity. Qed.

Lemma filterCharacter_legal c : str_all legal (filterCharacter c) = true.
Proof.
  unfold filterCharacter. destruct (is_illegal c) eqn:E; [reflexivity|].
  assert (legal c = true) as H by (unfold legal; rewrite E; reflexivity).
  destruct (negb (Ascii.eqb c (chr_lower c))); cbn [str_all]; rewrite H; reflexivity.
Qed.

Lemma str_flat_map_all P f s :
  (forall c, str_all P (f c) = true) -> str_all P (str_flat_map f s) = true.
Proof.
  intros H. induction s as [|c s IH]; [reflexivity|].
  cbn [str_flat_map]. rewrite str_all_app, H, IH. reflexivity.
Qed.

Lemma digit_legal c : is_digit c = true -> legal c = true.
Proof. ascii_cases c. Qed.

Lemma digit_not_sep c : is_digit c = true -> negb (Ascii.eqb c ".") = true.
Proof. ascii_cases c. Qed.

Lemma str_length_map f s : String.length (str_map f s) = String.length s.
Proof. induction s; cbn [str_map String.length]; congruence. Qed.

Lemma reserved_short x : str_in x reservedFileNames = true -> String.length x <= 6.
Proof.
  unfold str_in, reservedFileNames. cbn [existsb]. rewrite !orb_true_iff.
  intros H. repeat destruct H as [H|H]; try discriminate;
    apply String.eqb_eq in H; subst x; cbn; lia.
Qed.

Lemma long_notReserved p : 6 < String.length p -> notReserved p = true.
Proof.
  intros H. unfold notReserved. destruct (str_in (str_lower p) reservedFileNames) eqn:E;
    [|reflexivity].
  apply reserved_short in E. unfold str_lower in E. rewrite str_length_map in E. lia.
Qed.

Lemma underscore_notReserved p : notReserved (String "_" p) = true.
Proof. reflexivity. Qed.

Lemma digit_notReserved c r : is_digit c = true -> notReserved (String c r) = true.
Proof. ascii_cases c. Qed.

Lemma guardReserved_notReserved p : notReserved (guardReserved p) = true.
Proof.
  unfold guardReserved. destruct (str_in (str_lower p) reservedFileNames) eqn:E.
  - apply underscore_notReserved.
  - unfold notReserved. rewrite E. reflexivity.
Qed.

Lemma guardReserved_all P p :
  P "_"%char = true -> str_all P p = true -> str_all P (guardReserved p) = true.
Proof.
  intros H0 Hp. unfold guardReserved. destruct (str_in _ _); [|exact Hp].
  cbn [str_all]. rewrite H0, Hp. reflexivity.
Qed.

Lemma guardReserved_id p : notReserved p = true -> guardReserved p = p.
Proof.
  unfold notReserved, guardReserved. destruct (str_in _ _); [discriminate|reflexivity].
Qed.

(** *** The guarded name *)

Lemma guardedName_parts clipped :
  str_split "." (guardedName clipped) = map guardReserved (str_split "." clipped).
Proof.
  unfold guardedName. apply (str_split_join ".").
  - intros H. apply map_eq_nil in H. exact (str_split_nonempty _ _ H).
  - apply Forall_map. eapply Forall_impl; [apply str_split_parts_plain|].
    intros p Hp. cbn beta. apply guardReserved_all; [reflexivity | exact Hp].
Qed.

Lemma guardedName_legal clipped :
  str_all legal clipped = true -> str_all legal (guardedName clipped) = true.
Proof.
  intros H. unfold guardedName. apply str_join_all; [reflexivity|].
  apply Forall_map. eapply Forall_impl; [apply str_split_all, H|].
  intros p Hp. cbn beta in *. apply guardReserved_all; [reflexivity | exact Hp].
Qed.

Lemma guardedName_notReserved clipped :
  Forall (fun part => notReserved part = true) (str_split "." (guardedName clipped)).
Proof.
  rewrite guardedName_parts. apply Forall_map, Forall_forall. intros p _.
  apply guardReserved_notReserved.
Qed.

Lemma guardedName_id clipped :
  Forall (fun part => notReserved part = true) (str_split "." clipped) ->
  guardedName clipped = clipped.
Proof.
  intros H. unfold guardedName.
  rewrite <- (str_join_split "." clipped) at 2. f_equal.
  induction H as [|p l Hp _ IH]; [reflexivity|].
  cbn [map]. rewrite guardReserved_id, IH by exact Hp. reflexivity.
Qed.

Lemma clippedUserName_legal userName prefix suffix :
  str_all legal (clippedUserName userName prefix suffix) = true.
Proof. unfold clippedUserName. apply str_all_slice_to, str_flat_map_all, filterCharacter_legal. Qed.

Lemma str_length_slice_to s n :
  String.length (slice_to s n) <= Z.to_nat n \/ (n < 0)%Z.
Proof.
  unfold slice_to. destruct (0 <=? n)%Z eqn:E.
  - left. rewrite str_length_take. lia.
  - right. lia.
Qed.

(** [userNameToFileName] in terms of the clipped and guarded name. *)
Lemma userNameToFileName_eq userName existing prefix suffix :
  userNameToFileName userName existing prefix suffix =
  match prefix, userName with
  | EmptyString, EmptyString => Raise IndexError
  | _, _ =>
      let body := guardedName (clippedUserName userName prefix suffix) in
      if str_in (str_lower (prefix +:+ body +:+ suffix)) existing
      then handleClash1 body existing prefix suffix
      else Ok (prefix +:+ body +:+ suffix)
  end.
Proof.
  unfold userNameToFileName, clippedUserName, guardedName.
  destruct prefix as [|p prefix]; [destruct userName as [|c userName]|]; try reflexivity.
  destruct c as [[] [] [] [] [] [] [] []]; reflexivity.
Qed.

(** *** The names made on a clash *)

Lemma handleClash2_ok existing prefix suffix name :
  handleClash2 existing prefix suffix = Ok name ->
  exists k,
    name = prefix +:+ str_of_N k +:+ suffix
    /\ str_in (str_lower name) existing = false
    /\ String.length prefix + String.length (str_of_N k) + String.length suffix <= 255.
Proof.
  unfold handleClash2.
  set (maxLength := (maxFileNameLength - Z.of_nat (String.length prefix)
                     - Z.of_nat (String.length suffix))%Z).
  destruct (maxLength <=? 0)%Z eqn:E; [discriminate|]. apply Z.leb_gt in E.
  match goal with |- context [searchCounter ?t ?b ?n ?c] =>
    destruct (searchCounter t b n c) as [x| |c'] eqn:Es end; try discriminate.
  intros [= ->]. apply searchCounter_found in Es as (k & Hk & Hrange).
  cbv beta zeta in Hk.
  destruct (str_in (str_lower (prefix +:+ str_of_N k +:+ suffix)) existing) eqn:Hin;
    [discriminate|]. cbn [negb] in Hk. injection Hk as <-.
  exists k. split; [reflexivity|]. split; [exact Hin|].
  assert (String.length (str_of_N k) <= Z.to_nat maxLength) as Hlen.
  { apply str_of_N_length; [lia|].
    assert (0 < 10 ^ maxLength)%Z by (apply Z.pow_pos_nonneg; lia).
    assert (1 < 10 ^ maxLength)%Z.
    { replace maxLength with (Z.succ (maxLength - 1)) by lia.
      rewrite Z.pow_succ_r by lia.
      assert (0 < 10 ^ (maxLength - 1))%Z by (apply Z.pow_pos_nonneg; lia). lia. }
    assert (Z.of_N (10 ^ N.of_nat (Z.to_nat maxLength)) = 10 ^ maxLength)%Z as Hz.
    { rewrite N2Z.inj_pow. f_equal. lia. }
    lia. }
  unfold maxFileNameLength in maxLength. lia.
Qed.

Lemma handleClash1_ok userName existing prefix suffix name :
  handleClash1 userName existing prefix suffix = Ok name ->
  str_in (str_lower name) existing = false
  /\ ((exists m k,
         name = prefix +:+ (str_take m userName +:+ zfill 15 (str_of_N k)) +:+ suffix
         /\ String.length (zfill 15 (str_of_N k)) = 15
         /\ (String.length prefix + String.length suffix <= 240 ->
             String.length name <= 255))
      \/ (exists k,
            name = prefix +:+ str_of_N k +:+ suffix
            /\ String.length name <= 255)).
Proof.
  unfold handleClash1.
  set (l := (Z.of_nat (String.length prefix) + Z.of_nat (String.length userName)
             + Z.of_nat (String.length suffix) + 15)%Z).
  set (userName' := if (maxFileNameLength <? l)%Z
                    then slice_to userName (maxFileNameLength - l) else userName).
  match goal with |- context [searchCounter ?t ?b ?n ?c] =>
    destruct (searchCounter t b n c) as [x| |c'] eqn:Es end; try discriminate.
  - intros [= ->]. apply searchCounter_found in Es as (k & Hk & Hrange).
    cbv beta zeta in Hk.
    destruct (str_in (str_lower (prefix +:+ (userName' +:+ zfill 15 (str_of_N k)) +:+ suffix))
                existing) eqn:Hin; [discriminate|].
    cbn [negb] in Hk. injection Hk as <-. split; [exact Hin|]. left.
    assert (String.length (zfill 15 (str_of_N k)) = 15) as Hz.
    { apply str_length_zfill, str_of_N_length; [lia|].
      change (10 ^ N.of_nat 15)%N with 1000000000000000%N. lia. }
    assert (exists m, userName' = str_take m userName
                      /\ (String.length prefix + String.length suffix <= 240 ->
                          String.length prefix + String.length userName'
                          + String.length suffix <= 240)) as (m & Hm & Hlen).
    { subst userName'. unfold maxFileNameLength. destruct (255 <? l)%Z eqn:El.
      - apply Z.ltb_lt in El. unfold slice_to.
        destruct (0 <=? 255 - l)%Z eqn:E0; [apply Z.leb_le in E0; lia|].
        eexists. split; [reflexivity|]. intros H. rewrite str_length_take. lia.
      - apply Z.ltb_ge in El. exists (String.length userName).
        split; [symmetry; apply str_take_all | lia]. }
    exists m, k. rewrite <- Hm. split; [reflexivity|]. split; [exact Hz|].
    intros H. specialize (Hlen H). rewrite !str_length_app, Hz. lia.
  - intros H. apply handleClash2_ok in H as (k & -> & Hin & Hlen).
    split; [exact Hin|]. right. exists k. split; [reflexivity|].
    rewrite !str_length_app. lia.
Qed.

Lemma headApp_empty l : headApp "" l = l.
Proof. destruct l; reflexivity. Qed.

Lemma handleClash2_raise existing prefix suffix e :
  handleClash2 existing prefix suffix = Raise e ->
  (e = ValueError /\ 255 <= String.length prefix + String.length suffix)
  \/ e = NameError.
Proof.
  pose proof (handleClash2_fuel existing prefix suffix) as Hfuel. revert Hfuel.
  unfold handleClash2, maxFileNameLength.
  destruct (_ <=? 0)%Z eqn:E.
  - intros _ [= <-]. left. apply Z.leb_le in E. split; [reflexivity | lia].
  - match goal with |- context [searchCounter ?t ?b ?n ?c] =>
      destruct (searchCounter t b n c) as [x| |c'] end.
    + discriminate.
    + intros _ [= <-]. right. reflexivity.
    + intros Hfuel. contradiction.
Qed.

Lemma handleClash1_raise userName existing prefix suffix e :
  handleClash1 userName existing prefix suffix = Raise e ->
  (e = ValueError /\ 255 <= String.length prefix + String.length suffix)
  \/ e = NameError.
Proof.
  pose proof (handleClash1_fuel userName existing prefix suffix) as Hfuel. revert Hfuel.
  unfold handleClash1.
  match goal with |- context [searchCounter ?t ?b ?n ?c] =>
    destruct (searchCounter t b n c) as [x| |c'] end.
  - discriminate.
  - intros _. apply handleClash2_raise.
  - intros Hfuel. contradiction.
Qed.

(** X1: a name that [userNameToFileName] returns is, in lower case, none
    of the [existing] names: on the direct path by the test of the
    function itself, on a clash by the test in the loops of
    [handleClash1] and [handleClash2]. *)
Theorem userNameToFileName_no_clash userName existing prefix suffix fullName :
  userNameToFileName userName existing prefix suffix = Ok fullName ->
  str_in (str_lower fullName) existing = false.
Proof.
  rewrite userNameToFileName_eq. cbv zeta.
  set (body := guardedName (clippedUserName userName prefix suffix)).
  assert ((if str_in (str_lower (prefix +:+ body +:+ suffix)) existing
           then handleClash1 body existing prefix suffix
           else Ok (prefix +:+ body +:+ suffix)) = Ok fullName ->
          str_in (str_lower fullName) existing = false) as Hmain.
  { destruct (str_in (str_lower (prefix +:+ body +:+ suffix)) existing) eqn:E.
    - intros H. apply handleClash1_ok in H. tauto.
    - intros [= <-]. exact E. }
  destruct prefix, userName; try discriminate; exact Hmain.
Qed.

Lemma userNameToFileName_no_clash_witness :
  userNameToFileName "a" ["a.glif"] "" ".glif" = Ok "a000000000000001.glif"
  /\ str_in (str_lower "a000000000000001.glif") ["a.glif"] = false.
Proof.
  split; [vm_compute; reflexivity|].
  apply (userNameToFileName_no_clash "a" ["a.glif"] "" ".glif"). vm_compute. reflexivity.
Defined.

(** X2: the name that [userNameToFileName] returns is the prefix, a body
    and the suffix, where the body holds no illegal character and none
    of its dot-separated parts is a reserved file name, in any case of
    the letters.  Prefix and suffix are copied as given. *)
Theorem userNameToFileName_body_legal userName existing prefix suffix fullName :
  userNameToFileName userName existing prefix suffix = Ok fullName ->
  exists body,
    fullName = prefix +:+ body +:+ suffix
    /\ str_all legal body = true
    /\ Forall (fun part => notReserved part = true) (str_split "." body).
Proof.
  rewrite userNameToFileName_eq. cbv zeta.
  set (clipped := clippedUserName userName prefix suffix).
  assert (str_all legal clipped = true) as Hclipped by apply clippedUserName_legal.
  set (body := guardedName clipped).
  assert ((if str_in (str_lower (prefix +:+ body +:+ suffix)) existing
           then handleClash1 body existing prefix suffix
           else Ok (prefix +:+ body +:+ suffix)) = Ok fullName ->
          exists body,
            fullName = prefix +:+ body +:+ suffix
            /\ str_all legal body = true
            /\ Forall (fun part => notReserved part = true) (str_split "." body)) as Hmain.
  { destruct (str_in (str_lower (prefix +:+ body +:+ suffix)) existing).
    - intros H. apply handleClash1_ok in H as [_ [(m & k & -> & Hz & _)|(k & -> & _)]].
      + exists (str_take m body +:+ zfill 15 (str_of_N k)).
        split; [reflexivity|]. split.
        * rewrite str_all_app, str_all_take by apply guardedName_legal, Hclipped.
          apply str_all_zfill; [reflexivity|].
          eapply str_all_impl; [apply digit_legal | apply str_of_N_digits].
        * rewrite <- (headApp_empty (str_split _ _)).
          apply (parts_take_app (fun part => notReserved part = true)).
          -- apply str_all_zfill; [reflexivity|].
             eapply str_all_impl; [apply digit_not_sep | apply str_of_N_digits].
          -- intros p. apply long_notReserved. rewrite str_length_app, Hz. lia.
          -- rewrite headApp_empty. apply guardedName_notReserved.
      + exists (str_of_N k). split; [reflexivity|]. split.
        * eapply str_all_impl; [apply digit_legal | apply str_of_N_digits].
        * rewrite str_split_plain
            by (eapply str_all_impl; [apply digit_not_sep | apply str_of_N_digits]).
          constructor; [|constructor].
          destruct (str_of_N_cons k) as (c & r & -> & Hc).
          apply digit_notReserved, Hc.
    - intros [= <-]. exists body. split; [reflexivity|]. split.
      + apply guardedName_legal, Hclipped.
      + apply guardedName_notReserved. }
  destruct prefix, userName; try discriminate; exact Hmain.
Qed.

Lemma userNameToFileName_body_legal_witness :
  userNameToFileName "alt.con" [] "" ".glif" = Ok "alt._con.glif"
  /\ exists body,
       "alt._con.glif" = "" +:+ body +:+ ".glif"
       /\ str_all legal body = true
       /\ Forall (fun part => notReserved part = true) (str_split "." body).
Proof.
  split; [vm_compute; reflexivity|].
  apply (userNameToFileName_body_legal "alt.con" [] "" ".glif"). vm_compute. reflexivity.
Defined.

(** X3: the returned name is at most 255 characters long when prefix
    and suffix take at most 240 characters together and no part of the
    clipped user name is a reserved file name (the underscore put
    before a reserved part is added after the clipping). *)
Theorem userNameToFileName_length userName existing prefix suffix fullName :
  userNameToFileName userName existing prefix suffix = Ok fullName ->
  String.length prefix + String.length suffix <= 240 ->
  Forall (fun part => notReserved part = true)
         (str_split "." (clippedUserName userName prefix suffix)) ->
  String.length fullName <= 255.
Proof.
  rewrite userNameToFileName_eq. cbv zeta. intros H Hroom Hparts.
  rewrite (guardedName_id _ Hparts) in H.
  set (clipped := clippedUserName userName prefix suffix) in *.
  assert (String.length prefix + String.length clipped + String.length suffix <= 255)
    as Hclipped.
  { subst clipped. unfold clippedUserName, maxFileNameLength.
    match goal with |- context [slice_to ?s ?n] =>
      destruct (str_length_slice_to s n) as [Hl|Hl] end; lia. }
  assert ((if str_in (str_lower (prefix +:+ clipped +:+ suffix)) existing
           then handleClash1 clipped existing prefix suffix
           else Ok (prefix +:+ clipped +:+ suffix)) = Ok fullName ->
          String.length fullName <= 255) as Hmain.
  { destruct (str_in (str_lower (prefix +:+ clipped +:+ suffix)) existing).
    - intros H'. apply handleClash1_ok in H' as [_ [(m & k & _ & _ & Hlen)|(k & _ & Hlen)]].
      + apply Hlen, Hroom.
      + exact Hlen.
    - intros [= <-]. rewrite !str_length_app. lia. }
  destruct prefix, userName; try discriminate; apply Hmain, H.
Qed.

Lemma userNameToFileName_length_witness :
  userNameToFileName (str_repeat "a" 300) [] "" ".glif"
  = Ok (str_repeat "a" 250 +:+ ".glif")
  /\ String.length (str_repeat "a" 250 +:+ ".glif") <= 255.
Proof.
  split; [vm_compute; reflexivity|].
  apply (userNameToFileName_length (str_repeat "a" 300) [] "" ".glif").
  - vm_compute. reflexivity.
  - vm_compute. lia.
  - vm_compute. repeat constructor.
Defined.

(** X4: [userNameToFileName] fails in three ways only: with an
    [IndexError] on the empty user name with the empty prefix (the test
    of [userName[0]]), and, when the name clashes with an existing one
    and both counter loops are exhausted, with a [ValueError] (no room
    is left between prefix and suffix, [int] of the empty string) or
    the [NameError] of the undefined [NameTranslationError]. *)
Theorem userNameToFileName_errors userName existing prefix suffix e :
  userNameToFileName userName existing prefix suffix = Raise e ->
  (e = IndexError /\ userName = "" /\ prefix = "")
  \/ (existing <> []
      /\ ((e = ValueError /\ 255 <= String.length prefix + String.length suffix)
          \/ e = NameError)).
Proof.
  rewrite userNameToFileName_eq. cbv zeta.
  set (body := guardedName (clippedUserName userName prefix suffix)).
  assert ((if str_in (str_lower (prefix +:+ body +:+ suffix)) existing
           then handleClash1 body existing prefix suffix
           else Ok (prefix +:+ body +:+ suffix)) = Raise e ->
          existing <> []
          /\ ((e = ValueError /\ 255 <= String.length prefix + String.length suffix)
              \/ e = NameError)) as Hmain.
  { destruct (str_in (str_lower (prefix +:+ body +:+ suffix)) existing) eqn:E;
      [|discriminate].
    intros H. split; [|exact (handleClash1_raise _ _ _ _ _ H)].
    intros ->. discriminate. }
  destruct prefix, userName; try (intros H; right; exact (Hmain H)).
  intros [= <-]. left. auto.
Qed.

Lemma userNameToFileName_errors_witness :
  userNameToFileName "" ["a"] "" ".glif" = Raise IndexError
  /\ ((IndexError = IndexError /\ "" = "" /\ "" = "")
      \/ (["a"] <> []
          /\ ((IndexError = ValueError /\ 255 <= String.length "" + String.length ".glif")
              \/ IndexError = NameError))).
Proof.
  split; [reflexivity|].
  apply (userNameToFileName_errors "" ["a"] "" ".glif"). reflexivity.
Defined.

(** ** Escaping: what the escaped text holds *)

Lemma str_flat_map_all_impl (P Q : ascii -> bool) f s :
  (forall c, P c = true -> str_all Q (f c) = true) ->
  str_all P s = true -> str_all Q (str_flat_map f s) = true.
Proof.
  intros H. induction s as [|c s IH]; [reflexivity|].
  cbn [str_all str_flat_map]. intros [Hc Hs]%andb_true_iff.
  rewrite str_all_app, (H c Hc), (IH Hs). reflexivity.
Qed.

Lemma escapeTextCharacter_noAngle c : str_all noAngle (escapeTextCharacter c) = true.
Proof. destruct c as [[] [] [] [] [] [] [] []]; reflexivity. Qed.

(** X5: the text that [xmlEscapeText] returns holds no angle bracket,
    whatever the text given. *)
Theorem xmlEscapeText_no_angle text :
  str_all noAngle (xmlEscapeText text) = true.
Proof.
  rewrite xmlEscapeText_characters. apply str_flat_map_all, escapeTextCharacter_noAngle.
Qed.

(** X6: the text that [xmlEscapeAttribute] returns holds no angle
    bracket and no double quote, whatever the text given. *)
Theorem xmlEscapeAttribute_no_angle_no_quote text :
  str_all noAngleNoQuote (xmlEscapeAttribute text) = true.
Proof.
  unfold xmlEscapeAttribute, str_replace.
  apply (str_flat_map_all_impl noAngle);
    [|rewrite xmlEscapeText_characters; apply str_flat_map_all, escapeTextCharacter_noAngle].
  intros c. destruct c as [[] [] [] [] [] [] [] []]; intros H; try discriminate H; reflexivity.
Qed.

Lemma escapeTextCharacter_cons c :
  exists d r, escapeTextCharacter c = String d r
    /\ ((d = c /\ r = "" /\ c <> "&"%char)
        \/ (c = "&"%char /\ d = "&"%char /\ r = "amp;")
        \/ (c = "<"%char /\ d = "&"%char /\ r = "lt;")
        \/ (c = ">"%char /\ d = "&"%char /\ r = "gt;")).
Proof.
  unfold escapeTextCharacter.
  destruct (Ascii.eqb_spec c "&") as [->|Hamp]; [eauto 10|].
  destruct (Ascii.eqb_spec c "<") as [->|Hlt]; [eauto 10|].
  destruct (Ascii.eqb_spec c ">") as [->|Hgt]; [eauto 10|].
  exists c, "". auto.
Qed.

Lemma escapeTextCharacter_app_inj c1 c2 r1 r2 :
  escapeTextCharacter c1 +:+ r1 = escapeTextCharacter c2 +:+ r2 ->
  c1 = c2 /\ r1 = r2.
Proof.
  destruct (escapeTextCharacter_cons c1) as (d1 & t1 & -> & H1).
  destruct (escapeTextCharacter_cons c2) as (d2 & t2 & -> & H2).
  destruct H1 as [(-> & -> & N1)|[(-> & -> & ->)|[(-> & -> & ->)|(-> & -> & ->)]]];
  destruct H2 as [(-> & -> & N2)|[(-> & -> & ->)|[(-> & -> & ->)|(-> & -> & ->)]]];
  cbn; intros H; try discriminate H; try (injection H; intros; subst; auto; fail);
  injection H; intros; subst; try contradiction; try discriminate.
Qed.

(** X7: [xmlEscapeText] is injective: two texts with the same escaped
    form are the same text, so the escaping loses nothing. *)
Theorem xmlEscapeText_injective a b :
  xmlEscapeText a = xmlEscapeText b -> a = b.
Proof.
  rewrite !xmlEscapeText_characters. revert b.
  induction a as [|c a IH]; intros [|d b]; cbn [str_flat_map].
  - reflexivity.
  - destruct (escapeTextCharacter_cons d) as (x & r & -> & _). discriminate.
  - destruct (escapeTextCharacter_cons c) as (x & r & -> & _). discriminate.
  - intros H. apply escapeTextCharacter_app_inj in H as [-> H]. f_equal. apply IH, H.
Qed.

Lemma xmlEscapeText_injective_witness :
  xmlEscapeText "a<b" = xmlEscapeText ("a<" +:+ "b") /\ "a<b" = "a<" +:+ "b".
Proof.
  split; [reflexivity|]. apply (xmlEscapeText_injective "a<b" ("a<" +:+ "b")). reflexivity.
Defined.

(** ** The numeric format read back *)














(** ** Colors read back *)








(** X11: [_normalizeColorString] raises no exception, whatever the
    string: an unusable color is answered by [None]. *)
Theorem _normalizeColorString_never_raises value e :
  _normalizeColorString value <> Raise e.
Proof. rewrite _normalizeColorString_spec. discriminate. Qed.

(** ** Dictionaries *)

Lemma dict_get_set_eq {V : Type} k (v : V) d : dict_get k (dict_set k v d) = Some v.
Proof.
  induction d as [|[k' v'] d IH]; cbn [dict_set dict_get].
  - rewrite String.eqb_refl. reflexivity.
  - destruct (String.eqb k k') eqn:E; cbn [dict_get]; rewrite ?String.eqb_refl, ?E; auto.
Qed.

Lemma dict_get_set_ne {V : Type} k k' (v : V) d :
  k <> k' -> dict_get k (dict_set k' v d) = dict_get k d.
Proof.
  intros Hne. induction d as [|[k'' v''] d IH]; cbn [dict_set dict_get].
  - apply String.eqb_neq in Hne. rewrite Hne. reflexivity.
  - destruct (String.eqb k' k'') eqn:E; cbn [dict_get].
    + apply String.eqb_eq in E. subst k''. apply String.eqb_neq in Hne. rewrite Hne. reflexivity.
    + rewrite IH. reflexivity.
Qed.

Lemma dict_get_not_in {V : Type} k (d : dict V) : k ∉ map fst d -> dict_get k d = None.
Proof.
  induction d as [|[k' v'] d IH]; [reflexivity|]. cbn [map fst dict_get].
  intros H. apply not_elem_of_cons in H as [Hne Hd].
  apply String.eqb_neq in Hne. rewrite Hne. apply IH, Hd.
Qed.

(** ** The transformation attributes *)

Lemma fold_transformation element l acc k :
  NoDup (map fst l) ->
  dict_get k
    (fold_left
       (fun attrs '(attr, dflt) =>
          match dict_get attr (attrib element) with
          | None => attrs
          | Some s =>
              match float_of_string s with
              | None => attrs
              | Some v =>
                  if negb (float_eq_Z v dflt) then dict_set attr (VFloat v) attrs
                  else attrs
              end
          end) l acc)
  = match dict_get k l, dict_get k (attrib element) with
    | Some dflt, Some s =>
        match float_of_string s with
        | Some v => if negb (float_eq_Z v dflt) then Some (VFloat v) else dict_get k acc
        | None => dict_get k acc
        end
    | _, _ => dict_get k acc
    end.
Proof.
  revert acc. induction l as [|[a d] l IH]; intros acc Hnd; cbn [fold_left dict_get].
  - destruct (dict_get k (attrib element)); reflexivity.
  - cbn [map fst] in Hnd. apply NoDup_cons in Hnd as [Ha Hnd].
    rewrite IH by exact Hnd. destruct (String.eqb_spec k a) as [->|Hne].
    + rewrite (dict_get_not_in a l Ha).
      destruct (dict_get a (attrib element)) as [s|]; [|reflexivity].
      destruct (float_of_string s) as [v|]; [|reflexivity].
      destruct (negb (float_eq_Z v d)); [apply dict_get_set_eq | reflexivity].
    + assert (dict_get k
                match dict_get a (attrib element) with
                | Some s =>
                    match float_of_string s with
                    | Some v =>
                        if negb (float_eq_Z v d) then dict_set a (VFloat v) acc else acc
                    | None => acc
                    end
                | None => acc
                end = dict_get k acc) as ->; [|reflexivity].
      destruct (dict_get a (attrib element)) as [s|]; [|reflexivity].
      destruct (float_of_string s) as [v|]; [|reflexivity].
      destruct (negb (float_eq_Z v d)); [apply dict_get_set_ne, Hne | reflexivity].
Qed.

(** X12: [_normalizeGlifTransformation] keeps exactly the known
    transformation attributes whose text [float] reads as a value other
    than the default: unknown attributes, unreadable values and defaults
    are not in the result. *)
Theorem _normalizeGlifTransformation_entries element attr v :
  dict_get attr (_normalizeGlifTransformation element) = Some v
  <-> exists text x dflt,
        dict_get attr _glifDefaultTransformation = Some dflt
        /\ dict_get attr (attrib element) = Some text
        /\ float_of_string text = Some x
        /\ float_eq_Z x dflt = false
        /\ v = VFloat x.
Proof.
  unfold _normalizeGlifTransformation. rewrite fold_transformation
    by (cbn; nodup_list).
  cbn [dict_get]. split.
  - destruct (dict_get attr _glifDefaultTransformation) as [dflt|]; [|discriminate].
    destruct (dict_get attr (attrib element)) as [text|]; [|discriminate].
    destruct (float_of_string text) as [x|] eqn:Ex; [|discriminate].
    destruct (float_eq_Z x dflt) eqn:E; [discriminate|].
    intros [= <-]. exists text, x, dflt. repeat split; assumption.
  - intros (text & x & dflt & -> & -> & -> & -> & ->). reflexivity.
Qed.

(** ** The writer: opening and closing an element *)

Lemma raw_lines line w : _lines (raw line w) = _lines w ++ [indentation w +:+ line].
Proof. reflexivity. Qed.

(** X13: an element that is opened by [beginElement] and closed at once
    by [endElement] with the same tag passes the assertions, writes the
    opening and the closing line at the indentation the writer had, and
    leaves the indentation level and the stack as they were. *)
Theorem beginElement_endElement tag attrs w w1 :
  beginElement tag attrs w = Ok w1 ->
  exists opening w2,
    endElement tag w1 = Ok w2
    /\ _lines w2 = _lines w ++ [indentation w +:+ opening;
                                indentation w +:+ "</" +:+ tag +:+ ">"]
    /\ _indentLevel w2 = _indentLevel w
    /\ _stack w2 = _stack w.
Proof.
  unfold beginElement.
  set (line := match attrs with
               | [] => Ok ("<" +:+ tag +:+ ">")
               | _ => a ← attributesToString attrs; Ok ("<" +:+ tag +:+ " " +:+ a +:+ ">")
               end).
  destruct line as [opening|e]; [|discriminate]. cbn [mbind result_bind].
  intros [= <-]. exists opening. unfold endElement. cbn [_stack _lines _indentLevel raw].
  rewrite last_snoc, String.eqb_refl. eexists. split; [reflexivity|].
  cbn [_stack _lines _indentLevel raw Nat.pred]. rewrite removelast_last.
  split; [|split; reflexivity].
  rewrite <- app_assoc. reflexivity.
Qed.

Lemma beginElement_endElement_witness :
  beginElement "contour" [("identifier", VStr "a")] newWriter
  = Ok (mkWriter ["<contour identifier=" +:+ quoted "a" +:+ ">"] 1 ["contour"])
  /\ exists opening w2,
       endElement "contour"
         (mkWriter ["<contour identifier=" +:+ quoted "a" +:+ ">"] 1 ["contour"]) = Ok w2
       /\ _lines w2 = _lines newWriter ++ [indentation newWriter +:+ opening;
                                          indentation newWriter +:+ "</" +:+ "contour" +:+ ">"]
       /\ _indentLevel w2 = _indentLevel newWriter
       /\ _stack w2 = _stack newWriter.
Proof.
  split; [vm_compute; reflexivity|].
  apply (beginElement_endElement "contour" [("identifier", VStr "a")] newWriter).
  vm_compute. reflexivity.
Defined.

(** ** The order of the attributes *)

#[local] Instance attr_le_trans : Transitive attr_le.
Proof.
  intros [[i n] u] [[j m] v] [[k p] x]. unfold attr_le, attr_leb.
  rewrite !orb_true_iff, !andb_true_iff, !N.ltb_lt, !N.eqb_eq.
  intros [H1|[-> H1]] [H2|[-> H2]]; try (left; lia); try (left; assumption).
  right. split; [reflexivity|]. apply Is_true_true. apply Is_true_true in H1, H2.
  exact (@transitivity _ String.le _ n m p H1 H2).
Qed.

#[local] Instance attr_le_total : Total attr_le.
Proof.
  intros [[i n] u] [[j m] v]. unfold attr_le, attr_leb.
  rewrite !orb_true_iff, !andb_true_iff, !N.ltb_lt, !N.eqb_eq.
  destruct (N.lt_trichotomy i j) as [H|[->|H]]; [tauto| |tauto].
  destruct (String.leb_total n m); tauto.
Qed.

Lemma attr_le_antisym_name a b :
  attr_le a b -> attr_le b a -> snd (fst a) = snd (fst b).
Proof.
  destruct a as [[i n] u], b as [[j m] v]. unfold attr_le, attr_leb.
  rewrite !orb_true_iff, !andb_true_iff, !N.ltb_lt, !N.eqb_eq. cbn [fst snd].
  intros [H1|[-> H1]] [H2|[H2 H3]]; try lia. apply String.leb_antisym; assumption.
Qed.

Lemma dict_NoDup_value {V : Type} (d : dict V) k v1 v2 :
  NoDup (map fst d) -> (k, v1) ∈ d -> (k, v2) ∈ d -> v1 = v2.
Proof.
  induction d as [|[k' v'] d IH]; cbn [map fst]; intros Hnd H1 H2.
  - inversion H1.
  - apply NoDup_cons in Hnd as [Hk Hnd].
    apply elem_of_cons in H1 as [H1|H1], H2 as [H2|H2].
    + congruence.
    + injection H1 as -> ->. exfalso. apply Hk.
      apply list_elem_of_In, in_map_iff. exists (k', v2). split; [reflexivity|].
      apply list_elem_of_In, H2.
    + injection H2 as -> ->. exfalso. apply Hk.
      apply list_elem_of_In, in_map_iff. exists (k', v1). split; [reflexivity|].
      apply list_elem_of_In, H1.
    + exact (IH Hnd H1 H2).
Qed.

(** X14: the text that [attributesToString] makes does not depend on
    the order in which the dictionary holds its attributes: two
    dictionaries with the same entries give the same text (or the same
    exception). *)
Theorem attributesToString_order_independent attrs1 attrs2 :
  NoDup (map fst attrs1) -> attrs1 ≡ₚ attrs2 ->
  attributesToString attrs1 = attributesToString attrs2.
Proof.
  intros Hnd Hperm. unfold attributesToString.
  set (g := fun '((attr, v) : string * value) =>
              (default 100%N (dict_get attr xmlAttributeOrder), attr, v)).
  assert (merge_sort attr_le (map g attrs1) = merge_sort attr_le (map g attrs2)) as ->;
    [|reflexivity].
  apply (Sorted_unique_strong attr_le).
  - intros x1 x2 H1 H2 L12 L21.
    rewrite merge_sort_Permutation in H1, H2.
    rewrite <- (Permutation_map g Hperm) in H2.
    apply list_elem_of_In, in_map_iff in H1 as ([k1 v1] & <- & H1).
    apply list_elem_of_In, in_map_iff in H2 as ([k2 v2] & <- & H2).
    apply list_elem_of_In in H1, H2.
    pose proof (attr_le_antisym_name _ _ L12 L21) as Hk. cbn [g fst snd] in Hk. subst k2.
    rewrite (dict_NoDup_value attrs1 k1 v1 v2 Hnd H1 H2). reflexivity.
  - apply Sorted_merge_sort, _.
  - apply Sorted_merge_sort, _.
  - rewrite !merge_sort_Permutation. apply Permutation_map, Hperm.
Qed.

Lemma attributesToString_order_independent_witness :
  NoDup (map fst [("y", VInt 2); ("a", VStr "b"); ("x", VInt 1)])
  /\ attributesToString [("y", VInt 2); ("a", VStr "b"); ("x", VInt 1)]
     = attributesToString [("a", VStr "b"); ("x", VInt 1); ("y", VInt 2)].
Proof.
  assert (NoDup (map fst [("y", VInt 2); ("a", VStr "b"); ("x", VInt 1)])) as Hnd
    by (cbn; nodup_list).
  split; [exact Hnd|].
  apply (attributesToString_order_independent _ _ Hnd).
  apply (Permutation_cons_append [("a", VStr "b"); ("x", VInt 1)] ("y", VInt 2)).
Defined.

(** ** The writer never fails on the entries of an outline *)

Lemma balanced_refl w : balanced w w.
Proof. repeat split. exists []. rewrite app_nil_r. reflexivity. Qed.

Lemma balanced_trans w1 w2 w3 : balanced w1 w2 -> balanced w2 w3 -> balanced w1 w3.
Proof.
  intros (S1 & I1 & n1 & L1) (S2 & I2 & n2 & L2). repeat split; [congruence..|].
  exists (n1 ++ n2). rewrite L2, L1, app_assoc. reflexivity.
Qed.

Lemma noNone_dict_set k v d : is_None v = false -> noNone d -> noNone (dict_set k v d).
Proof.
  intros Hv. unfold noNone. induction d as [|[k' v'] d IH]; cbn [dict_set].
  - intros _. repeat constructor. exact Hv.
  - intros H. apply Forall_cons in H as [H1 H2]. destruct (String.eqb k k').
    + constructor; [exact Hv | exact H2].
    + constructor; [exact H1 | exact (IH H2)].
Qed.

Lemma noNone_dict_update d e : noNone d -> noNone e -> noNone (dict_update d e).
Proof.
  unfold dict_update. revert d. induction e as [|[k v] e IH]; intros d Hd He; [exact Hd|].
  apply Forall_cons in He as [Hv He]. cbn [fold_left fst snd].
  apply IH; [|exact He]. apply noNone_dict_set; assumption.
Qed.

Lemma noNone_get k v d : noNone d -> dict_get k d = Some v -> is_None v = false.
Proof.
  unfold noNone. induction d as [|[k' v'] d IH]; [discriminate|].
  intros H. apply Forall_cons in H as [H1 H2]. cbn [dict_get].
  destruct (String.eqb k k'); [intros [= <-]; exact H1 | exact (IH H2)].
Qed.

Lemma mapM_result_ok {A B : Type} (f : A -> result B) l :
  Forall (fun x => exists y, f x = Ok y) l -> exists ys, mapM f l = Ok ys.
Proof.
  induction 1 as [|x l [y Hy] _ [ys Hys]]; [exists []; reflexivity|].
  exists (y :: ys). cbn [mapM]. rewrite Hy. cbn. rewrite Hys. reflexivity.
Qed.

Lemma xmlConvertValue_ok v : is_None v = false -> exists s, xmlConvertValue v = Ok s.
Proof.
  destruct v; try discriminate; intros _; cbn [xmlConvertValue]; eauto.
  rewrite xmlConvertFloat_total. eauto.
Qed.

Lemma attributesToString_ok attrs : noNone attrs -> exists s, attributesToString attrs = Ok s.
Proof.
  intros H. unfold attributesToString.
  match goal with |- context [mapM ?f ?l] =>
    destruct (mapM_result_ok f l) as [ys ->]; [|cbn; eauto] end.
  rewrite merge_sort_Permutation. apply Forall_map. eapply Forall_impl; [exact H|].
  intros [k v] Hv. cbn [snd] in Hv. destruct (xmlConvertValue_ok v Hv) as [s ->].
  cbn. eauto.
Qed.

Lemma raw_balanced line w : balanced w (raw line w).
Proof. repeat split. eexists. reflexivity. Qed.

Lemma simpleElement_balanced tag attrs value w :
  noNone attrs -> exists w', simpleElement tag attrs value w = Ok w' /\ balanced w w'.
Proof.
  intros H. unfold simpleElement. destruct attrs as [|kv attrs].
  - cbn. eexists. split; [reflexivity | apply raw_balanced].
  - destruct (attributesToString_ok _ H) as [s ->]. cbn.
    eexists. split; [reflexivity | apply raw_balanced].
Qed.

(** An element with a body that keeps the writer balanced. *)
Lemma element_balanced tag attrs (body : XMLWriter -> result XMLWriter) w :
  noNone attrs ->
  (forall w1, exists w2, body w1 = Ok w2 /\ balanced w1 w2) ->
  exists w3,
    (w1 ← beginElement tag attrs w; w2 ← body w1; endElement tag w2) = Ok w3
    /\ balanced w w3.
Proof.
  intros Hattrs Hbody. unfold beginElement.
  assert (exists line,
            match attrs with
            | [] => Ok ("<" +:+ tag +:+ ">")
            | _ => a ← attributesToString attrs; Ok ("<" +:+ tag +:+ " " +:+ a +:+ ">")
            end = Ok line) as [line ->].
  { destruct attrs; [eauto|]. destruct (attributesToString_ok _ Hattrs) as [s ->]. cbn. eauto. }
  cbn [mbind result_bind].
  match goal with |- context [body ?w1] =>
    destruct (Hbody w1) as (w2 & -> & S2 & I2 & n2 & L2) end.
  cbn [mbind result_bind _stack _indentLevel _lines raw] in *.
  unfold endElement. rewrite S2, last_snoc, String.eqb_refl.
  eexists. split; [reflexivity|].
  unfold balanced. cbn [_stack _indentLevel _lines raw].
  rewrite removelast_last, I2, L2. repeat split.
  eexists. rewrite <- !app_assoc. reflexivity.
Qed.

Lemma foldM_balanced {A : Type} (f : A -> XMLWriter -> result XMLWriter) l :
  Forall (fun a => forall w, exists w', f a w = Ok w' /\ balanced w w') l ->
  forall w, exists w', foldM f l w = Ok w' /\ balanced w w'.
Proof.
  induction 1 as [|a l Ha _ IH]; intros w.
  - exists w. split; [reflexivity | apply balanced_refl].
  - rewrite foldM_cons. destruct (Ha w) as (w1 & -> & B1). cbn [mbind result_bind].
    destruct (IH w1) as (w2 & -> & B2). exists w2.
    split; [reflexivity | exact (balanced_trans _ _ _ B1 B2)].
Qed.

(** *** The entries that the format-1 normalizers make *)

Lemma fold_transformation_noNone element l acc :
  noNone acc ->
  noNone
    (fold_left
       (fun attrs '(attr, dflt) =>
          match dict_get attr (attrib element) with
          | None => attrs
          | Some s =>
              match float_of_string s with
              | None => attrs
              | Some v =>
                  if negb (float_eq_Z v dflt) then dict_set attr (VFloat v) attrs
                  else attrs
              end
          end) l acc).
Proof.
  revert acc. induction l as [|[a d] l IH]; intros acc Hacc; [exact Hacc|].
  cbn [fold_left]. apply IH.
  destruct (dict_get a (attrib element)) as [s|]; [|exact Hacc].
  destruct (float_of_string s) as [v|]; [|exact Hacc].
  destruct (negb (float_eq_Z v d)); [|exact Hacc].
  apply noNone_dict_set; [reflexivity | exact Hacc].
Qed.

Lemma _normalizeGlifTransformation_noNone element :
  noNone (_normalizeGlifTransformation element).
Proof. apply fold_transformation_noNone. constructor. Qed.

Lemma attrib_value_truthy k element :
  truthy (attrib_value k element) = true ->
  exists s, attrib_value k element = VStr s.
Proof. unfold attrib_value. destruct (dict_get k (attrib element)); [eauto | discriminate]. Qed.

Lemma _normalizeGlifComponentAttributesFormat1_noNone element :
  noNone (_normalizeGlifComponentAttributesFormat1 element).
Proof.
  unfold _normalizeGlifComponentAttributesFormat1.
  destruct (truthy (attrib_value "base" element)) eqn:E; cbn [negb]; [|constructor].
  destruct (attrib_value_truthy _ _ E) as [s ->].
  apply noNone_dict_update; [repeat constructor | apply _normalizeGlifTransformation_noNone].
Qed.

Lemma _normalizeGlifPointAttributesFormat1_ok element attrs :
  _normalizeGlifPointAttributesFormat1 element = Some attrs ->
  noNone attrs /\ (attrs = [] \/ hasCoordinates attrs).
Proof.
  unfold _normalizeGlifPointAttributesFormat1.
  destruct (negb (truthy (attrib_value "x" element)) || negb (truthy (attrib_value "y" element)));
    [intros [= <-]; split; [constructor | left; reflexivity]|].
  destruct (float_of_value (attrib_value "x" element)) as [x|]; [|discriminate].
  destruct (float_of_value (attrib_value "y" element)) as [y|]; [|discriminate].
  destruct (negb (str_in _ _)); [intros [= <-]; split; [constructor | left; reflexivity]|].
  intros [= <-].
  assert (noNone [("x", VFloat x); ("y", VFloat y)]) as H0 by repeat constructor.
  assert (hasCoordinates [("x", VFloat x); ("y", VFloat y)]) as C0
    by (exists x, y; split; reflexivity).
  assert (forall k v d, k <> "x" -> k <> "y" -> hasCoordinates d ->
                        hasCoordinates (dict_set k v d)) as Hset.
  { intros k v d Hx Hy (a & b & Ha & Hb). exists a, b.
    rewrite !dict_get_set_ne by congruence. auto. }
  match goal with |- noNone ?d /\ _ => assert (noNone d /\ hasCoordinates d) as [H C] end;
    [|split; [exact H | right; exact C]].
  set (typ := default "offcurve" (dict_get "type" (attrib element))).
  assert (forall d, noNone d /\ hasCoordinates d ->
            noNone (match dict_get "name" (attrib element) with
                    | Some name => dict_set "name" (VStr name) d
                    | None => d
                    end)
            /\ hasCoordinates (match dict_get "name" (attrib element) with
                               | Some name => dict_set "name" (VStr name) d
                               | None => d
                               end)) as Hname.
  { intros d [Hd Cd]. destruct (dict_get "name" (attrib element)); [|auto].
    split; [apply noNone_dict_set; auto | apply Hset; [discriminate..|exact Cd]]. }
  apply Hname. destruct (negb (String.eqb typ "offcurve")); [|auto].
  assert (noNone (dict_set "type" (VStr typ) [("x", VFloat x); ("y", VFloat y)])
          /\ hasCoordinates (dict_set "type" (VStr typ) [("x", VFloat x); ("y", VFloat y)]))
    as [H1 C1].
  { split; [apply noNone_dict_set; auto | apply Hset; [discriminate..|exact C0]]. }
  destruct (dict_get "smooth" (attrib element)) as [smooth|]; [|auto].
  destruct (String.eqb smooth "yes"); [|auto].
  split; [repeat constructor | exists x, y; split; reflexivity].
Qed.

Lemma contourPointsFormat1_ok subElements points :
  contourPointsFormat1 subElements = Some points ->
  Forall (fun p => noNone p /\ hasCoordinates p) points.
Proof.
  revert points. induction subElements as [|e l IH]; intros points; cbn [contourPointsFormat1].
  - intros [= <-]. constructor.
  - destruct (negb (String.eqb (tag e) "point")); [apply IH|].
    destruct (_normalizeGlifPointAttributesFormat1 e) as [[|kv attrs]|] eqn:E; try discriminate.
    destruct (contourPointsFormat1 l) as [ps|]; [|discriminate].
    intros [= <-]. constructor; [|apply IH; reflexivity].
    apply _normalizeGlifPointAttributesFormat1_ok in E as [H [C|C]]; [discriminate | auto].
Qed.

Lemma _normalizeGlifContourFormat1_ok element obj :
  _normalizeGlifContourFormat1 element = Some obj -> itemOk obj.
Proof.
  unfold _normalizeGlifContourFormat1.
  destruct (contourPointsFormat1 (children element)) as [points|] eqn:E; [|discriminate].
  apply contourPointsFormat1_ok in E.
  assert (Forall noNone points) as Hn by (eapply Forall_impl; [exact E | intros p [Hp _]; exact Hp]).
  destruct points as [|point [|q points]]; [discriminate| |intros [= <-]; exact Hn].
  apply Forall_cons in E as [[Hp Cp] _].
  assert (itemOk (ItemAnchor (dict_set "type" (VStr "anchor") point))) as Ha.
  { split; [apply noNone_dict_set; auto|]. destruct Cp as (x & y & Hx & Hy).
    exists x, y. rewrite !dict_get_set_ne by discriminate. auto. }
  destruct (dict_get "type" point) as [[|typ| |]|]; try (intros [= <-]; exact Hn).
  destruct (String.eqb typ "move"); intros [= <-]; [exact Ha | exact Hn].
Qed.

Lemma _normalizeGlifComponentFormat1_ok element obj :
  _normalizeGlifComponentFormat1 element = Some obj -> itemOk obj.
Proof.
  unfold _normalizeGlifComponentFormat1.
  pose proof (_normalizeGlifComponentAttributesFormat1_noNone element) as H.
  destruct (_normalizeGlifComponentAttributesFormat1 element); [discriminate|].
  intros [= <-]. exact H.
Qed.

Lemma outlineChildFormat1_ok subElements :
  Forall itemOk (omap outlineChildFormat1 subElements).
Proof.
  induction subElements as [|e l IH]; [constructor|].
  change (omap outlineChildFormat1 (e :: l))
    with (match outlineChildFormat1 e with
          | Some obj => obj :: omap outlineChildFormat1 l
          | None => omap outlineChildFormat1 l
          end).
  destruct (outlineChildFormat1 e) as [obj|] eqn:E; [|exact IH].
  constructor; [|exact IH]. unfold outlineChildFormat1 in E.
  destruct (String.eqb (tag e) "contour"); [exact (_normalizeGlifContourFormat1_ok _ _ E)|].
  destruct (String.eqb (tag e) "component"); [|discriminate].
  exact (_normalizeGlifComponentFormat1_ok _ _ E).
Qed.

Lemma Forall_filter_keep {A : Type} (P : A -> Prop) (f : A -> bool) l :
  Forall P l -> Forall P (filter f l).
Proof.
  rewrite !Forall_forall. intros H x [_ Hx]%list_elem_of_filter. apply H, Hx.
Qed.

Lemma writeOutlineItem_balanced obj w :
  itemOk obj -> exists w', writeOutlineItem obj w = Ok w' /\ balanced w w'.
Proof.
  destruct obj as [points|anchor|component]; cbn [itemOk writeOutlineItem]; intros H.
  - apply (element_balanced "contour" []
             (foldM (fun point w => simpleElement "point" point None w) points));
      [constructor|].
    apply foldM_balanced. eapply Forall_impl; [exact H|].
    intros point Hp w1. apply simpleElement_balanced, Hp.
  - exists w. split; [reflexivity | apply balanced_refl].
  - apply simpleElement_balanced, H.
Qed.

Lemma writeImpliedAnchor_balanced obj w :
  itemOk obj -> exists w', writeImpliedAnchor obj w = Ok w' /\ balanced w w'.
Proof.
  destruct obj as [points|anchor|component]; cbn [itemOk writeImpliedAnchor]; intros H;
    try (exists w; split; [reflexivity | apply balanced_refl]).
  destruct H as [Hn (x & y & Hx & Hy)].
  match goal with |- context [simpleElement "point" ?attrs None] =>
    apply (element_balanced "contour" [] (fun w => simpleElement "point" attrs None w));
      [constructor|]; intros w1; apply simpleElement_balanced end.
  unfold dict_get_value. rewrite Hx, Hy. cbn [default].
  destruct (dict_get "name" anchor) as [name|] eqn:En; [|repeat constructor].
  apply noNone_dict_set; [exact (noNone_get _ _ _ Hn En) | repeat constructor].
Qed.

(** X15: the format-1 outline normalizer never raises and never fails
    an assertion of the writer: on every outline element and every
    writer it returns a writer with the same stack and indentation
    level, whose lines are the old lines followed by the new ones. *)
Theorem _normalizeGlifOutlineFormat1_balanced element w :
  exists w', _normalizeGlifOutlineFormat1 element w = Ok w' /\ balanced w w'.
Proof.
  unfold _normalizeGlifOutlineFormat1.
  destruct (children element) as [|e l]; [exists w; split; [reflexivity | apply balanced_refl]|].
  rewrite collectOutlineFormat1_spec.
  pose proof (outlineChildFormat1_ok (e :: l)) as Hok.
  set (entries := omap outlineChildFormat1 (e :: l)) in *.
  assert (Forall itemOk (filter isTrueEntry entries)) as Ho by (apply Forall_filter_keep, Hok).
  assert (Forall itemOk (filter isAnchor entries)) as Ha by (apply Forall_filter_keep, Hok).
  set (outline := filter isTrueEntry entries) in *.
  set (anchors := filter isAnchor entries) in *.
  assert (exists w',
            (writer ← beginElement "outline" [] w;
             writer ← foldM writeOutlineItem outline writer;
             writer ← foldM writeImpliedAnchor anchors writer;
             endElement "outline" writer) = Ok w' /\ balanced w w') as Hmain.
  { pose proof (element_balanced "outline" []
                  (fun w => w ← foldM writeOutlineItem outline w;
                            foldM writeImpliedAnchor anchors w) w) as Hel.
    destruct Hel as (w3 & Hw3 & B3); [constructor| |].
    - intros w1.
      destruct (foldM_balanced writeOutlineItem outline) with (w := w1) as (w2 & E2 & B2).
      { eapply Forall_impl; [exact Ho|]. intros obj Hobj w0.
        apply writeOutlineItem_balanced, Hobj. }
      destruct (foldM_balanced writeImpliedAnchor anchors) with (w := w2) as (w4 & E4 & B4).
      { eapply Forall_impl; [exact Ha|]. intros obj Hobj w0.
        apply writeImpliedAnchor_balanced, Hobj. }
      exists w4. rewrite E2. cbn [mbind result_bind]. rewrite E4.
      split; [reflexivity | exact (balanced_trans _ _ _ B2 B4)].
    - exists w3. split; [|exact B3]. rewrite <- Hw3.
      destruct (beginElement "outline" [] w) as [w1|]; [|reflexivity].
      cbn [mbind result_bind].
      destruct (foldM writeOutlineItem outline w1); reflexivity. }
  destruct outline, anchors; try exact Hmain.
  exists w. split; [reflexivity | apply balanced_refl].
Qed.

(** ** Outlines, format 2 *)

(** The doctests of the source. *)
Example _normalizeGlifOutlineFormat2_doctests :
  (w ← _normalizeGlifOutlineFormat2 (Element "outline" [] None []) newWriter; getText w)
  = Ok ""
  /\ (w ← _normalizeGlifOutlineFormat2
            (Element "outline" [] None
               [Element "contour" [] None []; Element "component" [] None []]) newWriter;
      getText w) = Ok ""
  /\ (w ← _normalizeGlifOutlineFormat2
            (Element "outline" [] None
               [Element "contour" [] None
                  [Element "point" [("type", "line"); ("y", "1"); ("x", "1")] None []];
                Element "component" [("base", "2")] None [];
                Element "contour" [("identifier", "test")] None
                  [Element "point" [("type", "line"); ("y", "3"); ("x", "3")] None []];
                Element "component" [("base", "4")] None []]) newWriter;
      getText w)
     = Ok (str_join xmlLineBreak
             ["<outline>";
              xmlIndent +:+ "<contour>";
              xmlIndent +:+ xmlIndent +:+ "<point x=" +:+ quoted "1" +:+ " y=" +:+ quoted "1"
                +:+ " type=" +:+ quoted "line" +:+ "/>";
              xmlIndent +:+ "</contour>";
              xmlIndent +:+ "<component base=" +:+ quoted "2" +:+ "/>";
              xmlIndent +:+ "<contour identifier=" +:+ quoted "test" +:+ ">";
              xmlIndent +:+ xmlIndent +:+ "<point x=" +:+ quoted "3" +:+ " y=" +:+ quoted "3"
                +:+ " type=" +:+ quoted "line" +:+ "/>";
              xmlIndent +:+ "</contour>";
              xmlIndent +:+ "<component base=" +:+ quoted "4" +:+ "/>";
              "</outline>"]).
Proof. repeat split; vm_compute; reflexivity. Qed.

Lemma _normalizeGlifPointAttributesFormat2_ok element attrs :
  _normalizeGlifPointAttributesFormat2 element = Ok (Some attrs) -> noNone attrs.
Proof.
  unfold _normalizeGlifPointAttributesFormat2.
  destruct (_normalizeGlifPointAttributesFormat1 element) as [a|] eqn:E.
  - apply _normalizeGlifPointAttributesFormat1_ok in E as [Ha _].
    destruct (dict_get "identifier" (attrib element)); intros [= <-]; [|exact Ha].
    apply noNone_dict_set; [reflexivity | exact Ha].
  - destruct (dict_get "identifier" (attrib element)); discriminate.
Qed.

Lemma _normalizeGlifPointAttributesFormat2_raise element e :
  _normalizeGlifPointAttributesFormat2 element = Raise e -> e = TypeError.
Proof.
  unfold _normalizeGlifPointAttributesFormat2.
  destruct (dict_get "identifier" (attrib element)); [|discriminate].
  destruct (_normalizeGlifPointAttributesFormat1 element); [discriminate|].
  intros [= <-]. reflexivity.
Qed.

Lemma contourPointsFormat2_outcomes subElements :
  match contourPointsFormat2 subElements with
  | Ok (Some points) => Forall noNone points
  | Ok None => True
  | Raise e => e = TypeError
  end.
Proof.
  induction subElements as [|s l IH]; cbn [contourPointsFormat2]; [constructor|].
  destruct (negb (String.eqb (tag s) "point")); [exact IH|].
  destruct (_normalizeGlifPointAttributesFormat2 s) as [[[|kv attrs]|]|e] eqn:E;
    cbn [mbind result_bind]; try exact I.
  - destruct (contourPointsFormat2 l) as [[points|]|e]; cbn [mbind result_bind option_map];
      [|exact I|exact IH].
    constructor; [|exact IH]. exact (_normalizeGlifPointAttributesFormat2_ok _ _ E).
  - exact (_normalizeGlifPointAttributesFormat2_raise _ _ E).
Qed.

Lemma _normalizeGlifContourFormat2_outcomes element :
  match _normalizeGlifContourFormat2 element with
  | Ok (Some obj) => item2Ok obj
  | Ok None => True
  | Raise e => e = TypeError
  end.
Proof.
  unfold _normalizeGlifContourFormat2.
  pose proof (contourPointsFormat2_outcomes (children element)) as H.
  destruct (contourPointsFormat2 (children element)) as [[[|p points]|]|e];
    cbn [mbind result_bind]; auto.
Qed.

Lemma _normalizeGlifComponentFormat2_ok element obj :
  _normalizeGlifComponentFormat2 element = Some obj -> item2Ok obj.
Proof.
  unfold _normalizeGlifComponentFormat2.
  assert (noNone (_normalizeGlifComponentAttributesFormat2 element)) as H.
  { unfold _normalizeGlifComponentAttributesFormat2.
    pose proof (_normalizeGlifComponentAttributesFormat1_noNone element) as H1.
    destruct (dict_get "identifier" (attrib element)); [|exact H1].
    apply noNone_dict_set; [reflexivity | exact H1]. }
  destruct (_normalizeGlifComponentAttributesFormat2 element); [discriminate|].
  intros [= <-]. exact H.
Qed.

Lemma collectOutlineItem2_outcomes subElement outline :
  Forall item2Ok outline ->
  match collectOutlineItem2 subElement outline with
  | Ok outline' => Forall item2Ok outline'
  | Raise e => e = TypeError
  end.
Proof.
  intros H. unfold collectOutlineItem2.
  destruct (String.eqb (tag subElement) "contour").
  - pose proof (_normalizeGlifContourFormat2_outcomes subElement) as Hc.
    destruct (_normalizeGlifContourFormat2 subElement) as [[obj|]|e];
      cbn [mbind result_bind]; auto.
    apply Forall_app. split; [exact H | repeat constructor; exact Hc].
  - destruct (String.eqb (tag subElement) "component"); [|exact H].
    destruct (_normalizeGlifComponentFormat2 subElement) as [obj|] eqn:E; [|exact H].
    apply Forall_app. split; [exact H|]. repeat constructor.
    exact (_normalizeGlifComponentFormat2_ok _ _ E).
Qed.

Lemma collectOutlineFormat2_outcomes subElements outline :
  Forall item2Ok outline ->
  match foldM collectOutlineItem2 subElements outline with
  | Ok outline' => Forall item2Ok outline'
  | Raise e => e = TypeError
  end.
Proof.
  revert outline. induction subElements as [|s l IH]; intros outline H; [exact H|].
  rewrite foldM_cons. pose proof (collectOutlineItem2_outcomes s outline H) as Hs.
  destruct (collectOutlineItem2 s outline) as [outline'|e]; cbn [mbind result_bind];
    [apply IH, Hs | exact Hs].
Qed.

Lemma writeOutlineItem2_balanced obj w :
  item2Ok obj -> exists w', writeOutlineItem2 obj w = Ok w' /\ balanced w w'.
Proof.
  destruct obj as [identifier points|component]; cbn [item2Ok writeOutlineItem2]; intros H.
  - match goal with |- context [beginElement "contour" ?attrs w] =>
      apply (element_balanced "contour" attrs
               (foldM (fun point w => simpleElement "point" point None w) points)) end.
    + destruct identifier; repeat constructor.
    + apply foldM_balanced. eapply Forall_impl; [exact H|].
      intros point Hp w1. apply simpleElement_balanced, Hp.
  - apply simpleElement_balanced, H.
Qed.

(** X16: the format-2 outline normalizer has two outcomes only.  Either
    it returns a writer with the same stack and indentation level and
    with lines added at the end, or it raises the [TypeError] of the
    point normalizer (an identifier assigned to the [None] that stands
    for an unreadable coordinate); a writer assertion never fails. *)
Theorem _normalizeGlifOutlineFormat2_outcomes element w :
  (exists w', _normalizeGlifOutlineFormat2 element w = Ok w' /\ balanced w w')
  \/ _normalizeGlifOutlineFormat2 element w = Raise TypeError.
Proof.
  unfold _normalizeGlifOutlineFormat2, collectOutlineFormat2.
  pose proof (collectOutlineFormat2_outcomes (children element) [] (Forall_nil_2 _)) as H.
  destruct (foldM collectOutlineItem2 (children element) []) as [outline|e];
    cbn [mbind result_bind]; [left | right; rewrite H; reflexivity].
  destruct outline as [|obj outline];
    [exists w; split; [reflexivity | apply balanced_refl]|].
  apply (element_balanced "outline" [] (foldM writeOutlineItem2 (obj :: outline)));
    [constructor|].
  apply foldM_balanced. eapply Forall_impl; [exact H|].
  intros o Ho w1. apply writeOutlineItem2_balanced, Ho.
Qed.

Lemma attrib_value_None k element :
  dict_get k (attrib element) = None -> attrib_value k element = VNone.
Proof. unfold attrib_value. intros ->. reflexivity. Qed.

(** X17: a format-2 point that carries an identifier and a coordinate
    that [float] cannot read makes the whole outline normalizer raise a
    [TypeError], when it is the first point of the first child of the
    outline; nothing is written. *)
Theorem _normalizeGlifOutlineFormat2_unreadable_coordinate
    element contour rest point points identifier x y w :
  children element = contour :: rest ->
  tag contour = "contour" ->
  children contour = point :: points ->
  tag point = "point" ->
  dict_get "identifier" (attrib point) = Some identifier ->
  dict_get "x" (attrib point) = Some x ->
  dict_get "y" (attrib point) = Some y ->
  x <> "" -> y <> "" ->
  float_of_string x = None \/ float_of_string y = None ->
  _normalizeGlifOutlineFormat2 element w = Raise TypeError.
Proof.
  intros Hch Htag Hpts Hpt Hid Hx Hy Hxe Hye Hbad.
  assert (_normalizeGlifPointAttributesFormat2 point = Raise TypeError) as Hp.
  { unfold _normalizeGlifPointAttributesFormat2, _normalizeGlifPointAttributesFormat1,
      attrib_value. rewrite Hid, Hx, Hy. cbn [truthy float_of_value].
    apply String.eqb_neq in Hxe, Hye. rewrite Hxe, Hye. cbn [negb orb].
    destruct Hbad as [-> | ->]; [reflexivity|]. destruct (float_of_string x); reflexivity. }
  unfold _normalizeGlifOutlineFormat2, collectOutlineFormat2. rewrite Hch, foldM_cons.
  unfold collectOutlineItem2 at 2. rewrite Htag. cbn [String.eqb Ascii.eqb Bool.eqb andb].
  unfold _normalizeGlifContourFormat2. rewrite Hpts. cbn [contourPointsFormat2].
  rewrite Hpt. cbn [String.eqb Ascii.eqb Bool.eqb andb negb]. rewrite Hp. reflexivity.
Qed.

Lemma _normalizeGlifOutlineFormat2_unreadable_coordinate_witness :
  _normalizeGlifOutlineFormat2
    (Element "outline" [] None
       [Element "contour" [] None
          [Element "point" [("x", "a"); ("y", "0"); ("identifier", "p1")] None []]])
    newWriter
  = Raise TypeError.
Proof.
  apply (_normalizeGlifOutlineFormat2_unreadable_coordinate _
           (Element "contour" [] None
              [Element "point" [("x", "a"); ("y", "0"); ("identifier", "p1")] None []])
           []
           (Element "point" [("x", "a"); ("y", "0"); ("identifier", "p1")] None [])
           [] "p1" "a" "0");
    try reflexivity; try discriminate.
  left. vm_compute. reflexivity.
Defined.

(** X18: in format 2 a point without an x coordinate but with an
    identifier is kept with the identifier as its only attribute, so
    its contour is written, where the format-1 normalizer gives up the
    contour and writes nothing. *)
Theorem format2_point_without_coordinates_kept
    element contour point identifier w :
  children element = [contour] ->
  tag contour = "contour" ->
  dict_get "identifier" (attrib contour) = None ->
  children contour = [point] ->
  tag point = "point" ->
  dict_get "x" (attrib point) = None ->
  dict_get "identifier" (attrib point) = Some identifier ->
  _normalizeGlifOutlineFormat2 element w
  = (w ← beginElement "outline" [] w;
     w ← beginElement "contour" [] w;
     w ← simpleElement "point" [("identifier", VStr identifier)] None w;
     w ← endElement "contour" w;
     endElement "outline" w)
  /\ _normalizeGlifOutlineFormat1 element w = Ok w.
Proof.
  intros Hch Htag Hcid Hpts Hpt Hx Hid.
  assert (_normalizeGlifPointAttributesFormat1 point = Some []) as H1.
  { unfold _normalizeGlifPointAttributesFormat1. rewrite (attrib_value_None _ _ Hx).
    reflexivity. }
  split.
  - unfold _normalizeGlifOutlineFormat2, collectOutlineFormat2. rewrite Hch.
    unfold foldM. cbn [fold_left mbind result_bind]. unfold collectOutlineItem2.
    rewrite Htag. cbn [String.eqb Ascii.eqb Bool.eqb andb].
    unfold _normalizeGlifContourFormat2. rewrite Hpts, Hcid. cbn [contourPointsFormat2].
    rewrite Hpt. cbn [String.eqb Ascii.eqb Bool.eqb andb negb].
    unfold _normalizeGlifPointAttributesFormat2. rewrite H1, Hid.
    cbn [dict_set mbind result_bind option_map app writeOutlineItem2 fold_left].
    destruct (beginElement "outline" [] w) as [w1|]; [|reflexivity].
    cbn [mbind result_bind].
    destruct (beginElement "contour" [] w1) as [w2|]; [|reflexivity].
    unfold foldM. cbn [fold_left mbind result_bind].
    destruct (simpleElement "point" [("identifier", VStr identifier)] None w2) as [w3|];
      [|reflexivity].
    cbn [mbind result_bind]. destruct (endElement "contour" w3); reflexivity.
  - unfold _normalizeGlifOutlineFormat1. rewrite Hch. unfold collectOutlineFormat1.
    cbn [fold_left]. rewrite Htag. cbn [String.eqb Ascii.eqb Bool.eqb andb].
    unfold _normalizeGlifContourFormat1. rewrite Hpts. cbn [contourPointsFormat1].
    rewrite Hpt. cbn [String.eqb Ascii.eqb Bool.eqb andb negb]. rewrite H1. reflexivity.
Qed.

Lemma format2_point_without_coordinates_kept_witness :
  (w ← _normalizeGlifOutlineFormat2
         (Element "outline" [] None
            [Element "contour" [] None [Element "point" [("identifier", "p1")] None []]])
         newWriter;
   getText w)
  = Ok (str_join xmlLineBreak
          ["<outline>";
           xmlIndent +:+ "<contour>";
           xmlIndent +:+ xmlIndent +:+ "<point identifier=" +:+ quoted "p1" +:+ "/>";
           xmlIndent +:+ "</contour>";
           "</outline>"])
  /\ _normalizeGlifOutlineFormat1
       (Element "outline" [] None
          [Element "contour" [] None [Element "point" [("identifier", "p1")] None []]])
       newWriter
     = Ok newWriter.
Proof.
  destruct (format2_point_without_coordinates_kept
              (Element "outline" [] None
                 [Element "contour" [] None [Element "point" [("identifier", "p1")] None []]])
              (Element "contour" [] None [Element "point" [("identifier", "p1")] None []])
              (Element "point" [("identifier", "p1")] None []) "p1" newWriter
              eq_refl eq_refl eq_refl eq_refl eq_refl eq_refl eq_refl) as [H2 H1].
  split; [rewrite H2; vm_compute; reflexivity | exact H1].
Defined.

(** X19: in format 2 a component without a base but with an identifier
    is written with the identifier as its only attribute, where the
    format-1 normalizer writes nothing for it. *)
Theorem format2_component_without_base_kept element component identifier w :
  children element = [component] ->
  tag component = "component" ->
  dict_get "base" (attrib component) = None ->
  dict_get "identifier" (attrib component) = Some identifier ->
  _normalizeGlifOutlineFormat2 element w
  = (w ← beginElement "outline" [] w;
     w ← simpleElement "component" [("identifier", VStr identifier)] None w;
     endElement "outline" w)
  /\ _normalizeGlifOutlineFormat1 element w = Ok w.
Proof.
  intros Hch Htag Hbase Hid.
  assert (_normalizeGlifComponentAttributesFormat1 component = []) as H1.
  { unfold _normalizeGlifComponentAttributesFormat1. rewrite (attrib_value_None _ _ Hbase).
    reflexivity. }
  split.
  - unfold _normalizeGlifOutlineFormat2, collectOutlineFormat2. rewrite Hch.
    unfold foldM. cbn [fold_left mbind result_bind]. unfold collectOutlineItem2.
    rewrite Htag. cbn [String.eqb Ascii.eqb Bool.eqb andb].
    unfold _normalizeGlifComponentFormat2, _normalizeGlifComponentAttributesFormat2.
    rewrite H1, Hid.
    cbn [dict_set mbind result_bind app writeOutlineItem2 fold_left].
    destruct (beginElement "outline" [] w) as [w1|]; reflexivity.
  - unfold _normalizeGlifOutlineFormat1. rewrite Hch. unfold collectOutlineFormat1.
    cbn [fold_left]. rewrite Htag. cbn [String.eqb Ascii.eqb Bool.eqb andb].
    unfold _normalizeGlifComponentFormat1. rewrite H1. reflexivity.
Qed.

Lemma format2_component_without_base_kept_witness :
  (w ← _normalizeGlifOutlineFormat2
         (Element "outline" [] None [Element "component" [("identifier", "c1")] None []])
         newWriter;
   getText w)
  = Ok (str_join xmlLineBreak
          ["<outline>";
           xmlIndent +:+ "<component identifier=" +:+ quoted "c1" +:+ "/>";
           "</outline>"])
  /\ _normalizeGlifOutlineFormat1
       (Element "outline" [] None [Element "component" [("identifier", "c1")] None []])
       newWriter
     = Ok newWriter.
Proof.
  destruct (format2_component_without_base_kept
              (Element "outline" [] None [Element "component" [("identifier", "c1")] None []])
              (Element "component" [("identifier", "c1")] None []) "c1" newWriter
              eq_refl eq_refl eq_refl eq_refl) as [H2 H1].
  split; [rewrite H2; vm_compute; reflexivity | exact H1].
Defined.

(** ** Stored modification times and the refresh test *)

(** X20: when the modification times are stored and read again, the
    refresh test on a file that has not changed answers [True] exactly
    when the time of the file differs from its rounding to one
    fractional digit: the stored text keeps one digit only. *)
Theorem subpathNeedsRefresh_after_store modTimes times subPath name t :
  map_Forall (fun fileName _ => singleLine fileName) modTimes ->
  last subPath = Some name ->
  modTimes !! name = Some t ->
  times !! subPath = Some t ->
  (stored ← readModTimes (Some (storeModTimes modTimes));
   subpathNeedsRefresh stored times subPath)
  = Ok (negb (float_eqb t (roundTime t))).
Proof.
  intros Hkeys Hlast Hname Htime. rewrite (readModTimes_storeModTimes _ Hkeys).
  cbn [mbind result_bind]. unfold subpathNeedsRefresh, subpathGetModTime.
  rewrite Hlast, lookup_fmap, Hname, Htime. reflexivity.
Qed.

Lemma subpathNeedsRefresh_after_store_witness :
  (stored ← readModTimes (Some (storeModTimes {["a.glif" := literal "1400000000.25"]}));
   subpathNeedsRefresh stored {[ ["glyphs"; "a.glif"] := literal "1400000000.25" ]}
     ["glyphs"; "a.glif"])
  = Ok true.
Proof.
  rewrite (subpathNeedsRefresh_after_store
             {["a.glif" := literal "1400000000.25"]}
             {[ ["glyphs"; "a.glif"] := literal "1400000000.25" ]}
             ["glyphs"; "a.glif"] "a.glif" (literal "1400000000.25")).
  - vm_compute. reflexivity.
  - apply map_Forall_singleton. reflexivity.
  - reflexivity.
  - apply lookup_singleton_eq.
  - apply lookup_singleton_eq.
Defined.

(** ** Glyph files that keep their names *)





(** ** Property lists *)

(** The doctests of [propertyListObject]. *)
Example propertyListObject_doctests :
  (w ← propertyListObject (PArray []) newWriter; getText w)
  = Ok (str_join xmlLineBreak ["<array>"; "</array>"])
  /\ (w ← propertyListObject (PArray [PString "a"]) newWriter; getText w)
     = Ok (str_join xmlLineBreak ["<array>"; xmlIndent +:+ "<string>a</string>"; "</array>"])
  /\ (w ← propertyListObject (PArray [PNone]) newWriter; getText w)
     = Ok (str_join xmlLineBreak ["<array>"; "</array>"])
  /\ (w ← propertyListObject (PArray [PBool false]) newWriter; getText w)
     = Ok (str_join xmlLineBreak ["<array>"; xmlIndent +:+ "<false/>"; "</array>"])
  /\ (w ← propertyListObject (PDict []) newWriter; getText w)
     = Ok (str_join xmlLineBreak ["<dict>"; "</dict>"])
  /\ (w ← propertyListObject (PDict [("a", PFloat (literal "20.0"))]) newWriter; getText w)
     = Ok (str_join xmlLineBreak
             ["<dict>"; xmlIndent +:+ "<key>a</key>"; xmlIndent +:+ "<real>20</real>";
              "</dict>"])
  /\ (w ← propertyListObject (PDict [("", PNone)]) newWriter; getText w)
     = Ok (str_join xmlLineBreak ["<dict>"; xmlIndent +:+ "<key></key>"; "</dict>"])
  /\ (w ← propertyListObject (PString "1.000") newWriter; getText w)
     = Ok "<string>1.000</string>"
  /\ (w ← propertyListObject (PBool true) newWriter; getText w) = Ok "<true/>"
  /\ (w ← propertyListObject (PFloat (literal "-1.1")) newWriter; getText w)
     = Ok "<real>-1.1</real>"
  /\ (w ← propertyListObject (PFloat (literal "-0.0")) newWriter; getText w)
     = Ok "<real>0</real>"
  /\ (w ← propertyListObject (PInt (-1)) newWriter; getText w) = Ok "<integer>-1</integer>".
Proof. repeat split; vm_compute; reflexivity. Qed.

(** Induction on a property list, with the items of lists and
    dictionaries. *)
Lemma plist_induction (P : plist -> Prop) :
  P PNone ->
  (forall items, Forall P items -> P (PArray items)) ->
  (forall items, Forall (fun kv => P (snd kv)) items -> P (PDict items)) ->
  (forall s, P (PString s)) ->
  (forall b, P (PBool b)) ->
  (forall z, P (PInt z)) ->
  (forall x, P (PFloat x)) ->
  forall data, P data.
Proof.
  intros HNone HArray HDict HString HBool HInt HFloat.
  fix IH 1.
  intros [|items|items|s|b|z|x];
    [exact HNone | | | apply HString | apply HBool | apply HInt | apply HFloat].
  - apply HArray. induction items as [|d items IHitems]; constructor; [apply IH | exact IHitems].
  - apply HDict. induction items as [|[k d] items IHitems]; constructor;
      [apply IH | exact IHitems].
Qed.

Lemma propertyListObject_ok data :
  forall w, exists w', propertyListObject data w = Ok w' /\ balanced w w'.
Proof.
  induction data as [|items IH|items IH|s|b|z|x] using plist_induction; intros w;
    cbn [propertyListObject].
  - exists w. split; [reflexivity | apply balanced_refl].
  - apply (element_balanced "array" []
             (foldM (fun write w => write w) (map propertyListObject items)));
      [constructor|].
    apply foldM_balanced, Forall_map. exact IH.
  - match goal with |- context [foldM ?f ?l] =>
      apply (element_balanced "dict" [] (foldM f l)); [constructor|];
      apply foldM_balanced end.
    rewrite merge_sort_Permutation. apply Forall_map.
    eapply Forall_impl; [exact IH|]. intros [k d] Hd w1. cbn [snd] in Hd.
    destruct (simpleElement_balanced "key" [] (Some k) w1) as (w2 & -> & B2); [constructor|].
    cbn [mbind result_bind]. destruct (Hd w2) as (w3 & -> & B3).
    exists w3. split; [reflexivity | exact (balanced_trans _ _ _ B2 B3)].
  - apply simpleElement_balanced. constructor.
  - apply simpleElement_balanced. constructor.
  - apply simpleElement_balanced. constructor.
  - rewrite xmlConvertFloat_total. cbn [mbind result_bind].
    apply simpleElement_balanced. constructor.
Qed.

(** X22: [propertyListObject] never raises and never fails an assertion
    of the writer on the objects of the model: it returns a writer with
    the same stack and indentation level, the new lines added at the
    end. *)
Theorem propertyListObject_balanced data w :
  exists w', propertyListObject data w = Ok w' /\ balanced w w'.
Proof. apply propertyListObject_ok. Qed.

(** X23: [normalizePropertyList] returns a text for every object of the
    model: the XML declaration, the document type, the opening [plist]
    tag with its version, the lines of the object and the closing tag,
    joined by line breaks. *)
Theorem normalizePropertyList_text data :
  exists body,
    normalizePropertyList data
    = Ok (str_join xmlLineBreak
            ([xmlDeclaration; plistDocType; "<plist version=" +:+ quoted "1.0" +:+ ">"]
             ++ body ++ ["</plist>"])).
Proof.
  unfold normalizePropertyList.
  set (w1 := mkWriter [xmlDeclaration; plistDocType;
                       "<plist version=" +:+ quoted "1.0" +:+ ">"] 1 ["plist"]).
  assert (beginElement "plist" [("version", VStr "1.0")] newPlistWriter = Ok w1) as ->
    by (vm_compute; reflexivity).
  cbn [mbind result_bind].
  destruct (propertyListObject_ok data w1) as (w2 & -> & S2 & I2 & body & L2).
  cbn [mbind result_bind]. exists body.
  unfold endElement. rewrite S2. cbn [_stack w1 last String.eqb Ascii.eqb Bool.eqb andb].
  cbn [mbind result_bind]. unfold getText.
  cbn [_stack _lines raw removelast _indentLevel]. rewrite I2, L2.
  cbn [_indentLevel w1 Nat.pred replicate str_join]. rewrite <- app_assoc. reflexivity.
Qed.

#[local] Instance item_le_trans {V : Type} : Transitive (@item_le V).
Proof. intros a b c. unfold item_le. apply transitivity. Qed.

#[local] Instance item_le_total {V : Type} : Total (@item_le V).
Proof. intros a b. unfold item_le. apply String.le_total. Qed.

(** X24: the lines written for a dictionary do not depend on the order
    of its items: two dictionaries with the same items give the same
    result. *)
Theorem propertyListObject_dict_order_independent items1 items2 w :
  NoDup (map fst items1) -> items1 ≡ₚ items2 ->
  propertyListObject (PDict items1) w = propertyListObject (PDict items2) w.
Proof.
  intros Hnd Hperm. cbn [propertyListObject].
  set (g := fun '((key, value) : string * plist) => (key, propertyListObject value)).
  assert (merge_sort item_le (map g items1) = merge_sort item_le (map g items2)) as ->;
    [|reflexivity].
  apply (Sorted_unique_strong item_le).
  - intros x1 x2 H1 H2 L12 L21.
    rewrite merge_sort_Permutation in H1, H2.
    rewrite <- (Permutation_map g Hperm) in H2.
    apply list_elem_of_In, in_map_iff in H1 as ([k1 v1] & <- & H1).
    apply list_elem_of_In, in_map_iff in H2 as ([k2 v2] & <- & H2).
    apply list_elem_of_In in H1, H2.
    unfold item_le in L12, L21. cbn [g fst] in L12, L21.
    assert (k1 = k2) as <- by (apply (anti_symm String.le); assumption).
    rewrite (dict_NoDup_value items1 k1 v1 v2 Hnd H1 H2). reflexivity.
  - apply Sorted_merge_sort, _.
  - apply Sorted_merge_sort, _.
  - rewrite !merge_sort_Permutation. apply Permutation_map, Hperm.
Qed.

Lemma propertyListObject_dict_order_independent_witness :
  propertyListObject (PDict [("b", PInt 2); ("a", PString "x")]) newWriter
  = propertyListObject (PDict [("a", PString "x"); ("b", PInt 2)]) newWriter.
Proof.
  apply (propertyListObject_dict_order_independent
           [("b", PInt 2); ("a", PString "x")] [("a", PString "x"); ("b", PInt 2)]).
  - cbn. nodup_list.
  - apply Permutation_swap.
Defined.

(** ** The file names of the glyphs of a layer *)

Lemma str_in_elem x l : str_in x l = true <-> x ∈ l.
Proof.
  unfold str_in. rewrite existsb_exists. split.
  - intros (y & Hy & E). apply String.eqb_eq in E. subst y. apply list_elem_of_In, Hy.
  - intros H. exists x. split; [apply list_elem_of_In, H | apply String.eqb_refl].
Qed.

Lemma userNameToFileName_fresh userName existing prefix suffix fullName :
  userNameToFileName userName existing prefix suffix = Ok fullName ->
  str_in (str_lower fullName) existing = false.
Proof.
  rewrite userNameToFileName_eq. cbv zeta.
  set (body := guardedName (clippedUserName userName prefix suffix)).
  assert ((if str_in (str_lower (prefix +:+ body +:+ suffix)) existing
           then handleClash1 body existing prefix suffix
           else Ok (prefix +:+ body +:+ suffix)) = Ok fullName ->
          str_in (str_lower fullName) existing = false) as Hmain.
  { destruct (str_in (str_lower (prefix +:+ body +:+ suffix)) existing) eqn:E.
    - intros H. apply handleClash1_ok in H. tauto.
    - intros [= <-]. exact E. }
  destruct prefix, userName; try discriminate; exact Hmain.
Qed.

Lemma newGlyphFileNames_eq glyphNames :
  newGlyphFileNames glyphNames
  = (r ← foldM newGlyphFileNameStep glyphNames ([], []); Ok (fst r)).
Proof. reflexivity. Qed.

Lemma newGlyphFileNameStep_fold glyphNames newGlyphMapping newFileNames r :
  foldM newGlyphFileNameStep glyphNames (newGlyphMapping, newFileNames) = Ok r ->
  exists added,
    fst r = newGlyphMapping ++ added
    /\ snd r = newFileNames ++ map snd added
    /\ map fst added = glyphNames
    /\ (NoDup newFileNames -> Forall (fun item => lowerCase (snd item)) added ->
        NoDup (newFileNames ++ map snd added)).
Proof.
  revert newGlyphMapping newFileNames.
  induction glyphNames as [|g l IH]; intros m fn.
  - intros [= <-]. exists []. cbn [map fst snd]. rewrite !app_nil_r. auto.
  - rewrite foldM_cons. unfold newGlyphFileNameStep at 2.
    destruct (userNameToFileName g fn "" ".glif") as [n|] eqn:E; [|discriminate].
    cbn [mbind result_bind]. intros H.
    apply IH in H as (added & H1 & H2 & H3 & H4).
    exists ((g, n) :: added). cbn [map fst snd].
    rewrite H1, H2, H3, <- !app_assoc. repeat split.
    intros Hnd Hlow. apply Forall_cons in Hlow as [Hn Hlow]. cbn [snd] in Hn.
    replace (fn ++ n :: map snd added) with ((fn ++ [n]) ++ map snd added)
      by (rewrite <- app_assoc; reflexivity).
    apply H4; [|exact Hlow].
    apply NoDup_app. split; [exact Hnd|]. split; [|apply NoDup_singleton].
    intros x Hx Hx'. apply list_elem_of_singleton in Hx'. subst x.
    apply userNameToFileName_fresh in E. unfold lowerCase in Hn. rewrite Hn in E.
    apply str_in_elem in Hx. congruence.
Qed.

(** X25: when the file names that [normalizeGlyphNames] computes hold
    no capitals, they are pairwise different, one for each glyph name
    and in the order of the glyph names. *)
Theorem newGlyphFileNames_distinct glyphNames newGlyphMapping :
  newGlyphFileNames glyphNames = Ok newGlyphMapping ->
  Forall (fun item => lowerCase (snd item)) newGlyphMapping ->
  map fst newGlyphMapping = glyphNames /\ NoDup (map snd newGlyphMapping).
Proof.
  rewrite newGlyphFileNames_eq.
  destruct (foldM newGlyphFileNameStep glyphNames ([], [])) as [r|] eqn:E; [|discriminate].
  cbn [mbind result_bind]. intros [= <-] Hlow.
  apply newGlyphFileNameStep_fold in E as (added & H1 & _ & H3 & H4).
  cbn [app] in H1, H4. rewrite H1 in *. split; [exact H3|].
  apply H4; [apply NoDup_nil_2 | exact Hlow].
Qed.

Lemma newGlyphFileNames_distinct_witness :
  newGlyphFileNames ["a*"; "a?"]
  = Ok [("a*", "a_.glif"); ("a?", "a_000000000000001.glif")]
  /\ map fst [("a*", "a_.glif"); ("a?", "a_000000000000001.glif")] = ["a*"; "a?"]
  /\ NoDup (map snd [("a*", "a_.glif"); ("a?", "a_000000000000001.glif")]).
Proof.
  split; [vm_compute; reflexivity|].
  apply (newGlyphFileNames_distinct ["a*"; "a?"]).
  - vm_compute. reflexivity.
  - repeat constructor.
Defined.

Lemma filterCharacter_illegal c : is_illegal c = true -> filterCharacter c = "_".
Proof. unfold filterCharacter. intros ->. reflexivity. Qed.

Lemma capital_name_file c existing :
  is_illegal c = true ->
  str_in "a__.glif" existing = false ->
  userNameToFileName (String "A" (String c "")) existing "" ".glif" = Ok "A__.glif".
Proof.
  intros Hc Hex. rewrite userNameToFileName_eq. cbv zeta.
  assert (guardedName (clippedUserName (String "A" (String c "")) "" ".glif") = "A__") as ->.
  { unfold clippedUserName. cbn [str_flat_map]. rewrite (filterCharacter_illegal c Hc).
    vm_compute. reflexivity. }
  change (str_lower ("" +:+ "A__" +:+ ".glif")) with "a__.glif". rewrite Hex. reflexivity.
Qed.

(** X26: with a capital in the name the clash goes unnoticed: the
    names made so far are kept as they are written, the new name is
    looked up in lower case.  The glyph names [A] followed by an
    illegal character all get the file name [A__.glif], so two glyphs
    of a layer are given one file. *)
Theorem newGlyphFileNames_capital_clash c1 c2 :
  is_illegal c1 = true -> is_illegal c2 = true ->
  newGlyphFileNames [String "A" (String c1 ""); String "A" (String c2 "")]
  = Ok [(String "A" (String c1 ""), "A__.glif"); (String "A" (String c2 ""), "A__.glif")].
Proof.
  intros H1 H2. rewrite newGlyphFileNames_eq. rewrite foldM_cons.
  unfold newGlyphFileNameStep at 2. rewrite (capital_name_file c1 [] H1 eq_refl).
  cbn [mbind result_bind app]. rewrite foldM_cons.
  unfold newGlyphFileNameStep at 2. rewrite (capital_name_file c2 ["A__.glif"] H2 eq_refl).
  reflexivity.
Qed.

Lemma newGlyphFileNames_capital_clash_witness :
  newGlyphFileNames ["A*"; "A?"] = Ok [("A*", "A__.glif"); ("A?", "A__.glif")].
Proof. apply (newGlyphFileNames_capital_clash "*" "?"); reflexivity. Defined.

(** ** The unicode element *)

(** The doctests of the source. *)
Example _normalizeGlifUnicode_doctests :
  let run attrs :=
    w ← _normalizeGlifUnicode (Element "unicode" attrs None []) newWriter; getText w in
  run [] = Ok ""
  /\ run [("hex", "")] = Ok ""
  /\ run [("hexagon", "")] = Ok ""
  /\ run [("hex", "xyz")] = Ok ""
  /\ run [("hex", "0041")] = Ok ("<unicode hex=" +:+ quoted "0041" +:+ "/>")
  /\ run [("hex", "41")] = Ok ("<unicode hex=" +:+ quoted "0041" +:+ "/>")
  /\ run [("hex", "ea")] = Ok ("<unicode hex=" +:+ quoted "00EA" +:+ "/>")
  /\ run [("hex", "2Af")] = Ok ("<unicode hex=" +:+ quoted "02AF" +:+ "/>")
  /\ run [("hex", "0000fFfF")] = Ok ("<unicode hex=" +:+ quoted "FFFF" +:+ "/>")
  /\ run [("hex", "10000")] = Ok ("<unicode hex=" +:+ quoted "10000" +:+ "/>")
  /\ run [("hex", "abcde")] = Ok ("<unicode hex=" +:+ quoted "ABCDE" +:+ "/>").
Proof. repeat split; vm_compute; reflexivity. Qed.

Lemma string_of_hex_uint_upper d : str_all is_upper_hex (string_of_hex_uint d) = true.
Proof. induction d; cbn [string_of_hex_uint str_all]; auto. Qed.

Lemma hex_fold_uint_acc d acc :
  hex_fold (string_of_hex_uint d) (Npos acc) false
  = Some (Npos (Pos.of_hex_uint_acc d acc)).
Proof.
  revert acc. induction d; intros acc;
    cbn [string_of_hex_uint hex_fold Pos.of_hex_uint_acc]; try reflexivity;
    match goal with
    | |- context [Ascii.eqb ?c "_"] =>
        let b := eval vm_compute in (Ascii.eqb c "_") in
        change (Ascii.eqb c "_") with b; cbv iota
    end;
    match goal with
    | |- context [hex_digit_value ?c] =>
        let v := eval vm_compute in (hex_digit_value c) in
        change (hex_digit_value c) with v; cbv iota
    end;
    rewrite <- IHd; f_equal; lia.
Qed.

Lemma hex_fold_uint d :
  hex_fold (string_of_hex_uint d) 0%N false = Some (N.of_hex_uint d).
Proof.
  induction d; cbn [string_of_hex_uint hex_fold]; try reflexivity;
    match goal with
    | |- context [Ascii.eqb ?c "_"] =>
        let b := eval vm_compute in (Ascii.eqb c "_") in
        change (Ascii.eqb c "_") with b; cbv iota
    end;
    match goal with
    | |- context [hex_digit_value ?c] =>
        let v := eval vm_compute in (hex_digit_value c) in
        change (hex_digit_value c) with v; cbv iota
    end;
    try exact IHd; apply (hex_fold_uint_acc d).
Qed.

Lemma hex_fold_hex_of_N n : hex_fold (hex_of_N n) 0%N false = Some n.
Proof. unfold hex_of_N. rewrite hex_fold_uint, HexadecimalN.Unsigned.of_to. reflexivity. Qed.

Lemma hex_fold_zeros k s :
  hex_fold (str_repeat "0" k +:+ s) 0%N false = hex_fold s 0%N false.
Proof. induction k as [|k IH]; [reflexivity | exact IH]. Qed.

Lemma hex_of_N_nonempty n : hex_of_N n <> EmptyString.
Proof.
  unfold hex_of_N. pose proof (HexadecimalFacts.unorm_nonnil (N.to_hex_uint n)) as H.
  rewrite <- (HexadecimalN.Unsigned.of_to n) in H at 1.
  rewrite HexadecimalN.Unsigned.to_of, HexadecimalFacts.unorm_involutive in H.
  rewrite <- HexadecimalN.Unsigned.to_of, HexadecimalN.Unsigned.of_to in H.
  destruct (N.to_hex_uint n); [contradiction | discriminate..].
Qed.

Lemma zfill_upper w s :
  str_all is_upper_hex s = true -> str_all is_upper_hex (zfill w s) = true.
Proof. apply str_all_zfill. reflexivity. Qed.

Lemma zfill_nonempty w s : s <> EmptyString -> zfill w s <> EmptyString.
Proof.
  intros H E. apply (f_equal String.length) in E. unfold zfill in E.
  rewrite str_length_app in E. destruct s; [contradiction | cbn in E; lia].
Qed.

Lemma upper_hex_not_space c : is_upper_hex c = true -> is_space c = false.
Proof. destruct c as [[] [] [] [] [] [] [] []]; intros H; try discriminate H; reflexivity. Qed.

Lemma str_strip_upper s :
  str_all is_upper_hex s = true -> str_strip s = s.
Proof.
  intros Hs. destruct s as [|c r]; [reflexivity|].
  unfold str_strip.
  assert (str_lstrip is_space (String c r) = String c r) as ->.
  { cbn [str_all] in Hs. apply andb_true_iff in Hs as [Hc _]. cbn [str_lstrip].
    rewrite (upper_hex_not_space c Hc). reflexivity. }
  destruct (str_last_cons c r) as [x Hx].
  apply (str_rstrip_id _ _ x Hx), upper_hex_not_space, (str_last_all _ _ _ Hs Hx).
Qed.

Lemma str_strip_minus_upper s :
  s <> EmptyString -> str_all is_upper_hex s = true ->
  str_strip (String "-" s) = String "-" s.
Proof.
  intros Hne Hs. destruct s as [|c r]; [contradiction|].
  unfold str_strip. cbn [str_lstrip]. change (is_space "-") with false. cbv iota.
  destruct (str_last_cons c r) as [x Hx].
  apply (str_rstrip_id _ _ x); [|apply upper_hex_not_space, (str_last_all _ _ _ Hs Hx)].
  change (String "-" (String c r)) with ("-" +:+ String c r).
  rewrite str_last_app by discriminate. exact Hx.
Qed.

(** The digits of an upper-case numeral are taken as they stand: no
    prefix, no underscore. *)
Lemma int_digits_upper (neg : bool) s :
  s <> EmptyString -> str_all is_upper_hex s = true ->
  (let u :=
     match s with
     | String "0" (String x r) =>
         if Ascii.eqb x "x" || Ascii.eqb x "X" then
           match r with
           | String "_" r' => r'
           | _ => r
           end
         else s
     | _ => s
     end in
   match u with
   | EmptyString => None
   | String c _ =>
       if Ascii.eqb c "_" then None
       else
         match hex_fold u 0%N false with
         | Some n => Some (if neg then - Z.of_N n else Z.of_N n)%Z
         | None => None
         end
   end)
  = option_map (fun n => if neg then - Z.of_N n else Z.of_N n)%Z (hex_fold s 0%N false).
Proof.
  intros Hne Hs. destruct s as [|c r]; [contradiction|]. cbn [str_all] in Hs.
  apply andb_true_iff in Hs as [Hc Hr].
  assert (match String c r with
          | String "0" (String x r0) =>
              if Ascii.eqb x "x" || Ascii.eqb x "X"
              then match r0 with
                   | String "_" r' => r'
                   | _ => r0
                   end
              else String c r
          | _ => String c r
          end = String c r) as ->.
  { destruct r as [|x r0]; [destruct c as [[] [] [] [] [] [] [] []]; reflexivity|].
    cbn [str_all] in Hr. apply andb_true_iff in Hr as [Hx _].
    assert (Ascii.eqb x "x" || Ascii.eqb x "X" = false) as Hp
      by (destruct x as [[] [] [] [] [] [] [] []]; try discriminate Hx; reflexivity).
    destruct c as [[] [] [] [] [] [] [] []]; try reflexivity. rewrite Hp. reflexivity. }
  cbv beta iota zeta.
  assert (Ascii.eqb c "_" = false) as ->
    by (destruct c as [[] [] [] [] [] [] [] []]; try discriminate Hc; reflexivity).
  destruct (hex_fold (String c r) 0%N false); reflexivity.
Qed.

Lemma split_sign_upper s :
  str_all is_upper_hex s = true -> split_sign s = (false, s).
Proof.
  destruct s as [|c r]; [reflexivity|]. cbn [str_all]. intros [Hc _]%andb_true_iff.
  destruct c as [[] [] [] [] [] [] [] []]; try discriminate Hc; reflexivity.
Qed.

Lemma format_04X_read d : int_of_string_16 (format_04X d) = Some d.
Proof.
  unfold format_04X. destruct (d <? 0)%Z eqn:E.
  - apply Z.ltb_lt in E.
    set (digits := zfill 3 (hex_of_N (Z.abs_N d))).
    assert (Hn : digits <> EmptyString) by apply zfill_nonempty, hex_of_N_nonempty.
    assert (Hu : str_all is_upper_hex digits = true)
      by apply zfill_upper, string_of_hex_uint_upper.
    unfold int_of_string_16. rewrite (str_strip_minus_upper digits Hn Hu).
    cbn [split_sign]. refine (eq_trans (int_digits_upper true digits Hn Hu) _).
    unfold digits, zfill. rewrite hex_fold_zeros, hex_fold_hex_of_N. cbn [option_map].
    f_equal. lia.
  - apply Z.ltb_ge in E.
    set (digits := zfill 4 (hex_of_N (Z.to_N d))).
    assert (Hn : digits <> EmptyString) by apply zfill_nonempty, hex_of_N_nonempty.
    assert (Hu : str_all is_upper_hex digits = true)
      by apply zfill_upper, string_of_hex_uint_upper.
    unfold int_of_string_16. rewrite (str_strip_upper digits Hu), (split_sign_upper digits Hu).
    refine (eq_trans (int_digits_upper false digits Hn Hu) _).
    unfold digits, zfill. rewrite hex_fold_zeros, hex_fold_hex_of_N. cbn [option_map].
    f_equal. lia.
Qed.

Lemma escapeTextCharacter_plain c :
  negb (Ascii.eqb c "&") && noAngle c = true ->
  escapeTextCharacter c = String c EmptyString.
Proof.
  unfold escapeTextCharacter, noAngle.
  destruct (Ascii.eqb c "&"); [discriminate|].
  destruct (Ascii.eqb c "<"); [discriminate|].
  destruct (Ascii.eqb c ">"); [discriminate|]. reflexivity.
Qed.

Lemma xmlEscapeText_plain s :
  str_all (fun c => negb (Ascii.eqb c "&") && noAngle c) s = true ->
  xmlEscapeText s = s.
Proof.
  rewrite xmlEscapeText_characters. induction s as [|c s IH]; [reflexivity|].
  cbn [str_all str_flat_map]. intros [Hc Hs]%andb_true_iff.
  rewrite (escapeTextCharacter_plain c Hc), (IH Hs). reflexivity.
Qed.

Lemma format_04X_plain d :
  str_all (fun c => negb (Ascii.eqb c "&") && noAngle c) (format_04X d) = true.
Proof.
  assert (forall s, str_all is_upper_hex s = true ->
                    str_all (fun c => negb (Ascii.eqb c "&") && noAngle c) s = true) as Hup.
  { intros s. apply str_all_impl. intros c Hc.
    destruct c as [[] [] [] [] [] [] [] []]; try discriminate Hc; reflexivity. }
  unfold format_04X. destruct (d <? 0)%Z.
  - cbn [str_all]. rewrite Hup by apply zfill_upper, string_of_hex_uint_upper. reflexivity.
  - apply Hup, zfill_upper, string_of_hex_uint_upper.
Qed.

Lemma str_length_zfill_ge w s : w <= String.length (zfill w s).
Proof.
  unfold zfill. rewrite str_length_app.
  assert (forall c k, String.length (str_repeat c k) = k) as Hrep
    by (intros c k; induction k; cbn; auto).
  rewrite Hrep. lia.
Qed.

Lemma format_04X_length d : 4 <= String.length (format_04X d).
Proof.
  unfold format_04X. destruct (d <? 0)%Z.
  - cbn [String.length]. pose proof (str_length_zfill_ge 3 (hex_of_N (Z.abs_N d))). lia.
  - apply str_length_zfill_ge.
Qed.

(** X27: the text that ["%04X"] makes for an integer is a sign, if the
    integer is negative, and upper-case hexadecimal digits, four
    characters at least; [int(text, 16)] reads it as the same integer,
    so the hex value written for a unicode element is the value read. *)
Theorem int_of_string_16_format_04X d :
  int_of_string_16 (format_04X d) = Some d
  /\ 4 <= String.length (format_04X d)
  /\ exists digits,
       format_04X d = sign_text (d <? 0)%Z +:+ digits
       /\ str_all is_upper_hex digits = true.
Proof.
  split; [apply format_04X_read|]. split; [apply format_04X_length|].
  unfold format_04X. destruct (d <? 0)%Z; eexists; (split; [reflexivity|]);
    apply zfill_upper, string_of_hex_uint_upper.
Qed.

Lemma simpleElement_unicode d w :
  simpleElement "unicode" [("hex", VStr (format_04X d))] None w
  = Ok (raw ("<unicode hex=" +:+ quoted (format_04X d) +:+ "/>") w).
Proof.
  unfold simpleElement. rewrite attributesToString_one. cbn [xmlConvertValue].
  rewrite (xmlEscapeText_plain _ (format_04X_plain d)). cbn [mbind result_bind].
  f_equal.
Qed.

(** X28: the unicode normalizer never raises.  It writes nothing, or
    one [unicode] element whose hex value is the ["%04X"] text of an
    integer, at least four characters long; and the element it writes
    is normalized to itself. *)
Theorem _normalizeGlifUnicode_outcomes element w :
  _normalizeGlifUnicode element w = Ok w
  \/ exists d,
       _normalizeGlifUnicode element w
       = Ok (raw ("<unicode hex=" +:+ quoted (format_04X d) +:+ "/>") w)
       /\ 4 <= String.length (format_04X d)
       /\ _normalizeGlifUnicode (Element "unicode" [("hex", format_04X d)] None []) w
          = _normalizeGlifUnicode element w.
Proof.
  assert (_normalizeGlifUnicode element w = Ok w
          \/ exists d, _normalizeGlifUnicode element w
                       = simpleElement "unicode" [("hex", VStr (format_04X d))] None w)
    as [H|[d H]].
  { unfold _normalizeGlifUnicode.
    destruct (dict_get "hex" (attrib element)) as [[|c v]|]; [left; reflexivity| |left; reflexivity].
    destruct (int_of_string_16 (String c v)) as [d|]; [|left; reflexivity].
    right. exists d. reflexivity. }
  - left. exact H.
  - right. exists d. rewrite H, simpleElement_unicode.
    split; [reflexivity|]. split; [apply format_04X_length|].
    unfold _normalizeGlifUnicode. cbn [attrib dict_get String.eqb Ascii.eqb Bool.eqb andb].
    rewrite format_04X_read, simpleElement_unicode.
    pose proof (format_04X_length d) as Hl.
    destruct (format_04X d); [cbn in Hl; lia | reflexivity].
Qed.

(** ** The first free counter *)

Lemma searchCounter_running_none try bound n counter counter' :
  searchCounter try bound n counter = Running counter' ->
  forall j, (counter <= j < counter')%N -> try j = None.
Proof.
  revert counter counter'. induction n as [|n IH]; intros c c'.
  - cbn [searchCounter]. destruct (try c) eqn:E; [discriminate|].
    destruct (bound <=? c + 1)%N; [discriminate|].
    intros [= <-] j Hj. assert (j = c) as -> by lia. exact E.
  - cbn [searchCounter]. destruct (searchCounter try bound n c) as [| |c1] eqn:E1;
      try discriminate.
    intros E2 j Hj. pose proof (searchCounter_running _ _ _ _ _ E1) as [Hc1 _].
    destruct (N.lt_ge_cases j c1) as [Hlt|Hge].
    + apply (IH _ _ E1). lia.
    + apply (IH _ _ E2). lia.
Qed.

Lemma searchCounter_first try bound n counter name :
  searchCounter try bound n counter = Found name ->
  exists k,
    try k = Some name /\ (counter <= k)%N
    /\ forall j, (counter <= j < k)%N -> try j = None.
Proof.
  revert counter. induction n as [|n IH]; intros c.
  - cbn [searchCounter]. destruct (try c) as [x|] eqn:E.
    + intros [= <-]. exists c. split; [exact E|]. split; [lia|]. intros j Hj. lia.
    + destruct (bound <=? c + 1)%N; discriminate.
  - cbn [searchCounter]. destruct (searchCounter try bound n c) as [x| |c1] eqn:E1.
    + intros [= <-]. apply IH, E1.
    + discriminate.
    + intros E2. pose proof (searchCounter_running _ _ _ _ _ E1) as [Hc1 _].
      pose proof (searchCounter_running_none _ _ _ _ _ E1) as Hnone.
      apply IH in E2 as (k & Hk & Hle & Hbefore). exists k. split; [exact Hk|].
      assert (0 < 2 ^ N.of_nat n)%N by (apply N.neq_0_lt_0, N.pow_nonzero; discriminate).
      split; [lia|]. intros j Hj.
      destruct (N.lt_ge_cases j c1) as [Hlt|Hge]; [apply Hnone | apply Hbefore]; lia.
Qed.

Lemma searchCounter_gaveUp try bound n counter :
  searchCounter try bound n counter = GaveUp ->
  forall j, (counter <= j < bound)%N -> try j = None.
Proof.
  revert counter. induction n as [|n IH]; intros c.
  - cbn [searchCounter]. destruct (try c) eqn:E; [discriminate|].
    destruct (bound <=? c + 1)%N eqn:Eb; [|discriminate].
    apply N.leb_le in Eb. intros _ j Hj. assert (j = c) as -> by lia. exact E.
  - cbn [searchCounter]. destruct (searchCounter try bound n c) as [x| |c1] eqn:E1.
    + discriminate.
    + intros _. apply IH, E1.
    + intros E2 j Hj. pose proof (searchCounter_running_none _ _ _ _ _ E1) as Hnone.
      destruct (N.lt_ge_cases j c1) as [Hlt|Hge]; [apply Hnone | apply (IH _ E2)]; lia.
Qed.

Lemma handleClash1_eq userName existing prefix suffix :
  handleClash1 userName existing prefix suffix
  = match searchCounter
            (fun counter : N =>
               if negb (str_in (str_lower (clashName1 userName prefix suffix counter))
                          existing)
               then Some (clashName1 userName prefix suffix counter) else None)
            999999999999999 50 1 with
    | Found finalName => Ok finalName
    | GaveUp => handleClash2 existing prefix suffix
    | Running _ => Raise LoopFuel
    end.
Proof. reflexivity. Qed.

Lemma handleClash2_eq existing prefix suffix :
  handleClash2 existing prefix suffix
  = let maxLength :=
      (maxFileNameLength - Z.of_nat (String.length prefix)
       - Z.of_nat (String.length suffix))%Z in
    if (maxLength <=? 0)%Z then Raise ValueError
    else
      match searchCounter
              (fun counter : N =>
                 if negb (str_in (str_lower (clashName2 prefix suffix counter)) existing)
                 then Some (clashName2 prefix suffix counter) else None)
              (Z.to_N (10 ^ maxLength - 1)) (4 * Z.to_nat maxLength) 1 with
      | Found finalName => Ok finalName
      | GaveUp => Raise NameError
      | Running _ => Raise LoopFuel
      end.
Proof. reflexivity. Qed.

(** X29: the name that [handleClash1] returns carries the first free
    counter: the 15-digit counter, counted from 1, of the first name
    that is not taken; or, when all these names below 999999999999999
    are taken, the first free plain counter of [handleClash2]. *)
Theorem handleClash1_first_free userName existing prefix suffix name :
  handleClash1 userName existing prefix suffix = Ok name ->
  (exists k,
     (1 <= k)%N
     /\ name = clashName1 userName prefix suffix k
     /\ forall j, (1 <= j < k)%N -> taken existing (clashName1 userName prefix suffix j))
  \/ (exists k,
        (1 <= k)%N
        /\ name = clashName2 prefix suffix k
        /\ (forall j, (1 <= j < k)%N -> taken existing (clashName2 prefix suffix j))
        /\ forall j, (1 <= j < 999999999999999)%N ->
                     taken existing (clashName1 userName prefix suffix j)).
Proof.
  rewrite handleClash1_eq.
  set (try1 := fun counter : N =>
                 if negb (str_in (str_lower (clashName1 userName prefix suffix counter))
                            existing)
                 then Some (clashName1 userName prefix suffix counter) else None).
  assert (Htry1 : forall j, try1 j = None -> taken existing (clashName1 userName prefix suffix j)).
  { intros j. unfold try1, taken.
    destruct (str_in (str_lower (clashName1 userName prefix suffix j)) existing);
      [reflexivity | discriminate]. }
  destruct (searchCounter try1 999999999999999 50 1) as [x| |c'] eqn:Es; try discriminate.
  - intros [= ->]. left. apply searchCounter_first in Es as (k & Hk & Hle & Hbefore).
    exists k. split; [exact Hle|]. split.
    + unfold try1 in Hk.
      destruct (negb (str_in (str_lower (clashName1 userName prefix suffix k)) existing));
        [injection Hk as <-; reflexivity | discriminate].
    + intros j Hj. apply Htry1, Hbefore, Hj.
  - rewrite handleClash2_eq. cbv zeta. intros H. right.
    pose proof (searchCounter_gaveUp _ _ _ _ Es) as Hall.
    destruct (_ <=? 0)%Z; [discriminate|].
    set (try2 := fun counter : N =>
                   if negb (str_in (str_lower (clashName2 prefix suffix counter)) existing)
                   then Some (clashName2 prefix suffix counter) else None) in H.
    match type of H with
    | match searchCounter _ ?b ?n ?c with _ => _ end = _ =>
        destruct (searchCounter try2 b n c) as [x| |c'] eqn:Es2; try discriminate
    end.
    injection H as ->. apply searchCounter_first in Es2 as (k & Hk & Hle & Hbefore).
    exists k. split; [exact Hle|]. split; [|split].
    + unfold try2 in Hk.
      destruct (negb (str_in (str_lower (clashName2 prefix suffix k)) existing));
        [injection Hk as <-; reflexivity | discriminate].
    + intros j Hj. specialize (Hbefore j Hj). unfold try2 in Hbefore. unfold taken.
      destruct (str_in (str_lower (clashName2 prefix suffix j)) existing);
        [reflexivity | discriminate].
    + intros j Hj. apply Htry1, Hall, Hj.
Qed.

Lemma handleClash1_first_free_witness :
  handleClash1 "a" ["a000000000000001"; "a000000000000002"] "" ""
  = Ok "a000000000000003"
  /\ ((exists k,
         (1 <= k)%N
         /\ "a000000000000003" = clashName1 "a" "" "" k
         /\ forall j, (1 <= j < k)%N ->
                      taken ["a000000000000001"; "a000000000000002"] (clashName1 "a" "" "" j))
      \/ (exists k,
            (1 <= k)%N
            /\ "a000000000000003" = clashName2 "" "" k
            /\ (forall j, (1 <= j < k)%N ->
                          taken ["a000000000000001"; "a000000000000002"]
                                (clashName2 "" "" j))
            /\ forall j, (1 <= j < 999999999999999)%N ->
                         taken ["a000000000000001"; "a000000000000002"]
                               (clashName1 "a" "" "" j))).
Proof.
  split; [vm_compute; reflexivity|].
  apply (handleClash1_first_free "a" ["a000000000000001"; "a000000000000002"] "" "").
  vm_compute. reflexivity.
Defined.

(** ** The guideline element *)

Lemma noNone_setIfNotNone k v d : noNone d -> noNone (setIfNotNone k v d).
Proof.
  intros H. unfold setIfNotNone. destruct (is_None v) eqn:E; [exact H|].
  apply noNone_dict_set; assumption.
Qed.

Lemma _normalizeDictGuideline_strings guideline :
  (forall k, dict_get_value k guideline = VNone
             \/ exists s, dict_get_value k guideline = VStr s) ->
  exists r,
    _normalizeDictGuideline guideline = Ok r
    /\ match r with Some normalized => noNone normalized | None => True end.
Proof.
  intros Hstr. unfold _normalizeDictGuideline.
  destruct (negb (truthy (dict_get_value "x" guideline))
            && negb (truthy (dict_get_value "y" guideline))); [exists None; auto|].
  destruct ((negb (truthy (dict_get_value "x" guideline))
             || negb (truthy (dict_get_value "y" guideline)))
            && truthy (dict_get_value "angle" guideline)); [exists None; auto|].
  destruct (truthy (dict_get_value "x" guideline) && truthy (dict_get_value "y" guideline)
            && negb (truthy (dict_get_value "angle" guideline))); [exists None; auto|].
  destruct (floatIfSet (dict_get_value "x" guideline)) as [x|]; [|exists None; auto].
  destruct (floatIfSet (dict_get_value "y" guideline)) as [y|]; [|exists None; auto].
  destruct (floatIfSet (dict_get_value "angle" guideline)) as [angle|]; [|exists None; auto].
  set (base := setIfNotNone "name" (dict_get_value "name" guideline)
                 (setIfNotNone "angle" angle
                    (setIfNotNone "y" y (setIfNotNone "x" x [])))).
  assert (noNone base) as Hbase by (repeat apply noNone_setIfNotNone; constructor).
  destruct (Hstr "color") as [Hc|[s Hc]]; rewrite Hc; cbn [is_None normalizeColorValue].
  - cbn [mbind result_bind]. eexists. split; [reflexivity|].
    apply noNone_setIfNotNone, Hbase.
  - rewrite _normalizeColorString_spec. cbn [mbind result_bind].
    eexists. split; [reflexivity|]. apply noNone_setIfNotNone.
    destruct (specColor s); [apply noNone_dict_set; [reflexivity | exact Hbase] | exact Hbase].
Qed.

Lemma dict_get_value_guidelineAttributes k element :
  dict_get_value k (guidelineAttributes element) = VNone
  \/ exists s, dict_get_value k (guidelineAttributes element) = VStr s.
Proof.
  unfold dict_get_value, guidelineAttributes. cbn [map dict_get].
  assert (forall a, attrib_value a element = VNone
                    \/ exists s, attrib_value a element = VStr s) as Ha.
  { intros a. unfold attrib_value. destruct (dict_get a (attrib element)); eauto. }
  repeat match goal with
         | |- context [if String.eqb k ?a then _ else _] =>
             destruct (String.eqb k a); [apply Ha|]
         end.
  left. reflexivity.
Qed.

(** X30: the normalizer of the guideline element of a glyph never
    raises: on every element and every writer it returns a writer with
    the same stack and indentation level, with at most one line added;
    an unusable color is left out, an unreadable number drops the
    guideline. *)
Theorem _normalizeGlifGuideline_balanced element w :
  exists w', _normalizeGlifGuideline element w = Ok w' /\ balanced w w'.
Proof.
  unfold _normalizeGlifGuideline.
  change (map (fun attr => (attr, attrib_value attr element))
              ["x"; "y"; "angle"; "color"; "name"; "identifier"])
    with (guidelineAttributes element).
  destruct (_normalizeDictGuideline_strings (guidelineAttributes element)
              (fun k => dict_get_value_guidelineAttributes k element))
    as ([normalized|] & -> & Hn); cbn [mbind result_bind].
  - apply simpleElement_balanced, Hn.
  - exists w. split; [reflexivity | apply balanced_refl].
Qed.
